(** * K-1008 image converter: bit-plane conversion and record serializers

    A shallow embedding of [kimg.c], [ihex.c] and [pap.c].

    Conventions of the embedding:
    - C integers are [Z]; every conversion to a fixed-width unsigned type is
      written out as a reduction modulo [2^w] ([uint8], [uint16]).
    - C arrays are [list Z] of bytes, read with [load] and written with
      [store]; an access outside the array has no defined behaviour in C and
      yields [None].
    - [None] as the result of a function therefore means "no defined result"
      (an out-of-bounds access, or a loop that does not terminate). *)

From Stdlib Require Import ZArith Lia Ascii String List.
From stdpp Require Import base option list.

Local Open Scope Z_scope.

(** ** Constants of kimg.c *)

Definition MAX_PALETTE_SIZE : Z := 16.
Definition MAX_COL_BYTES : Z := 40.
Definition MAX_ROWS : Z := 200.
Definition MAX_IMAGE_SIZE : Z := MAX_COL_BYTES * 8 * MAX_ROWS.
Definition MAX_CARDS : Z := 4.
Definition CARD_MEMORY_SIZE : Z := 8192.
Definition MIN_BASE_ADDRESS : Z := 0x2000.
Definition MAX_BASE_ADDRESS : Z := 0xA000.

(** ** Fixed-width integers and arrays *)

Definition uint8 (v : Z) : Z := v mod 256.
Definition uint16 (v : Z) : Z := v mod 65536.

Definition load (a : list Z) (i : Z) : option Z :=
  if bool_decide (0 <= i) then a !! Z.to_nat i else None.

Definition store (a : list Z) (i : Z) (v : Z) : option (list Z) :=
  if bool_decide (0 <= i < Z.of_nat (length a))
  then Some (<[Z.to_nat i := v]> a)
  else None.

(** [for ( i = init; cond i; i = next i ) body].  The recursion is on a fuel
    argument; a loop that is still running when the fuel is spent has no
    result. *)
Fixpoint for_loop {S : Type} (fuel : nat) (cond : Z -> bool) (next : Z -> Z)
    (body : Z -> S -> option S) (i : Z) (s : S) : option S :=
  match fuel with
  | O => None
  | Datatypes.S fuel' =>
      if cond i
      then match body i s with
           | Some s' => for_loop fuel' cond next body (next i) s'
           | None => None
           end
      else Some s
  end.

(** A [uint16_t] counter takes at most 65536 values: a loop over such a
    counter either stops within 65536 iterations or never does. *)
Definition uint16_fuel : nat := Z.to_nat 65537.

(** ** kimg.c: convert_to_layers *)

Record layers := mk_layers {
  binary : list Z;
  conv_byte : Z;
  data_size : Z
}.

(** [binary[conv_byte+CARD_MEMORY_SIZE*cbit] |=
       ((raw[(y*x_size)+x+pixel] >> cbit) & 1) << (7 - pixel);] *)
Definition or_pixel (raw : list Z) (x_size y x cbit conv : Z) (pixel : Z)
    (bin : list Z) : option (list Z) :=
  r ← load raw (y * x_size + x + pixel);
  old ← load bin (conv + CARD_MEMORY_SIZE * cbit);
  store bin (conv + CARD_MEMORY_SIZE * cbit)
    (uint8 (Z.lor old (Z.shiftl (Z.land (Z.shiftr r cbit) 1) (7 - pixel)))).

(** Body of the [cbit] loop: clear the byte, or the (up to) eight pixels of
    the group into it, count it. *)
Definition layer_byte (raw : list Z) (x_size y x : Z) (cbit : Z) (st : layers)
    : option layers :=
  bin0 ← store (binary st) (conv_byte st + CARD_MEMORY_SIZE * cbit) 0;
  bin1 ← for_loop 9 (fun pixel => (pixel <? 8) && (x + pixel <? x_size))
                    (fun pixel => pixel + 1)
                    (or_pixel raw x_size y x cbit (conv_byte st)) 0 bin0;
  Some (mk_layers bin1 (conv_byte st) (data_size st + 1)).

(** Body of the [x] loop: one byte per plane, then [++conv_byte]. *)
Definition layer_group (raw : list Z) (color_bits x_size y : Z) (x : Z)
    (st : layers) : option layers :=
  st' ← for_loop (S (Z.to_nat color_bits)) (fun cbit => cbit <? color_bits)
                 (fun cbit => cbit + 1)
                 (layer_byte raw x_size y x) 0 st;
  Some (mk_layers (binary st') (conv_byte st' + 1) (data_size st')).

(** Body of the [y] loop: [for ( uint16_t x = 0; x < x_size; x += 8 )]. *)
Definition layer_row (raw : list Z) (color_bits x_size : Z) (y : Z)
    (st : layers) : option layers :=
  for_loop uint16_fuel (fun x => x <? x_size) (fun x => uint16 (x + 8))
           (layer_group raw color_bits x_size y) 0 st.

(** [convert_to_layers raw binary color_bits x_size y_size] returns the
    converted buffer and the value of [data_size].  (The [printf] of the
    number of colour bits goes to the console and is left out.) *)
Definition convert_to_layers (raw bin : list Z) (color_bits x_size y_size : Z)
    : option (list Z * Z) :=
  st ← for_loop uint16_fuel (fun y => y <? y_size) (fun y => uint16 (y + 1))
                (layer_row raw color_bits x_size) 0 (mk_layers bin 0 0);
  Some (binary st, data_size st).

(** *** Reading the planes back (the inverse used to state the round trip) *)

Definition row_bytes (x_size : Z) : Z := (x_size + 7) / 8.

(** Bit of plane [b] at pixel column [x] of row [y]. *)
Definition plane_bit (bin : list Z) (x_size : Z) (b x y : Z) : option bool :=
  byte ← load bin (b * CARD_MEMORY_SIZE + x / 8 + row_bytes x_size * y);
  Some (Z.testbit byte (7 - x mod 8)).

(** Palette index of pixel [(x,y)], reassembled from planes
    [b, b+1, ..., b+n-1]. *)
Fixpoint plane_pixel (n : nat) (bin : list Z) (x_size : Z) (b x y : Z)
    : option Z :=
  match n with
  | O => Some 0
  | Datatypes.S n' =>
      bit ← plane_bit bin x_size b x y;
      hi ← plane_pixel n' bin x_size (b + 1) x y;
      Some (Z.b2z bit + 2 * hi)
  end.

(** The raster read back from the planes, row by row. *)
Definition planes_to_raster (bin : list Z) (color_bits x_size y_size : Z)
    : option (list Z) :=
  mapM (fun i => plane_pixel (Z.to_nat color_bits) bin x_size 0
                   (Z.of_nat i mod x_size) (Z.of_nat i / x_size))
       (seq 0 (Z.to_nat (x_size * y_size))).

(** ** Text and the output stream *)

(** Text is a list of characters; string literals are converted by [str]. *)
Abbreviation text := (list ascii).

Definition str (s : string) : text := list_ascii_of_string s.

Definition nl : text := ["010"%char].

(** Digits of [v] in base 16, least significant first, capitals as for [%X]. *)
Definition hex_digit (d : Z) : ascii :=
  nth (Z.to_nat d) (str "0123456789ABCDEF") "0"%char.

Fixpoint hex_digits (fuel : nat) (v : Z) : text :=
  match fuel with
  | O => []
  | Datatypes.S fuel' =>
      if v =? 0 then [] else hex_digit (v mod 16) :: hex_digits fuel' (v / 16)
  end.

(** [printf] conversion [%p.pX] of an [unsigned int] (at most eight digits):
    at least [prec] digits, padded with zeros on the left. *)
Definition printf_X (prec : nat) (v : Z) : text :=
  let ds := hex_digits 8 v in
  rev (ds ++ repeat "0"%char (prec - length ds)).

(** An output stream: what has been written, and the outcome of the coming
    calls ([true]: that call fails; an exhausted schedule: no more failure). *)
Record FILE := mk_FILE {
  contents : text;
  faults : list bool
}.

(** [fprintf] and [fputs] return a negative value when the call fails. *)
Definition fprintf (f : FILE) (s : text) : Z * FILE :=
  match faults f with
  | true :: fs => (-1, mk_FILE (contents f) fs)
  | false :: fs => (Z.of_nat (length s), mk_FILE (contents f ++ s) fs)
  | [] => (Z.of_nat (length s), mk_FILE (contents f ++ s) [])
  end.

Definition EOF : Z := -1.

Definition fputs (s : text) (f : FILE) : Z * FILE := fprintf f s.

(** ** ihex.c *)

Module ihex.

Definition BYTES_PER_LINE : Z := 32.

Definition ihex_terminate (output_file : FILE) (lines : Z) : bool * FILE :=
  let '(r, f) := fputs (str ":00000001FF" ++ nl) output_file in
  if EOF =? r then (false, f) else (true, f).

(** The [while ( byte_num < data_size )] loop and what follows it; [data] is
    what is left of the buffer, from [data[byte_num]] on. *)
Fixpoint ihex_write_loop (data_size : Z) (data : list Z)
    (byte_num checksum lines address : Z) (output_file : FILE) : Z * FILE :=
  match data with
  | [] =>
      let '(r, f) := fprintf output_file
                       (printf_X 2 (uint8 (Z.lnot checksum + 1)) ++ nl) in
      (if 0 >? r then 0 else lines, f)
  | d :: rest =>
      let new_line : FILE + (Z * Z * FILE) :=
        if byte_num mod BYTES_PER_LINE =? 0 then
          let lines := uint16 (lines + 1) in
          let '(r1, f1) :=
            if byte_num =? 0 then (0, output_file)
            else fprintf output_file
                   (printf_X 2 (uint8 (Z.lnot checksum + 1)) ++ nl) in
          if 0 >? r1 then inl f1
          else
            let bytes_in_line :=
              uint8 (if data_size - byte_num >? BYTES_PER_LINE
                     then BYTES_PER_LINE else data_size - byte_num) in
            let checksum :=
              uint8 (bytes_in_line + Z.land (Z.shiftr address 8) 0xFF
                     + Z.land address 0xFF + 0x00) in
            let '(r2, f2) :=
              fprintf f1 (str ":" ++ printf_X 2 bytes_in_line
                          ++ printf_X 4 address ++ str "00") in
            if 0 >? r2 then inl f2 else inr (checksum, lines, f2)
        else inr (checksum, lines, output_file) in
      match new_line with
      | inl f => (0, f)
      | inr (checksum, lines, f) =>
          let '(r3, f3) := fprintf f (printf_X 2 d) in
          if 0 >? r3 then (0, f3)
          else ihex_write_loop data_size rest (byte_num + 1)
                 (uint8 (checksum + d)) lines (uint16 (address + 1)) f3
      end
  end.

(** [data] holds the [data_size] bytes the C pointer designates. *)
Definition ihex_write (output_file : FILE) (address : Z) (data : list Z)
    : Z * FILE :=
  ihex_write_loop (Z.of_nat (length data)) data 0 0 0 address output_file.

End ihex.

(** ** pap.c *)

Module pap.

Definition BYTES_PER_LINE : Z := 24.

(** The test in the source is [0 > fprintf( ... ) > 0]. *)
Definition pap_terminate (output_file : FILE) (lines : Z) : bool * FILE :=
  let '(r, f) :=
    fprintf output_file
      (str ";00" ++ printf_X 4 lines
       ++ printf_X 4 (Z.land (Z.shiftr lines 8) 0xFF + Z.land lines 0xFF)
       ++ nl) in
  if Z.b2z (0 >? r) >? 0 then (false, f) else (true, f).

Fixpoint pap_write_loop (data_size : Z) (data : list Z)
    (byte_num checksum lines address : Z) (output_file : FILE) : Z * FILE :=
  match data with
  | [] =>
      let '(r, f) := fprintf output_file (printf_X 4 checksum ++ nl) in
      (if 0 >? r then 0 else lines, f)
  | d :: rest =>
      let new_line : FILE + (Z * Z * FILE) :=
        if byte_num mod BYTES_PER_LINE =? 0 then
          let lines := uint16 (lines + 1) in
          let '(r1, f1) :=
            if byte_num =? 0 then (0, output_file)
            else fprintf output_file (printf_X 4 checksum ++ nl) in
          if 0 >? r1 then inl f1
          else
            let bytes_in_line :=
              uint8 (if data_size - byte_num >? BYTES_PER_LINE
                     then BYTES_PER_LINE else data_size - byte_num) in
            let checksum :=
              uint16 (bytes_in_line + Z.land (Z.shiftr address 8) 0xFF
                      + Z.land address 0xFF) in
            let '(r2, f2) :=
              fprintf f1 (str ";" ++ printf_X 2 bytes_in_line
                          ++ printf_X 4 address) in
            if 0 >? r2 then inl f2 else inr (checksum, lines, f2)
        else inr (checksum, lines, output_file) in
      match new_line with
      | inl f => (0, f)
      | inr (checksum, lines, f) =>
          let '(r3, f3) := fprintf f (printf_X 2 d) in
          if 0 >? r3 then (0, f3)
          else pap_write_loop data_size rest (byte_num + 1)
                 (uint16 (checksum + d)) lines (uint16 (address + 1)) f3
      end
  end.

Definition pap_write (output_file : FILE) (address : Z) (data : list Z)
    : Z * FILE :=
  pap_write_loop (Z.of_nat (length data)) data 0 0 0 address output_file.

End pap.

(** ** kimg.c: output_hex *)

(** A loop whose body may [return]: the body either goes on with a new state
    or leaves the function with a result. *)
Inductive flow (S R : Type) : Type :=
  | Continue (s : S)
  | Return (r : R).

Arguments Continue {S R} s.
Arguments Return {S R} r.

Fixpoint for_return {S R : Type} (fuel : nat) (cond : Z -> bool)
    (next : Z -> Z) (body : Z -> S -> option (flow S R)) (i : Z) (s : S)
    : option (flow S R) :=
  match fuel with
  | O => None
  | Datatypes.S fuel' =>
      if cond i
      then match body i s with
           | Some (Continue s') => for_return fuel' cond next body (next i) s'
           | Some (Return r) => Some (Return r)
           | None => None
           end
      else Some (Continue s)
  end.

(** The [size] bytes at [data + off]; no defined value unless they all lie
    inside the array. *)
Definition slice (data : list Z) (off size : Z) : option (list Z) :=
  if bool_decide (0 <= off /\ 0 <= size /\ off + size <= Z.of_nat (length data))
  then Some (take (Z.to_nat size) (drop (Z.to_nat off) data))
  else None.

Section output_hex.

(** The stream type is left open: [output_hex] only hands the stream to the
    two function pointers it is given. *)
Context {F : Type}.
Variable write_fn : F -> Z -> list Z -> Z * F.
Variable terminate_fn : F -> Z -> bool * F.

(** Body of the [linenum] loop (row by row); the state is the stream and the
    running [lines], a [return false] carries the stream along. *)
Definition output_hex_row (data : list Z) (base_address cbit_offset x_size : Z)
    (linenum : Z) (st : F * Z) : option (flow (F * Z) (bool * F)) :=
  let '(output_file, lines) := st in
  let line_offset := uint16 (linenum * MAX_COL_BYTES) in
  bytes ← slice data (cbit_offset + linenum * ((x_size + 7) / 8))
                ((x_size + 7) / 8);
  let '(retlines, output_file) :=
    write_fn output_file (uint16 (base_address + cbit_offset + line_offset))
             bytes in
  if retlines =? 0 then Some (Return (false, output_file))
  else Some (Continue (output_file, uint16 (lines + retlines))).

(** Body of the [cbit] loop. *)
Definition output_hex_plane (data : list Z) (base_address data_size x_size
    y_size : Z) (cbit : Z) (st : F * Z) : option (flow (F * Z) (bool * F)) :=
  let '(output_file, lines) := st in
  let cbit_offset := uint16 (cbit * CARD_MEMORY_SIZE) in
  if x_size >? (MAX_COL_BYTES - 1) * 8 then
    bytes ← slice data cbit_offset data_size;
    let '(retlines, output_file) :=
      write_fn output_file (uint16 (base_address + cbit_offset)) bytes in
    if retlines =? 0 then Some (Return (false, output_file))
    else Some (Continue (output_file, uint16 (lines + retlines)))
  else
    for_return uint16_fuel (fun linenum => linenum <? y_size)
               (fun linenum => uint16 (linenum + 1))
               (output_hex_row data base_address cbit_offset x_size)
               0 (output_file, lines).

(** [output_file] is the result of [fopen] ([None] when it fails); the result
    is the returned flag and the stream as the call leaves it. *)
Definition output_hex (data : list Z) (base_address : Z)
    (output_file : option F) (data_size color_bits x_size y_size : Z)
    : option (bool * option F) :=
  match output_file with
  | None => Some (false, None)
  | Some output_file =>
      r ← for_return (S (Z.to_nat color_bits)) (fun cbit => cbit <? color_bits)
                     (fun cbit => cbit + 1)
                     (output_hex_plane data base_address data_size x_size
                                       y_size)
                     0 (output_file, 0);
      match r with
      | Return (b, f) => Some (b, Some f)
      | Continue (output_file, lines) =>
          let '(result, f) := terminate_fn output_file lines in
          Some (result, Some f)
      end
  end.

End output_hex.

Definition output_ihex :=
  output_hex ihex.ihex_write ihex.ihex_terminate.

Definition output_pap :=
  output_hex pap.pap_write pap.pap_terminate.

(** ** kimg.c: the end of main *)

(** [(int)log2( ncolors )].  For the values a palette can have (1 to 16) the
    double [log2] is exact on the powers of two and well inside the open
    interval between two integers elsewhere, so the conversion to [int]
    yields the integer logarithm. *)
Definition color_bits_of (ncolors : Z) : Z := Z.log2 ncolors.

(** Lines 625 to 629 of main: derive the number of planes, convert, hand the
    combined buffer and the returned [data_size] to the output function. *)
Definition convert_and_output {F : Type}
    (output_fn : list Z -> Z -> option F -> Z -> Z -> Z -> Z ->
                 option (bool * option F))
    (raw_image converted_image : list Z) (ncolors x_size y_size : Z)
    (base_address : Z) (output_file : option F) : option (bool * option F) :=
  let color_bits := color_bits_of ncolors in
  '(converted, data_size) ←
     convert_to_layers raw_image converted_image color_bits x_size y_size;
  output_fn converted base_address output_file data_size color_bits
            x_size y_size.

(** ** Reading text: fgets, isdigit, sscanf, strtoul *)

(** An input stream is the sequence of buffers that the successive calls of
    [fgets] return (each line with its newline); at its end [fgets] returns
    [NULL]. *)
Abbreviation lines_t := (list (list ascii)).

(** Character codes, as the C library sees a [char]. *)
Definition code (c : ascii) : Z := Z.of_N (N_of_ascii c).

(** Space and the control characters from tab to carriage return. *)
Definition isspace (c : ascii) : bool :=
  (code c =? 32) || ((9 <=? code c) && (code c <=? 13)).

(** The value of a decimal digit, [c - '0']. *)
Definition digit_value (c : ascii) : option Z :=
  if (48 <=? code c) && (code c <=? 57) then Some (code c - 48) else None.

Definition isdigit (c : ascii) : bool :=
  match digit_value c with Some _ => true | None => false end.

Definition ULONG_MAX : Z := 2 ^ 64 - 1.
Definition ERANGE : Z := 34.

Fixpoint skip_space (s : text) : text :=
  match s with
  | c :: s' => if isspace c then skip_space s' else s
  | [] => []
  end.

(** The longest run of decimal digits at the head of [s], its value [acc]
    accumulated from the left, and what follows it. *)
Fixpoint digits_value (s : text) (acc : Z) : Z * text :=
  match s with
  | c :: s' =>
      match digit_value c with
      | Some d => digits_value s' (10 * acc + d)
      | None => (acc, s)
      end
  | [] => (acc, [])
  end.

(** [strtoul( s, &end, 10 )] for [s] that starts with a digit: the value
    (clamped to [ULONG_MAX], [errno] then set to [ERANGE]), the value of
    [errno] afterwards, and the rest of the text. *)
Definition strtoul (s : text) (errno : Z) : Z * Z * text :=
  let '(v, rest) := digits_value s 0 in
  if v >? ULONG_MAX then (ULONG_MAX, ERANGE, rest) else (v, errno, rest).

(** Directives of a [scanf] format, as far as the formats of kimg.c go. *)
Inductive directive : Type :=
  | D_space                    (* white space: skips any white space *)
  | D_char (c : ascii)         (* an ordinary character, to be matched *)
  | D_unsigned (bits : Z)      (* %hhu, %hu: stored in [bits] bits *)
  | D_skip_string.             (* %*s *)

Fixpoint parse_format (fmt : text) : list directive :=
  match fmt with
  | "%" :: "h" :: "h" :: "u" :: fmt' => D_unsigned 8 :: parse_format fmt'
  | "%" :: "h" :: "u" :: fmt' => D_unsigned 16 :: parse_format fmt'
  | "%" :: "*" :: "s" :: fmt' => D_skip_string :: parse_format fmt'
  | c :: fmt' =>
      (if isspace c then D_space else D_char c) :: parse_format fmt'
  | [] => []
  end%char.

(** An unsigned decimal conversion: optional sign, at least one digit; the
    value is that of [strtoul], negated in [unsigned long] after a minus
    sign. *)
Definition scan_unsigned (s : text) : option (Z * text) :=
  let '(neg, s1) :=
    match s with
    | "-" :: s' => (true, s')
    | "+" :: s' => (false, s')
    | _ => (false, s)
    end%char in
  match s1 with
  | c :: _ =>
      if isdigit c then
        let '(v, _, rest) := strtoul s1 0 in
        Some (if neg then (- v) mod 2 ^ 64 else v, rest)
      else None
  | [] => None
  end.

(** Result of a call that stops after [vals] were assigned: their number, or
    [EOF] when the input ran out before the first conversion. *)
Definition scanf_stop (at_end : bool) (vals : list Z) : Z * list Z :=
  match vals with
  | [] => if at_end then (EOF, []) else (0, [])
  | _ => (Z.of_nat (length vals), vals)
  end.

(** [%*s] skips a run of characters that are not white space. *)
Fixpoint dropwhile_nonspace (s : text) : text :=
  match s with
  | c :: s' => if isspace c then s else dropwhile_nonspace s'
  | [] => []
  end.

Fixpoint scanf_run (ds : list directive) (s : text) (vals : list Z)
    : Z * list Z :=
  match ds with
  | [] => (Z.of_nat (length vals), vals)
  | D_space :: ds' => scanf_run ds' (skip_space s) vals
  | D_char c :: ds' =>
      match s with
      | a :: s' =>
          if Ascii.eqb a c then scanf_run ds' s' vals
          else scanf_stop false vals
      | [] => scanf_stop true vals
      end
  | D_unsigned bits :: ds' =>
      match skip_space s with
      | [] => scanf_stop true vals
      | s1 =>
          match scan_unsigned s1 with
          | Some (v, rest) => scanf_run ds' rest (vals ++ [v mod 2 ^ bits])
          | None => scanf_stop false vals
          end
      end
  | D_skip_string :: ds' =>
      match skip_space s with
      | [] => scanf_stop true vals
      | s1 => scanf_run ds' (dropwhile_nonspace s1) vals
      end
  end.

(** [sscanf( line, fmt, ... )]: the returned count and the values assigned,
    in the order of the conversions. *)
Definition sscanf (line : text) (fmt : string) : Z * list Z :=
  scanf_run (parse_format (str fmt)) line [].

(** ** kimg.c: read_palette *)

Record color_t := mk_color {
  r : Z;
  g : Z;
  b : Z
}.

(** A palette file: the bytes that the [fread] of [open_palette] gets (the
    first 13 of the file) and the lines that [fgets] returns after them. *)
Record palette_file := mk_palette_file {
  sig_bytes : text;
  palette_lines : lines_t
}.

Definition palette_sig : text := str "GIMP Palette" ++ nl.

(** [strncmp( s1, s2, n ) == 0] on character arrays that hold their
    terminator. *)
Fixpoint strncmp_eq (s1 s2 : text) (n : nat) : bool :=
  match n with
  | O => true
  | Datatypes.S n' =>
      match s1, s2 with
      | c1 :: s1', c2 :: s2' =>
          Ascii.eqb c1 c2 && (Ascii.eqb c1 "000" || strncmp_eq s1' s2' n')
      | _, _ => false
      end
  end.

(** [file] is [None] when [fopen] fails.  [strncmp] compares
    [sizeof( palette_sig )] = 14 characters, the last of which is the
    terminator of [palette_sig]: [buffer] is the caller's buffer as it is
    before the call, of which the character after the 13 read takes part in
    the comparison. *)
Definition open_palette (file : option palette_file) (buffer : text)
    : option lines_t :=
  match file with
  | None => None
  | Some pf =>
      let got := take 13 (sig_bytes pf) in
      let buffer' := got ++ drop (length got) buffer in
      if strncmp_eq buffer' (palette_sig ++ ["000"%char]) 14
      then Some (palette_lines pf)
      else None
  end.

(** What [sscanf] stores through [&palette[ncolors].r], [.g] and [.b]. *)
Definition assign_color (vals : list Z) (c : color_t) : color_t :=
  match vals with
  | [] => c
  | [r'] => mk_color r' (g c) (b c)
  | [r'; g'] => mk_color r' g' (b c)
  | r' :: g' :: b' :: _ => mk_color r' g' b'
  end.

(** The [while] loop over the lines.  (When [ncolors] is [MAX_PALETTE_SIZE]
    the store of [sscanf] lands behind the array of the caller; the function
    returns 0 right after it and reads nothing back, and the embedding leaves
    the palette as it is, as [alter] does out of range.) *)
Fixpoint read_palette_loop (palette_f : lines_t) (palette : list color_t)
    (ncolors : Z) : Z * list color_t :=
  match palette_f with
  | [] => (ncolors, palette)
  | line :: rest =>
      let '(matches, vals) := sscanf line "%hhu %hhu %hhu %*s" in
      let palette := alter (assign_color vals) (Z.to_nat ncolors) palette in
      if matches >? 0 then
        if negb (matches =? 3) then (0, palette)
        else if ncolors =? MAX_PALETTE_SIZE then (0, palette)
        else read_palette_loop rest palette (ncolors + 1)
      else read_palette_loop rest palette ncolors
  end.

Definition read_palette (file : option palette_file) (buffer : text)
    (palette : list color_t) : Z * list color_t :=
  match open_palette file buffer with
  | Some palette_f => read_palette_loop palette_f palette 0
  | None => (0, palette)
  end.

(** ** kimg.c: get_image_dimensions *)

(** [sscanf( line, fmt, size )] with one [%hu]: the value of [*size]
    afterwards. *)
Definition scan_size (line : text) (fmt : string) (size : Z) : Z :=
  match snd (sscanf line fmt) with
  | v :: _ => v
  | [] => size
  end.

Definition x_size_s : string := "static unsigned int width = %hu;".
Definition y_size_s : string := "static unsigned int height = %hu;".

Fixpoint get_image_dimensions_loop (image_file : lines_t) (x_size y_size : Z)
    : bool * Z * Z :=
  match image_file with
  | [] => (false, x_size, y_size)
  | line :: rest =>
      let x_size := scan_size line x_size_s x_size in
      let y_size := scan_size line y_size_s y_size in
      if negb (x_size =? 0) && negb (y_size =? 0)
      then (true, x_size, y_size)
      else get_image_dimensions_loop rest x_size y_size
  end.

(** Returns the flag and the values left in [*x_size] and [*y_size]. *)
Definition get_image_dimensions (image_file : lines_t) : bool * Z * Z :=
  get_image_dimensions_loop image_file 0 0.

(** ** kimg.c: parse_image *)

(** [strstr( line, needle ) != NULL]. *)
Fixpoint is_prefix (needle s : text) : bool :=
  match needle, s with
  | [], _ => true
  | a :: needle', c :: s' => Ascii.eqb a c && is_prefix needle' s'
  | _ :: _, [] => false
  end.

Fixpoint strstr (s needle : text) : bool :=
  is_prefix needle s ||
  match s with
  | _ :: s' => strstr s' needle
  | [] => false
  end.

(** What [parse_image] hands back: the returned value, the bytes it stored
    at [image[0]], [image[1]], ... in this order, and the message written to
    [stderr], if any. *)
Record parsed := mk_parsed {
  returned : Z;
  stored : list Z;
  message : option string
}.

(** The inner [while] loop over one line.  [image_rev] holds the bytes stored
    so far, last first.  A buffer without a newline makes the C loop run over
    the terminator of the string up to the end of the buffer, where it
    reports the bad format: this is the result when the text is exhausted.
    [cmap[color]] has no defined value outside [cmap]. *)
Fixpoint parse_line (fuel : nat) (line : text) (cmap : list Z)
    (image_size errno : Z) (image_rev : list Z)
    : option (flow (Z * Z * list Z) parsed) :=
  match fuel with
  | O => None
  | Datatypes.S fuel' =>
      match line with
      | [] =>
          Some (Return (mk_parsed 0 (reverse image_rev)
                          (Some "Error: Bad image data format"%string)))
      | c :: line' =>
          if Ascii.eqb c "010" then Some (Continue (image_size, errno, image_rev))
          else if negb (isdigit c) then
            parse_line fuel' line' cmap image_size errno image_rev
          else if image_size >? MAX_IMAGE_SIZE then
            Some (Return (mk_parsed 0 (reverse image_rev)
                            (Some "Error: Image is too big."%string)))
          else
            let '(v, errno, rest) := strtoul line errno in
            let color := uint8 v in
            if negb (errno =? 0) then
              Some (Return (mk_parsed 0 (reverse image_rev)
                              (Some "Error: Bad image data format"%string)))
            else
              px ← load cmap color;
              parse_line fuel' rest cmap (image_size + 1) errno
                         (px :: image_rev)
      end
  end.

(** The outer loop over the lines of the file. *)
Fixpoint parse_image_loop (image_file : lines_t) (cmap : list Z)
    (image_size errno : Z) (image_rev : list Z) : option parsed :=
  match image_file with
  | [] =>
      Some (mk_parsed 0 (reverse image_rev)
              (Some "Error: Can't find image data end"%string))
  | line :: rest =>
      if strstr line (str "};") then
        Some (mk_parsed image_size (reverse image_rev) None)
      else
        match parse_line (S (length line)) line cmap image_size errno
                image_rev with
        | None => None
        | Some (Return p) => Some p
        | Some (Continue (image_size, errno, image_rev)) =>
            parse_image_loop rest cmap image_size errno image_rev
        end
  end.

(** [errno] is the value the global has when the function is entered. *)
Definition parse_image (image_file : lines_t) (cmap : list Z) (errno : Z)
    : option parsed :=
  parse_image_loop image_file cmap 0 errno [].

(** ** Vocabulary of the statements *)

(** The raster value at an index (0 outside the raster). *)
Definition raw_at (raw : list Z) (i : Z) : Z := default 0 (load raw i).

(** [v] is the byte of plane [cbit] for the group of eight pixels that starts
    at column [x] of row [y]: bit [7 - p] is bit [cbit] of pixel [x + p], and
    0 when that pixel is beyond the row. *)
Definition is_plane_byte (raw : list Z) (x_size y x cbit : Z) (v : Z) : Prop :=
  0 <= v < 256 /\
  forall p, 0 <= p < 8 ->
    Z.testbit v (7 - p) =
    if x + p <? x_size
    then Z.testbit (raw_at raw (y * x_size + x + p)) cbit
    else false.

(** The first [m] bytes of each of the [color_bits] plane slots are the plane
    bytes of the raster, rows of [row_bytes x_size] bytes each. *)
Definition planes_ok (raw : list Z) (color_bits x_size : Z) (m : Z)
    (bin : list Z) : Prop :=
  forall j cbit, 0 <= j < m -> 0 <= cbit < color_bits ->
    exists v, load bin (j + CARD_MEMORY_SIZE * cbit) = Some v /\
      is_plane_byte raw x_size (j / row_bytes x_size)
                    (8 * (j mod row_bytes x_size)) cbit v.

(** ** Vocabulary of the statements: records *)

Definition hi_byte (address : Z) : Z := address / 256 mod 256.
Definition lo_byte (address : Z) : Z := address mod 256.
Definition sum_bytes (bytes : list Z) : Z := foldr Z.add 0 bytes.

(** Number of records for [n] bytes, [per_line] bytes to the record. *)
Definition record_count (per_line n : Z) : Z := (n + per_line - 1) / per_line.

(** The bytes of record [k] of a buffer. *)
Definition chunk (per_line : Z) (data : list Z) (k : nat) : list Z :=
  take (Z.to_nat per_line) (drop (k * Z.to_nat per_line) data).

(** The records of a buffer written from [address] on, each rendered from its
    start address and its bytes. *)
Definition records (render : Z -> list Z -> text) (per_line : Z) (address : Z)
    (data : list Z) : list text :=
  map (fun k => render (uint16 (address + Z.of_nat k * per_line))
                       (chunk per_line data k))
      (seq 0 (Z.to_nat (record_count per_line (Z.of_nat (length data))))).

Definition ihex_checksum (address : Z) (bytes : list Z) : Z :=
  (- (Z.of_nat (length bytes) + hi_byte address + lo_byte address
      + sum_bytes bytes)) mod 256.

Definition ihex_record (address : Z) (bytes : list Z) : text :=
  str ":" ++ printf_X 2 (Z.of_nat (length bytes)) ++ printf_X 4 address
  ++ str "00" ++ concat (map (printf_X 2) bytes)
  ++ printf_X 2 (ihex_checksum address bytes) ++ nl.

Definition pap_checksum (address : Z) (bytes : list Z) : Z :=
  (Z.of_nat (length bytes) + hi_byte address + lo_byte address
   + sum_bytes bytes) mod 65536.

Definition pap_record (address : Z) (bytes : list Z) : text :=
  str ";" ++ printf_X 2 (Z.of_nat (length bytes)) ++ printf_X 4 address
  ++ concat (map (printf_X 2) bytes)
  ++ printf_X 4 (pap_checksum address bytes) ++ nl.

(** A stream on which no call is going to fail, and the stream after a
    successful call that writes [s]. *)
Definition no_fault (f : FILE) : Prop := Forall (fun b => b = false) (faults f).

Definition written (f : FILE) (s : text) : FILE :=
  mk_FILE (contents f ++ s) (tail (faults f)).

(** [f'] holds what [f] holds and possibly more after it. *)
Definition extends (f f' : FILE) : Prop :=
  exists s, contents f' = contents f ++ s.

(** The loop that [ihex_write] and [pap_write] share, with what differs
    between them as parameters: the bytes per line, the modulus of the
    checksum variable, the mark that starts a record, what follows the
    address, and how a checksum is printed. *)
Section record_writer.

Variable per_line : Z.
Variable modulus : Z.
Variable mark : text.
Variable kind : text.
Variable show : Z -> text.

Fixpoint write_loop (data_size : Z) (data : list Z)
    (byte_num checksum lines address : Z) (output_file : FILE) : Z * FILE :=
  match data with
  | [] =>
      let '(r, f) := fprintf output_file (show checksum ++ nl) in
      (if 0 >? r then 0 else lines, f)
  | d :: rest =>
      let new_line : FILE + (Z * Z * FILE) :=
        if byte_num mod per_line =? 0 then
          let lines := uint16 (lines + 1) in
          let '(r1, f1) :=
            if byte_num =? 0 then (0, output_file)
            else fprintf output_file (show checksum ++ nl) in
          if 0 >? r1 then inl f1
          else
            let bytes_in_line :=
              uint8 (if data_size - byte_num >? per_line
                     then per_line else data_size - byte_num) in
            let checksum :=
              (bytes_in_line + Z.land (Z.shiftr address 8) 0xFF
               + Z.land address 0xFF) mod modulus in
            let '(r2, f2) :=
              fprintf f1 (mark ++ printf_X 2 bytes_in_line
                          ++ printf_X 4 address ++ kind) in
            if 0 >? r2 then inl f2 else inr (checksum, lines, f2)
        else inr (checksum, lines, output_file) in
      match new_line with
      | inl f => (0, f)
      | inr (checksum, lines, f) =>
          let '(r3, f3) := fprintf f (printf_X 2 d) in
          if 0 >? r3 then (0, f3)
          else write_loop data_size rest (byte_num + 1)
                 ((checksum + d) mod modulus) lines (uint16 (address + 1)) f3
      end
  end.

(** A record as the shared loop renders it. *)
Definition loop_record (address : Z) (bytes : list Z) : text :=
  mark ++ printf_X 2 (Z.of_nat (length bytes)) ++ printf_X 4 address ++ kind
  ++ concat (map (printf_X 2) bytes)
  ++ show ((Z.of_nat (length bytes) + hi_byte address + lo_byte address
            + sum_bytes bytes) mod modulus)
  ++ nl.

End record_writer.

(** How [ihex_write] prints the checksum it holds: [(uint8_t)(~checksum + 1)]
    as two digits. *)
Definition ihex_show (checksum : Z) : text :=
  printf_X 2 (uint8 (Z.lnot checksum + 1)).

(** ** Vocabulary of the statements: the calls of output_hex *)

(** A write that [output_hex] asks for: the start address, and the offset
    and the number of the bytes in the combined buffer. *)
Record write_call := mk_call {
  call_address : Z;
  call_offset : Z;
  call_size : Z
}.

(** The writes for plane [cbit]: the whole of [data_size] bytes at once when
    the image is wider than [(MAX_COL_BYTES - 1) * 8] pixels, and else one
    write per row. *)
Definition plane_calls (base_address data_size x_size y_size : Z) (cbit : Z)
    : list write_call :=
  if x_size >? (MAX_COL_BYTES - 1) * 8 then
    [mk_call (uint16 (base_address + cbit * CARD_MEMORY_SIZE))
             (cbit * CARD_MEMORY_SIZE) data_size]
  else
    map (fun linenum : nat =>
           mk_call (uint16 (base_address + cbit * CARD_MEMORY_SIZE
                            + Z.of_nat linenum * MAX_COL_BYTES))
                   (cbit * CARD_MEMORY_SIZE
                    + Z.of_nat linenum * row_bytes x_size)
                   (row_bytes x_size))
        (seq 0 (Z.to_nat y_size)).

Definition hex_calls (base_address data_size color_bits x_size y_size : Z)
    : list write_call :=
  flat_map (fun cbit : nat =>
              plane_calls base_address data_size x_size y_size (Z.of_nat cbit))
           (seq 0 (Z.to_nat color_bits)).

(** Making a list of writes in turn, with the running [lines]; the first
    write that returns 0 ends it. *)
Fixpoint run_writes {F : Type} (write_fn : F -> Z -> list Z -> Z * F)
    (data : list Z) (calls : list write_call) (st : F * Z)
    : option (flow (F * Z) (bool * F)) :=
  match calls with
  | [] => Some (Continue st)
  | c :: calls' =>
      bytes ← slice data (call_offset c) (call_size c);
      let '(retlines, out) := write_fn (fst st) (call_address c) bytes in
      if retlines =? 0 then Some (Return (false, out))
      else run_writes write_fn data calls' (out, uint16 (snd st + retlines))
  end.

(** The bytes that a write is given, and the text and the number of the
    records that a list of writes makes on a stream that does not fail. *)
Definition call_bytes (data : list Z) (c : write_call) : list Z :=
  default [] (slice data (call_offset c) (call_size c)).

Definition calls_text (render : Z -> list Z -> text) (per_line : Z)
    (data : list Z) (calls : list write_call) : text :=
  concat (map (fun c => concat (records render per_line (call_address c)
                                        (call_bytes data c)))
              calls).

Definition calls_lines (per_line : Z) (data : list Z)
    (calls : list write_call) : Z :=
  foldr (fun c n => record_count per_line
                      (Z.of_nat (length (call_bytes data c))) + n)
        0 calls.

(** A write that [run_writes] can make and that does not return 0. *)
Definition call_ok (per_line : Z) (data : list Z) (c : write_call) : Prop :=
  0 <= call_address c < 65536 /\
  slice data (call_offset c) (call_size c) <> None /\
  0 < record_count per_line (Z.of_nat (length (call_bytes data c))) < 65536.

(** A writer that only records the calls made to it, as pairs of the address
    and the bytes; each call counts for one line. *)
Definition trace_write (log : list (Z * list Z)) (address : Z)
    (bytes : list Z) : Z * list (Z * list Z) :=
  (1, log ++ [(address, bytes)]).

Definition trace_terminate (log : list (Z * list Z)) (lines : Z)
    : bool * list (Z * list Z) :=
  (true, log).

(** The iterations of a loop with [return], over a list of counter values. *)
Fixpoint steps {S R : Type} (body : Z -> S -> option (flow S R))
    (l : list Z) (s : S) : option (flow S R) :=
  match l with
  | [] => Some (Continue s)
  | i :: l' =>
      match body i s with
      | Some (Continue s') => steps body l' s'
      | r => r
      end
  end.

(** ** Vocabulary of the statements: palette lines *)

(** Number of tokens that the format of [read_palette] matches on a line
    ([EOF], that is -1, on a line that is empty or blank). *)
Definition matched (line : text) : Z :=
  fst (sscanf line "%hhu %hhu %hhu %*s").

(** The colour of a line that matches three tokens. *)
Definition line_color (line : text) : color_t :=
  assign_color (snd (sscanf line "%hhu %hhu %hhu %*s")) (mk_color 0 0 0).

(** The lines that match three tokens, in the order of the file. *)
Definition color_lines (palette_f : lines_t) : lines_t :=
  filter (fun line => matched line = 3) palette_f.

(** The lines that match at least one token. *)
Definition token_lines (palette_f : lines_t) : lines_t :=
  filter (fun line => 0 < matched line) palette_f.

(** ** Vocabulary of the statements: the image header *)

(** The value that a line declares for the width (the height), if the line
    matches the format of the declaration. *)
Definition declared (fmt : string) (line : text) : option Z :=
  match snd (sscanf line fmt) with
  | v :: _ => Some v
  | [] => None
  end.

Definition declared_width : text -> option Z := declared x_size_s.
Definition declared_height : text -> option Z := declared y_size_s.

(** No line declares a value other than 0. *)
Definition none_or_zero (decl : text -> option Z) (image_file : lines_t)
    : Prop :=
  forall line, In line image_file -> decl line = None \/ decl line = Some 0.

(** Number of decimal tokens (runs of digits) of a text. *)
Fixpoint count_tokens (s : text) (in_token : bool) : Z :=
  match s with
  | [] => 0
  | c :: s' =>
      if isdigit c
      then (if in_token then 0 else 1) + count_tokens s' true
      else count_tokens s' false
  end.

(** Number of pixel tokens of a data block: those of the lines before the
    first line that holds the closing sequence. *)
Fixpoint pixel_tokens (image_file : lines_t) : Z :=
  match image_file with
  | [] => 0
  | line :: rest =>
      if strstr line (str "};") then 0
      else count_tokens line false + pixel_tokens rest
  end.

(** The count that [sscanf] returns goes with the values it assigned: none
    and a count of 0 or [EOF], or some and their number. *)
Definition count_ok (res : Z * list Z) : Prop :=
  (snd res = [] /\ fst res <= 0) \/
  (snd res <> [] /\ fst res = Z.of_nat (length (snd res))).

(** The values that [sscanf] assigns are those of conversions, reduced to
    the width of their type. *)
Definition widths_ok (ds : list directive) : Prop :=
  Forall (fun d => match d with D_unsigned bits => 0 <= bits | _ => True end)
         ds.

(** A data block of 64001 pixel tokens: a thousand lines of 64 tokens, one
    more token, the closing line. *)
Definition block_64001 : lines_t :=
  replicate 1000 (concat (replicate 64 (str "0,")) ++ nl)
  ++ [str "0" ++ nl; str "};" ++ nl].

(** The same with one more token. *)
Definition block_64002 : lines_t :=
  replicate 1000 (concat (replicate 64 (str "0,")) ++ nl)
  ++ [str "0,0" ++ nl; str "};" ++ nl].

(** ** kimg.c: translate_cmap *)

(** The inner loop [for ( c = 0; c < ncolors; ++c )] that looks the colour up
    in the palette: the value of [c] when the loop is left, by [break] at the
    first entry that has the three components, or at [ncolors]. *)
Fixpoint find_color (fuel : nat) (palette : list color_t)
    (ncolors r' g' b' : Z) (c : Z) : option Z :=
  match fuel with
  | O => None
  | Datatypes.S fuel' =>
      if c <? ncolors then
        p ← palette !! Z.to_nat c;
        if (r p =? r') && (g p =? g') && (b p =? b') then Some c
        else find_color fuel' palette ncolors r' g' b' (c + 1)
      else Some c
  end.

(** The [while] loop over the lines.  The result is the returned count, the
    array [cmap] as the call leaves it, and the lines that are left to read
    in the stream. *)
Fixpoint translate_cmap_loop (image_file : lines_t) (palette : list color_t)
    (cmap : list Z) (ncolors image_colors start : Z)
    : option (Z * list Z * lines_t) :=
  match image_file with
  | [] => Some (image_colors, cmap, [])
  | line :: rest =>
      let '(matches, vals) := sscanf line " { %hhu , %hhu , %hhu } ," in
      if matches >? 0 then
        if negb (matches =? 3) then Some (0, cmap, rest)
        else
          match vals with
          | r' :: g' :: b' :: _ =>
              let start := start + 1 in
              c ← find_color (S (Z.to_nat ncolors)) palette ncolors r' g' b' 0;
              if c =? ncolors then Some (0, cmap, rest)
              else
                cmap ← store cmap image_colors (uint8 c);
                let image_colors := image_colors + 1 in
                if image_colors =? ncolors then Some (image_colors, cmap, rest)
                else translate_cmap_loop rest palette cmap ncolors
                       image_colors start
          | _ => None
          end
      else
        if negb (start =? 0) then Some (0, cmap, rest)
        else translate_cmap_loop rest palette cmap ncolors image_colors start
  end.

Definition translate_cmap (image_file : lines_t) (palette : list color_t)
    (cmap : list Z) (ncolors : Z) : option (Z * list Z * lines_t) :=
  translate_cmap_loop image_file palette cmap ncolors 0 0.

(** ** kimg.c: search_for_header_data *)

Definition NUL : ascii := "000"%char.

Definition header_s : text :=
  str "static unsigned char header_data[] = {" ++ nl.

(** [strncmp] is given [sizeof( header_s )] characters to compare, the
    terminator of [header_s] among them; [line] is followed by its own
    terminator in the buffer.  The result is the flag and the lines that are
    left to read. *)
Fixpoint search_for_header_data (image_file : lines_t) : bool * lines_t :=
  match image_file with
  | [] => (false, [])
  | line :: rest =>
      if strncmp_eq (line ++ [NUL]) (header_s ++ [NUL])
                    (S (length header_s))
      then (true, rest)
      else search_for_header_data rest
  end.

(** ** kimg.c: output_asm *)

Definition tab : text := ["009"%char].

(** Digits of [v] in base [base], least significant first, taken from
    [alphabet]. *)
Fixpoint digits_of (alphabet : text) (base : Z) (fuel : nat) (v : Z) : text :=
  match fuel with
  | O => []
  | Datatypes.S fuel' =>
      if v =? 0 then []
      else nth (Z.to_nat (v mod base)) alphabet "0"%char
           :: digits_of alphabet base fuel' (v / base)
  end.

(** [printf] conversion [%p.px] of an [unsigned int]: small letters. *)
Definition printf_x (prec : nat) (v : Z) : text :=
  let ds := digits_of (str "0123456789abcdef") 16 8 v in
  rev (ds ++ repeat "0"%char (prec - length ds)).

(** [printf] conversion [%u] of an [unsigned int]: at least one digit. *)
Definition printf_u (v : Z) : text :=
  let ds := digits_of (str "0123456789") 10 10 v in
  rev (ds ++ repeat "0"%char (1 - length ds)).

Module asm.

Definition BYTES_PER_LINE : Z := 16.

End asm.

Definition card_name : list text :=
  [str "MASTER"; str "SLAVE_1"; str "SLAVE_2"; str "SLAVE_3"].

(** Body of the [bytenum] loop.  The values that [fprintf] returns are not
    looked at. *)
Definition output_asm_byte (data : list Z) (cbit_offset : Z) (bytenum : Z)
    (output_file : FILE) : option FILE :=
  databyte ← load data (cbit_offset + bytenum);
  if Z.rem bytenum asm.BYTES_PER_LINE =? 0 then
    Some (snd (fprintf output_file
                 (nl ++ tab ++ tab ++ str ".BYTE" ++ tab ++ str "$"
                  ++ printf_x 2 databyte)))
  else
    Some (snd (fprintf output_file (str ", $" ++ printf_x 2 databyte))).

(** Body of the [cbit] loop. *)
Definition output_asm_plane (data : list Z) (data_size color_bits : Z)
    (cbit : Z) (output_file : FILE) : option FILE :=
  let cbit_offset := uint16 (cbit * CARD_MEMORY_SIZE) in
  name ← card_name !! Z.to_nat cbit;
  let output_file :=
    snd (fprintf output_file (nl ++ nl ++ name ++ str ":")) in
  for_loop (S (Z.to_nat (Z.quot data_size color_bits)))
           (fun bytenum => bytenum <? Z.quot data_size color_bits)
           (fun bytenum => bytenum + 1)
           (output_asm_byte data cbit_offset) 0 output_file.

(** [output_file] is the result of [fopen] ([None] when it fails). *)
Definition output_asm (data : list Z) (output_file : option FILE)
    (data_size color_bits x_size y_size : Z) : option (bool * option FILE) :=
  match output_file with
  | None => Some (false, None)
  | Some output_file =>
      let output_file :=
        snd (fprintf output_file
               (str "X_SIZE" ++ tab ++ str "= " ++ printf_u x_size ++ nl)) in
      let output_file :=
        snd (fprintf output_file
               (str "Y_SIZE" ++ tab ++ str "= " ++ printf_u y_size ++ nl)) in
      f ← for_loop (S (Z.to_nat color_bits)) (fun cbit => cbit <? color_bits)
                   (fun cbit => cbit + 1)
                   (output_asm_plane data data_size color_bits)
                   0 output_file;
      Some (true, Some f)
  end.

(** ** kimg.c: get_options *)

(** The functions that the table [formats] points to. *)
Inductive output_fn_t : Type :=
  | fn_output_pap
  | fn_output_ihex
  | fn_output_asm.

Record formats_t := mk_formats {
  format_string : text;
  format_des : text;
  output_fn : output_fn_t
}.

(** The table, up to the entry that ends it. *)
Definition formats : list formats_t :=
  [ mk_formats (str "pap") (str "MOS Papertape (default)") fn_output_pap;
    mk_formats (str "ihex") (str "Intel HEX") fn_output_ihex;
    mk_formats (str "asm") (str "CA65 assembly code") fn_output_asm ].

(** [format] is the index of the entry of [formats] that the pointer
    designates; a file name is [None] when the pointer is [NULL]. *)
Record options_t := mk_options {
  base_address : Z;
  input_filename : option text;
  output_filename : option text;
  palette_filename : option text;
  format : nat
}.

(** [strcmp( s1, s2 ) == 0]. *)
Fixpoint strcmp_eq (s1 s2 : text) : bool :=
  match s1, s2 with
  | [], [] => true
  | c1 :: s1', c2 :: s2' => Ascii.eqb c1 c2 && strcmp_eq s1' s2'
  | _, _ => false
  end.

(** The value of a digit in base 16. *)
Definition xdigit_value (c : ascii) : option Z :=
  if (48 <=? code c) && (code c <=? 57) then Some (code c - 48)
  else if (65 <=? code c) && (code c <=? 70) then Some (code c - 55)
  else if (97 <=? code c) && (code c <=? 102) then Some (code c - 87)
  else None.

Fixpoint xdigits_value (s : text) (acc : Z) : Z :=
  match s with
  | c :: s' =>
      match xdigit_value c with
      | Some d => xdigits_value s' (16 * acc + d)
      | None => acc
      end
  | [] => acc
  end.

(** [strtoul( s, NULL, 16 )]: white space, an optional sign, an optional
    [0x] or [0X] in front of a digit, the digits.  The result is the value
    and [errno] afterwards: a value that does not fit is [ULONG_MAX] with
    [errno] set to [ERANGE]; a minus sign negates in [unsigned long]; text
    with no digit gives 0. *)
Definition strtoul_16 (s : text) (errno : Z) : Z * Z :=
  let s0 := skip_space s in
  let '(neg, s1) :=
    match s0 with
    | "-" :: s' => (true, s')
    | "+" :: s' => (false, s')
    | _ => (false, s0)
    end%char in
  let s2 :=
    match s1 with
    | "0" :: x :: d :: s' =>
        if (Ascii.eqb x "x" || Ascii.eqb x "X")
           && match xdigit_value d with Some _ => true | None => false end
        then d :: s' else s1
    | _ => s1
    end%char in
  let v := xdigits_value s2 0 in
  if v >? ULONG_MAX then (ULONG_MAX, ERANGE)
  else (if neg then (- v) mod 2 ^ 64 else v, errno).

(** The search of the [-f] case: the index at which the loop over [formats]
    stops, [None] when that is the entry that ends the table. *)
Fixpoint find_format (table : list formats_t) (optarg : text) (f : nat)
    : option nat :=
  match table with
  | [] => None
  | entry :: table' =>
      if strcmp_eq (format_string entry) optarg then Some f
      else find_format table' optarg (Datatypes.S f)
  end.

(** The [while] loop over the values that the calls of [getopt] return, each
    with the [optarg] that goes with it, until [getopt] returns -1.  [errno]
    is the value of the global when the function is entered. *)
Fixpoint get_options_loop (opts : list (ascii * text)) (errno : Z)
    (options : options_t) : bool * options_t :=
  match opts with
  | [] =>
      match input_filename options with
      | None => (false, options)
      | Some _ => (true, options)
      end
  | (c, optarg) :: opts' =>
      if Ascii.eqb c "i" then
        get_options_loop opts' errno
          (mk_options (base_address options) (Some optarg)
                      (output_filename options) (palette_filename options)
                      (format options))
      else if Ascii.eqb c "o" then
        get_options_loop opts' errno
          (mk_options (base_address options) (input_filename options)
                      (Some optarg) (palette_filename options)
                      (format options))
      else if Ascii.eqb c "p" then
        get_options_loop opts' errno
          (mk_options (base_address options) (input_filename options)
                      (output_filename options) (Some optarg)
                      (format options))
      else if Ascii.eqb c "a" then
        let '(v, errno) := strtoul_16 optarg errno in
        let options :=
          mk_options (uint16 v) (input_filename options)
                     (output_filename options) (palette_filename options)
                     (format options) in
        if negb (errno =? 0) then (false, options)
        else if (base_address options <? MIN_BASE_ADDRESS)
                || (base_address options >? MAX_BASE_ADDRESS)
                || negb (base_address options mod CARD_MEMORY_SIZE =? 0)
        then (false, options)
        else get_options_loop opts' errno options
      else if Ascii.eqb c "f" then
        match find_format formats optarg 0 with
        | Some f =>
            get_options_loop opts' errno
              (mk_options (base_address options) (input_filename options)
                          (output_filename options) (palette_filename options)
                          f)
        | None => (false, options)
        end
      else (false, options)
  end.

Definition DEFAULT_BASE_ADDRESS : Z := MIN_BASE_ADDRESS.

Definition get_options (opts : list (ascii * text)) (errno : Z)
    : bool * options_t :=
  get_options_loop opts errno
    (mk_options DEFAULT_BASE_ADDRESS None None None 0).

(** ** kimg.c: main, reading the image *)

(** The lines that are left to read in the stream when
    [get_image_dimensions] returns: those behind the line at which both
    sizes are set. *)
Fixpoint get_image_dimensions_rest (image_file : lines_t) (x_size y_size : Z)
    : lines_t :=
  match image_file with
  | [] => []
  | line :: rest =>
      let x_size := scan_size line x_size_s x_size in
      let y_size := scan_size line y_size_s y_size in
      if negb (x_size =? 0) && negb (y_size =? 0)
      then rest
      else get_image_dimensions_rest rest x_size y_size
  end.

(** The calls of [exit( EXIT_FAILURE )] between lines 584 and 623. *)
Inductive read_failure : Type :=
  | No_dimensions       (* Can't get image dimensions *)
  | Too_large           (* Error: Max. image size is ... *)
  | Palette_mismatch    (* Error: Palette does not match *)
  | No_image_data       (* Can't find image data *)
  | Parse_failed        (* parse_image returned 0 *)
  | Wrong_size.         (* Error: Expected image size is ... *)

(** Lines 584 to 623 of main: the four readers in turn on the one stream,
    each from where the one before it stopped, and the checks between them.
    The result is the failure, or the sizes and the array [raw_image] as
    [parse_image] has left it; there is no defined result when
    [parse_image] stores behind the end of [raw_image]. *)
Definition read_image (image_file : lines_t) (palette : list color_t)
    (ncolors : Z) (color_translation raw_image : list Z) (errno : Z)
    : option (read_failure + Z * Z * list Z) :=
  let '(found, x_size, y_size) := get_image_dimensions image_file in
  if negb found then Some (inl No_dimensions)
  else if (x_size >? MAX_COL_BYTES * 8) || (y_size >? MAX_ROWS)
  then Some (inl Too_large)
  else
    let image_file := get_image_dimensions_rest image_file 0 0 in
    '(image_colors, cmap, image_file) ←
      translate_cmap image_file palette color_translation ncolors;
    if negb (ncolors =? image_colors) then Some (inl Palette_mismatch)
    else
      let '(found, image_file) := search_for_header_data image_file in
      if negb found then Some (inl No_image_data)
      else
        p ← parse_image image_file cmap errno;
        if bool_decide (length (stored p) <= length raw_image)%nat then
          let raw_image := stored p ++ drop (length (stored p)) raw_image in
          let image_size := returned p in
          if image_size =? 0 then Some (inl Parse_failed)
          else if negb (image_size =? x_size * y_size)
          then Some (inl Wrong_size)
          else Some (inr (x_size, y_size, raw_image))
        else None.

(** ** kimg.c: main, the name of the output file *)

(** Strings in character arrays: the characters in front of the first
    terminator. *)
Fixpoint c_string (buf : text) : option text :=
  match buf with
  | [] => None
  | c :: buf' =>
      if Ascii.eqb c NUL then Some []
      else s ← c_string buf'; Some (c :: s)
  end.

(** Writing the characters [s] at index [i] of an array. *)
Definition store_text (buf : text) (i : nat) (s : text) : option text :=
  if bool_decide (i + length s <= length buf)%nat
  then Some (take i buf ++ s ++ drop (i + length s) buf)
  else None.

Definition strcpy (dst : text) (src : text) : option text :=
  store_text dst 0 (src ++ [NUL]).

Definition strcat (dst : text) (src : text) : option text :=
  s ← c_string dst;
  store_text dst (length s) (src ++ [NUL]).

(** [strrchr( s, c )]: the index of the last [c] of the string. *)
Fixpoint last_index (s : text) (c : ascii) (i : nat) (found : option nat)
    : option nat :=
  match s with
  | [] => found
  | a :: s' =>
      last_index s' c (Datatypes.S i) (if Ascii.eqb a c then Some i else found)
  end.

Definition strrchr (buf : text) (c : ascii) : option (option nat) :=
  s ← c_string buf;
  Some (last_index s c 0 None).

(** Lines 544 to 561 of main, after [malloc] has returned the array
    [output_filename] of
    [strlen( input_filename ) + strlen( format_string ) + 2] characters with
    whatever they hold. *)
Definition default_output_filename (input_filename format_string : text)
    (output_filename : text) : option text :=
  name ← strcpy output_filename input_filename;
  dot ← strrchr name "."%char;
  name ←
    match dot with
    | None => strcat name (str ".")
    | Some dot => store_text name (Datatypes.S dot) [NUL]
    end;
  strcat name format_string.

(** ** kimg.c: main *)

Definition EXIT_SUCCESS : Z := 0.
Definition EXIT_FAILURE : Z := 1.

(** What main gets from outside: the values that the calls of [getopt]
    return and [errno] at the start; the array that [malloc] returns for a
    size ([None] for [NULL]); the streams that [fopen] returns for the name
    of a palette file, of an image file and of an output file; [errno] when
    [parse_image] is entered; and what the arrays of main hold before they
    are written. *)
Record environment := mk_environment {
  getopt_results : list (ascii * text);
  errno_at_start : Z;
  malloc : nat -> option text;
  palette_files : text -> option palette_file;
  image_files : text -> option lines_t;
  output_files : text -> option FILE;
  errno_at_parse : Z;
  read_buffer : text;
  raw_image : list Z;
  converted_image : list Z;
  color_translation : list Z
}.

(** The initial value of [color_palette]: black, white, and zeros. *)
Definition default_palette : list color_t :=
  [mk_color 0 0 0; mk_color 255 255 255] ++ replicate 14 (mk_color 0 0 0).

(** The call through [options.format->output_fn]. *)
Definition run_output (fn : output_fn_t)
    : list Z -> Z -> option FILE -> Z -> Z -> Z -> Z ->
      option (bool * option FILE) :=
  match fn with
  | fn_output_pap => output_pap
  | fn_output_ihex => output_ihex
  | fn_output_asm => fun data _ output_file => output_asm data output_file
  end.

(** Lines 542 to 564: the name of the output file, [None] when [malloc]
    fails (main then exits). *)
Definition output_name (e : environment) (options : options_t)
    (format_string : text) : option (option text) :=
  match output_filename options with
  | Some name => Some (Some name)
  | None =>
      input ← input_filename options;
      match malloc e (length input + length format_string + 2) with
      | None => Some None
      | Some block =>
          name ← default_output_filename input format_string block;
          Some (c_string name)
      end
  end.

(** main: the exit status and the output stream as the output function
    leaves it (if it got as far as that).  The inner [None] of the palette
    stage is the [exit] after [read_palette] has returned 0.  What goes to
    the console is left out. *)
Definition main (e : environment) : option (Z * option FILE) :=
  let '(ok, options) := get_options (getopt_results e) (errno_at_start e) in
  if negb ok then Some (EXIT_FAILURE, None)
  else
    entry ← formats !! format options;
    name ← output_name e options (format_string entry);
    match name with
    | None => Some (EXIT_FAILURE, None)
    | Some name =>
        match
          match palette_filename options with
          | Some palette_name =>
              let '(ncolors, color_palette) :=
                read_palette (palette_files e palette_name) (read_buffer e)
                             default_palette in
              if ncolors =? 0 then None else Some (ncolors, color_palette)
          | None => Some (2, default_palette)
          end
        with
        | None => Some (EXIT_FAILURE, None)
        | Some (ncolors, color_palette) =>
            input ← input_filename options;
            match image_files e input with
            | None => Some (EXIT_FAILURE, None)
            | Some image_file =>
                r ← read_image image_file color_palette ncolors
                               (color_translation e) (raw_image e)
                               (errno_at_parse e);
                match r with
                | inl _ => Some (EXIT_FAILURE, None)
                | inr (x_size, y_size, raw) =>
                    out ← convert_and_output (run_output (output_fn entry))
                            raw (converted_image e) ncolors x_size y_size
                            (base_address options) (output_files e name);
                    Some (EXIT_SUCCESS, snd out)
                end
            end
        end
    end.

(** ** Vocabulary of the statements: the colour table of the image *)

(** Number of tokens that the format of [translate_cmap] matches on a line,
    and the colour of a line that matches three. *)
Definition cmap_matched (line : text) : Z :=
  fst (sscanf line " { %hhu , %hhu , %hhu } ,").

Definition cmap_color (line : text) : color_t :=
  assign_color (snd (sscanf line " { %hhu , %hhu , %hhu } ,"))
               (mk_color 0 0 0).

(** [c] is the first of the [ncolors] entries of the palette that holds the
    colour [col]. *)
Definition first_index (palette : list color_t) (ncolors : Z) (col : color_t)
    (c : Z) : Prop :=
  0 <= c < ncolors /\
  palette !! Z.to_nat c = Some col /\
  forall c', 0 <= c' < c -> palette !! Z.to_nat c' <> Some col.

(** The colour lines [cols] have been translated into the entries of [cmap]
    from index [k] on. *)
Definition translated (palette : list color_t) (ncolors : Z) (cols : lines_t)
    (cmap : list Z) (k : Z) : Prop :=
  forall (i : nat) line, cols !! i = Some line ->
    cmap_matched line = 3 /\
    exists c, load cmap (k + Z.of_nat i) = Some c /\
              first_index palette ncolors (cmap_color line) c.

(** ** Vocabulary of the statements: the lines of the image file *)

(** A line that declares neither size. *)
Definition declares_nothing (line : text) : Prop :=
  declared_width line = None /\ declared_height line = None.

(** A colour line of the image whose colour is among the first [ncolors]
    entries of the palette. *)
Definition known_color (palette : list color_t) (ncolors : Z) (line : text)
    : Prop :=
  cmap_matched line = 3 /\
  exists c, first_index palette ncolors (cmap_color line) c.

(** ** Vocabulary of the statements: the command line *)

(** A file name up to and with its last dot, if it has one. *)
Fixpoint cut_extension (s : text) : option text :=
  match s with
  | [] => None
  | c :: s' =>
      match cut_extension s' with
      | Some stem => Some (c :: stem)
      | None => if Ascii.eqb c "." then Some [c] else None
      end
  end.

(** The name that main derives for the output file. *)
Definition derived_name (input format_string : text) : text :=
  default (input ++ str ".") (cut_extension input) ++ format_string.

(** The argument of the last option [c] of a command line, [found] when
    there is none. *)
Fixpoint last_arg (c : ascii) (opts : list (ascii * text))
    (found : option text) : option text :=
  match opts with
  | [] => found
  | (c', optarg) :: opts' =>
      last_arg c opts' (if Ascii.eqb c' c then Some optarg else found)
  end.

(** The base addresses of one to four cards. *)
Definition card_addresses : list Z := [0x2000; 0x4000; 0x6000; 0x8000; 0xA000].

(** An option that [get_options] goes past. *)
Definition option_ok (errno : Z) (o : ascii * text) : Prop :=
  let '(c, optarg) := o in
  (c = "i" \/ c = "o" \/ c = "p" \/ c = "a" \/ c = "f")%char /\
  (c = "a"%char ->
   errno = 0 /\ snd (strtoul_16 optarg 0) = 0 /\
   In (uint16 (fst (strtoul_16 optarg 0))) card_addresses) /\
  (c = "f"%char ->
   exists entry, In entry formats /\ format_string entry = optarg).

(** ** Vocabulary of the statements: the pixel data *)

(** The decimal tokens of a line up to its newline, in order; [cur] is the
    value of the token that is being read. *)
Fixpoint line_tokens (s : text) (cur : option Z) : list Z :=
  match s with
  | [] => match cur with Some v => [v] | None => [] end
  | c :: s' =>
      if Ascii.eqb c "010" then
        match cur with Some v => [v] | None => [] end
      else
        match digit_value c with
        | Some d => line_tokens s' (Some (10 * default 0 cur + d))
        | None =>
            match cur with Some v => [v] | None => [] end
            ++ line_tokens s' None
        end
  end.

Definition block_tokens (lines : lines_t) : list Z :=
  concat (map (fun line => line_tokens line None) lines).

(** The byte stored for a token: the entry of the translation table at the
    token reduced to 8 bits. *)
Definition pixel_of (cmap : list Z) (v : Z) : Z :=
  default 0 (load cmap (uint8 v)).

(** A line of a data block: it does not hold the closing sequence, and it
    ends in a newline. *)
Definition data_line (line : text) : Prop :=
  strstr line (str "};") = false /\ "010"%char ∈ line.

(** ** Vocabulary of the statements: the assembly listing *)

(** What [output_asm] writes for byte [i] of a plane. *)
Definition asm_byte (i : nat) (v : Z) : text :=
  (if Z.of_nat i mod 16 =? 0
   then nl ++ tab ++ tab ++ str ".BYTE" ++ tab ++ str "$"
   else str ", $") ++ printf_x 2 v.

(** The listing of a plane: its label and its bytes. *)
Definition asm_plane (data : list Z) (n : Z) (cbit : nat) : text :=
  nl ++ nl ++ default [] (card_name !! cbit) ++ str ":"
  ++ concat (imap asm_byte
               (take (Z.to_nat n)
                     (drop (Z.to_nat (Z.of_nat cbit * CARD_MEMORY_SIZE))
                           data))).

Definition asm_text (data : list Z) (n color_bits x_size y_size : Z) : text :=
  str "X_SIZE" ++ tab ++ str "= " ++ printf_u x_size ++ nl
  ++ str "Y_SIZE" ++ tab ++ str "= " ++ printf_u y_size ++ nl
  ++ concat (map (asm_plane data n) (seq 0 (Z.to_nat color_bits))).

(** A stream on which no call fails any more. *)
Definition unfailing (f : FILE) : FILE := mk_FILE (contents f) [].

(** ** Vocabulary of the statements: the image file as a whole *)

(** The shape of an image file that main reads: a width line and later a
    height line, the lines before them declaring nothing; lines that match
    no colour token; the [ncolors] colour lines [cols], each of a colour
    that the palette knows; lines up to the header line of the pixel data;
    the lines [data] of the pixel data, of [w * h] tokens below [ncolors];
    a line with the closing sequence. *)
Definition image_shape (palette : list color_t) (ncolors w h : Z)
    (cols data : lines_t) (image_file : lines_t) : Prop :=
  exists pre wline mid hline skipped more closing rest,
    image_file = pre ++ wline :: mid ++ hline
                 :: skipped ++ cols ++ more ++ header_s
                 :: data ++ closing :: rest /\
    Forall declares_nothing pre /\ Forall declares_nothing mid /\
    declared_width wline = Some w /\ declared_height wline = None /\
    declared_width hline = None /\ declared_height hline = Some h /\
    Forall (fun line => cmap_matched line <= 0) skipped /\
    Z.of_nat (length cols) = ncolors /\
    Forall (known_color palette ncolors) cols /\
    Forall (fun line : text => NUL ∉ line) more /\ (header_s ∉ more) /\
    Forall data_line data /\
    strstr closing (str "};") = true /\
    Forall (fun v => 0 <= v < ncolors) (block_tokens data) /\
    Z.of_nat (length (block_tokens data)) = w * h.

(** The pixels of the raster are, in the order of the tokens, the palette
    indices of the colours that the colour lines give for the tokens. *)
Definition raster_of (palette : list color_t) (ncolors : Z)
    (cols data : lines_t) (raw : list Z) : Prop :=
  forall (i : nat) v, block_tokens data !! i = Some v ->
    exists line p,
      cols !! Z.to_nat v = Some line /\
      raw !! i = Some p /\
      first_index palette ncolors (cmap_color line) p.

(** A small image file: three by two pixels in black and white, and its
    colour lines and data lines. *)
Definition small_cols : lines_t :=
  [str " {  0,  0,  0}," ++ nl; str " {255,255,255}," ++ nl].

Definition small_data : lines_t :=
  [str " 0,1,1," ++ nl; str " 1,0,1" ++ nl].

Definition small_image : lines_t :=
  [str "/* GIMP header image file format (INDEXED) */" ++ nl]
  ++ (str "static unsigned int width = 3;" ++ nl)
  :: [nl] ++ (str "static unsigned int height = 2;" ++ nl)
  :: [str "static unsigned char header_data_cmap[256][3] = {" ++ nl]
  ++ small_cols
  ++ [str " {255,255,255}," ++ nl; str " };" ++ nl]
  ++ header_s
  :: small_data
  ++ (str " };" ++ nl) :: [].

(** A run of the program on it: [-i image.h -f asm], every [malloc] and
    every [fopen] but that of a palette succeeding. *)
Definition small_environment : environment :=
  mk_environment
    [("i"%char, str "image.h"); ("f"%char, str "asm")] 0
    (fun n => Some (replicate n "?"%char))
    (fun _ => None)
    (fun name =>
       if strcmp_eq name (str "image.h") then Some small_image else None)
    (fun _ => Some (mk_FILE [] []))
    0 [] (replicate (Z.to_nat 64000) 0) (replicate (Z.to_nat 32768) 0)
    (replicate 16 0).

(** * Verification *)

(** ** Arrays *)

Lemma load_in_range (a : list Z) i :
  0 <= i < Z.of_nat (length a) -> exists v, load a i = Some v.
Proof.
  intros Hi. unfold load. rewrite bool_decide_eq_true_2 by lia.
  destruct (lookup_lt_is_Some_2 a (Z.to_nat i)) as [v Hv]; [lia|].
  exists v. exact Hv.
Qed.

Lemma load_Some_range (a : list Z) i v :
  load a i = Some v -> 0 <= i < Z.of_nat (length a).
Proof.
  unfold load. case_bool_decide; [|discriminate].
  intros Hv. apply lookup_lt_Some in Hv. lia.
Qed.

Lemma store_in_range (a : list Z) i v :
  0 <= i < Z.of_nat (length a) -> store a i v = Some (<[Z.to_nat i := v]> a).
Proof. intros Hi. unfold store. rewrite bool_decide_eq_true_2; auto. Qed.

Lemma store_length (a : list Z) i v a' :
  store a i v = Some a' -> length a' = length a.
Proof.
  unfold store. case_bool_decide; [|discriminate].
  intros [= <-]. apply length_insert.
Qed.

Lemma load_store_eq (a : list Z) i v a' :
  store a i v = Some a' -> load a' i = Some v.
Proof.
  unfold store, load. case_bool_decide as Hi; [|discriminate].
  intros [= <-]. rewrite bool_decide_eq_true_2 by lia.
  apply list_lookup_insert_eq. lia.
Qed.

Lemma load_store_ne (a : list Z) i v a' j :
  store a i v = Some a' -> j <> i -> load a' j = load a j.
Proof.
  unfold store, load. case_bool_decide as Hi; [|discriminate].
  intros [= <-] Hne. case_bool_decide; [|reflexivity].
  apply list_lookup_insert_ne. lia.
Qed.

(** ** The loop rule *)

(** A [for] loop that makes [n] iterations over the counter values
    [idx 0, ..., idx (n-1)] establishes [Inv n] from [Inv 0] when each
    iteration is defined and takes [Inv k] to [Inv (k+1)]. *)
Lemma for_loop_inv {S : Type} (n : nat) :
  forall (Inv : nat -> S -> Prop) (idx : nat -> Z) fuel cond next body s,
  (n < fuel)%nat ->
  (forall k, (k < n)%nat ->
     cond (idx k) = true /\ next (idx k) = idx (Datatypes.S k)) ->
  cond (idx n) = false ->
  Inv O s ->
  (forall k s, (k < n)%nat -> Inv k s ->
     exists s', body (idx k) s = Some s' /\ Inv (Datatypes.S k) s') ->
  exists s', for_loop fuel cond next body (idx O) s = Some s' /\ Inv n s'.
Proof.
  induction n as [|n IH]; intros Inv idx fuel cond next body s Hfuel Hrun
    Hstop H0 Hstep.
  - destruct fuel as [|fuel]; [lia|]. simpl. rewrite Hstop. eauto.
  - destruct fuel as [|fuel]; [lia|]. simpl.
    destruct (Hrun O) as [Hc Hn]; [lia|]. rewrite Hc.
    destruct (Hstep O s) as (s1 & Hb & H1); [lia|exact H0|]. rewrite Hb, Hn.
    apply (IH (fun k => Inv (Datatypes.S k)) (fun k => idx (Datatypes.S k)));
      [lia| |exact Hstop|exact H1|].
    + intros k Hk. apply Hrun. lia.
    + intros k s' Hk Hs'. apply Hstep; [lia|exact Hs'].
Qed.

(** ** Bits of a plane byte *)

Lemma land_1_testbit a n : Z.land (Z.shiftr a n) 1 = Z.b2z (Z.testbit a n).
Proof.
  change 1 with (Z.ones 1) at 1. rewrite Z.land_ones by lia.
  change (2 ^ 1) with 2. rewrite <- Z.bit0_mod.
  rewrite Z.shiftr_spec by lia. reflexivity.
Qed.

Lemma testbit_b2z_shiftl (c : bool) m i :
  0 <= m -> 0 <= i ->
  Z.testbit (Z.shiftl (Z.b2z c) m) i = (i =? m) && c.
Proof.
  intros Hm Hi. destruct c; simpl Z.b2z.
  - rewrite Z.shiftl_1_l, Z.pow2_bits_eqb by lia.
    rewrite Z.eqb_sym. destruct (i =? m); reflexivity.
  - rewrite Z.shiftl_0_l, Z.bits_0. destruct (i =? m); reflexivity.
Qed.

Lemma testbit_uint8 a i : 0 <= i -> Z.testbit (uint8 a) i = (i <? 8) && Z.testbit a i.
Proof.
  intros Hi. unfold uint8. change 256 with (2 ^ 8).
  destruct (Z.ltb_spec i 8).
  - rewrite Z.mod_pow2_bits_low by lia. reflexivity.
  - rewrite Z.mod_pow2_bits_high by lia. reflexivity.
Qed.

Lemma uint8_range a : 0 <= uint8 a < 256.
Proof. unfold uint8. apply Z.mod_pos_bound. lia. Qed.

Lemma raw_at_load raw i : 0 <= i < Z.of_nat (length raw) -> load raw i = Some (raw_at raw i).
Proof.
  intros Hi. destruct (load_in_range raw i Hi) as [v Hv].
  unfold raw_at. rewrite Hv. reflexivity.
Qed.

Lemma or_pixels_spec raw x_size y x cbit conv bin0 :
  0 <= cbit -> 0 <= x < x_size -> 0 <= y ->
  (y + 1) * x_size <= Z.of_nat (length raw) ->
  load bin0 (conv + CARD_MEMORY_SIZE * cbit) = Some 0 ->
  exists bin1,
    for_loop 9 (fun pixel => (pixel <? 8) && (x + pixel <? x_size))
             (fun pixel => pixel + 1)
             (or_pixel raw x_size y x cbit conv) 0 bin0 = Some bin1 /\
    length bin1 = length bin0 /\
    (forall j, j <> conv + CARD_MEMORY_SIZE * cbit -> load bin1 j = load bin0 j) /\
    exists v, load bin1 (conv + CARD_MEMORY_SIZE * cbit) = Some v /\
              is_plane_byte raw x_size y x cbit v.
Proof.
  intros Hcbit Hx Hy Hraw H0.
  set (i0 := conv + CARD_MEMORY_SIZE * cbit) in *.
  set (n := Z.to_nat (Z.min 8 (x_size - x))).
  destruct (for_loop_inv n
    (fun k bin =>
       length bin = length bin0 /\
       (forall j, j <> i0 -> load bin j = load bin0 j) /\
       exists v, load bin i0 = Some v /\ 0 <= v < 256 /\
         forall i, 0 <= i ->
           Z.testbit v i =
           (7 - Z.of_nat k <? i) && (i <=? 7) &&
           Z.testbit (raw_at raw (y * x_size + x + (7 - i))) cbit)
    Z.of_nat 9%nat (fun pixel => (pixel <? 8) && (x + pixel <? x_size))
    (fun pixel => pixel + 1) (or_pixel raw x_size y x cbit conv) bin0)
    as (bin1 & Hrun & Hlen & Hother & v & Hv & Hrange & Hbits).
  - subst n. lia.
  - intros k Hk. subst n. split; [|lia].
    apply andb_true_intro. split; apply Z.ltb_lt; lia.
  - subst n. apply andb_false_iff.
    destruct (Z.le_ge_cases 8 (x_size - x)); [left|right]; apply Z.ltb_ge; lia.
  - split; [reflexivity|]. split; [reflexivity|].
    exists 0. split; [exact H0|]. split; [lia|].
    intros i Hi. rewrite Z.bits_0.
    replace (7 - Z.of_nat 0 <? i) with (7 <? i) by (f_equal; lia).
    destruct (Z.ltb_spec 7 i), (Z.leb_spec i 7); try reflexivity; lia.
  - intros k bin Hk (Hlen & Hother & v & Hv & Hrange & Hbits).
    unfold or_pixel. fold i0.
    rewrite (raw_at_load raw (y * x_size + x + Z.of_nat k)) by (subst n; nia).
    simpl. rewrite Hv. simpl.
    destruct (load_Some_range _ _ _ Hv) as [Hi0a Hi0b].
    rewrite store_in_range by lia.
    eexists. split; [reflexivity|].
    split; [rewrite length_insert; exact Hlen|].
    split.
    { intros j Hj. rewrite <- (Hother j Hj).
      eapply load_store_ne; [apply store_in_range; lia|exact Hj]. }
    eexists. split.
    { eapply load_store_eq. apply store_in_range. lia. }
    split; [apply uint8_range|].
    intros i Hi. rewrite testbit_uint8, Z.lor_spec, Hbits by lia.
    rewrite land_1_testbit, testbit_b2z_shiftl by (subst n; lia).
    destruct (Z.eqb_spec i (7 - Z.of_nat k)) as [->|Hne].
    + replace (7 - (7 - Z.of_nat k)) with (Z.of_nat k) by lia.
      replace (7 - Z.of_nat k <? 7 - Z.of_nat k) with false by (symmetry; apply Z.ltb_ge; lia).
      replace (7 - Z.of_nat (Datatypes.S k) <? 7 - Z.of_nat k) with true by (symmetry; apply Z.ltb_lt; lia).
      replace (7 - Z.of_nat k <=? 7) with true by (symmetry; apply Z.leb_le; lia).
      replace (7 - Z.of_nat k <? 8) with true by (symmetry; apply Z.ltb_lt; lia).
      simpl. reflexivity.
    + simpl. rewrite orb_false_r.
      destruct (Z.ltb_spec i 8), (Z.leb_spec i 7); try lia; simpl;
        rewrite ?andb_false_r; try reflexivity.
      replace (7 - Z.of_nat (Datatypes.S k) <? i) with (7 - Z.of_nat k <? i); [reflexivity|].
      destruct (Z.ltb_spec (7 - Z.of_nat k) i), (Z.ltb_spec (7 - Z.of_nat (Datatypes.S k)) i); try reflexivity; lia.
  - exists bin1. split; [exact Hrun|]. split; [exact Hlen|]. split; [exact Hother|].
    exists v. split; [exact Hv|]. split; [exact Hrange|].
    intros p Hp. rewrite Hbits by lia.
    replace (7 - (7 - p)) with p by lia.
    replace (7 - p <=? 7) with true by (symmetry; apply Z.leb_le; lia).
    subst n.
    destruct (Z.ltb_spec (x + p) x_size), (Z.ltb_spec (7 - Z.of_nat (Z.to_nat (Z.min 8 (x_size - x)))) (7 - p)); try lia; simpl; reflexivity.
Qed.

Lemma layer_byte_spec raw x_size y x cbit st :
  0 <= cbit -> 0 <= x < x_size -> 0 <= y ->
  (y + 1) * x_size <= Z.of_nat (length raw) ->
  0 <= conv_byte st + CARD_MEMORY_SIZE * cbit < Z.of_nat (length (binary st)) ->
  exists bin1,
    layer_byte raw x_size y x cbit st =
      Some (mk_layers bin1 (conv_byte st) (data_size st + 1)) /\
    length bin1 = length (binary st) /\
    (forall j, j <> conv_byte st + CARD_MEMORY_SIZE * cbit ->
       load bin1 j = load (binary st) j) /\
    exists v, load bin1 (conv_byte st + CARD_MEMORY_SIZE * cbit) = Some v /\
              is_plane_byte raw x_size y x cbit v.
Proof.
  intros Hcbit Hx Hy Hraw Hi.
  destruct (store (binary st) (conv_byte st + CARD_MEMORY_SIZE * cbit) 0)
    as [bin0|] eqn:Hst; [|rewrite store_in_range in Hst by exact Hi; discriminate].
  destruct (or_pixels_spec raw x_size y x cbit (conv_byte st) bin0)
    as (bin1 & Hrun & Hlen & Hother & v & Hv & Hbyte); try assumption.
  { eapply load_store_eq. exact Hst. }
  unfold layer_byte. rewrite Hst. cbn [mbind option_bind]. rewrite Hrun.
  cbn [mbind option_bind]. exists bin1. split; [reflexivity|].
  split; [rewrite Hlen; eapply store_length; exact Hst|].
  split.
  - intros j Hj. rewrite (Hother j Hj). eapply load_store_ne; eassumption.
  - exists v. split; assumption.
Qed.

Lemma layer_group_spec raw color_bits x_size y x st :
  0 <= color_bits -> 0 <= x < x_size -> 0 <= y ->
  (y + 1) * x_size <= Z.of_nat (length raw) ->
  0 <= conv_byte st ->
  conv_byte st + CARD_MEMORY_SIZE * color_bits
    <= Z.of_nat (length (binary st)) + CARD_MEMORY_SIZE - 1 ->
  exists st',
    layer_group raw color_bits x_size y x st = Some st' /\
    conv_byte st' = conv_byte st + 1 /\
    data_size st' = data_size st + color_bits /\
    length (binary st') = length (binary st) /\
    (forall j, (forall cbit, 0 <= cbit < color_bits ->
                  j <> conv_byte st + CARD_MEMORY_SIZE * cbit) ->
       load (binary st') j = load (binary st) j) /\
    (forall cbit, 0 <= cbit < color_bits ->
       exists v, load (binary st') (conv_byte st + CARD_MEMORY_SIZE * cbit)
                   = Some v /\
                 is_plane_byte raw x_size y x cbit v).
Proof.
  intros Hcb Hx Hy Hraw Hconv Hlen.
  unfold layer_group.
  destruct (for_loop_inv (Z.to_nat color_bits)
    (fun k st' =>
       conv_byte st' = conv_byte st /\
       data_size st' = data_size st + Z.of_nat k /\
       length (binary st') = length (binary st) /\
       (forall j, (forall cbit, 0 <= cbit < Z.of_nat k ->
                     j <> conv_byte st + CARD_MEMORY_SIZE * cbit) ->
          load (binary st') j = load (binary st) j) /\
       (forall cbit, 0 <= cbit < Z.of_nat k ->
          exists v, load (binary st') (conv_byte st + CARD_MEMORY_SIZE * cbit)
                      = Some v /\
                    is_plane_byte raw x_size y x cbit v))
    Z.of_nat (Datatypes.S (Z.to_nat color_bits))
    (fun cbit => cbit <? color_bits) (fun cbit => cbit + 1)
    (layer_byte raw x_size y x) st)
    as (st1 & Hrun & Hc & Hd & Hl & Hother & Hbytes).
  - lia.
  - intros k Hk. split; [apply Z.ltb_lt|]; lia.
  - apply Z.ltb_ge. lia.
  - repeat split; try lia.
  - intros k s Hk (Hc & Hd & Hl & Hother & Hbytes).
    destruct (layer_byte_spec raw x_size y x (Z.of_nat k) s)
      as (bin1 & Hrun & Hl1 & Hother1 & v & Hv & Hbyte); try assumption;
      try (unfold CARD_MEMORY_SIZE in *; lia).
    eexists. split; [exact Hrun|]. simpl.
    split; [exact Hc|]. split; [lia|]. split; [lia|].
    unfold CARD_MEMORY_SIZE in *. rewrite Hc in *.
    split.
    + intros j Hj. rewrite Hother1 by (apply Hj; lia).
      apply Hother. intros cbit Hcbit. apply Hj. lia.
    + intros cbit Hcbit.
      destruct (Z.eq_dec cbit (Z.of_nat k)) as [->|Hne].
      * exists v. split; assumption.
      * rewrite Hother1 by lia. apply Hbytes. lia.
  - exists (mk_layers (binary st1) (conv_byte st1 + 1) (data_size st1)).
    change (Z.of_nat 0) with 0 in Hrun.
    rewrite Hrun. cbn [mbind option_bind binary conv_byte data_size].
    split; [reflexivity|].
    rewrite Z2Nat.id in * by lia.
    repeat split; try assumption; lia.
Qed.

Lemma row_index (W y g0 : Z) :
  0 <= g0 < W -> (y * W + g0) / W = y /\ (y * W + g0) mod W = g0.
Proof.
  intros Hg. split.
  - rewrite Z.add_comm, Z.div_add by lia. rewrite Z.div_small by lia. lia.
  - rewrite Z.add_comm, Z.mod_add by lia. apply Z.mod_small. lia.
Qed.

Lemma layer_row_spec raw color_bits x_size y st :
  0 <= color_bits -> 1 <= x_size <= 65528 -> 0 <= y ->
  (y + 1) * x_size <= Z.of_nat (length raw) ->
  conv_byte st = y * row_bytes x_size ->
  (y + 1) * row_bytes x_size <= CARD_MEMORY_SIZE ->
  CARD_MEMORY_SIZE * color_bits <= Z.of_nat (length (binary st)) ->
  planes_ok raw color_bits x_size (y * row_bytes x_size) (binary st) ->
  exists st',
    layer_row raw color_bits x_size y st = Some st' /\
    conv_byte st' = (y + 1) * row_bytes x_size /\
    data_size st' = data_size st + color_bits * row_bytes x_size /\
    length (binary st') = length (binary st) /\
    planes_ok raw color_bits x_size ((y + 1) * row_bytes x_size) (binary st').
Proof.
  intros Hcb Hx Hy Hraw Hconv Hfit Hlen Hok.
  set (W := row_bytes x_size) in *.
  assert (HW : 8 * W - 8 < x_size <= 8 * W) by (subst W; unfold row_bytes; Z.div_mod_to_equations; lia).
  unfold layer_row.
  destruct (for_loop_inv (Z.to_nat W)
    (fun k st' =>
       conv_byte st' = y * W + Z.of_nat k /\
       data_size st' = data_size st + color_bits * Z.of_nat k /\
       length (binary st') = length (binary st) /\
       planes_ok raw color_bits x_size (y * W + Z.of_nat k) (binary st'))
    (fun k => 8 * Z.of_nat k) uint16_fuel
    (fun x => x <? x_size) (fun x => uint16 (x + 8))
    (layer_group raw color_bits x_size y) st)
    as (st1 & Hrun & Hc & Hd & Hl & Hok1).
  - unfold uint16_fuel. lia.
  - intros k Hk. split; [apply Z.ltb_lt; lia|].
    unfold uint16. rewrite Z.mod_small by lia. lia.
  - apply Z.ltb_ge. lia.
  - repeat split; try lia. replace (y * W + Z.of_nat 0) with (y * W) by lia.
    exact Hok.
  - intros k s Hk (Hc & Hd & Hl & Hoks).
    destruct (layer_group_spec raw color_bits x_size y (8 * Z.of_nat k) s)
      as (s' & Hrun & Hc' & Hd' & Hl' & Hother & Hbytes); try assumption;
      try (unfold CARD_MEMORY_SIZE in *; nia).
    exists s'. split; [exact Hrun|].
    split; [lia|]. split; [lia|]. split; [lia|].
    intros j cbit Hj Hcbit. change (row_bytes x_size) with W.
    destruct (Z.eq_dec j (y * W + Z.of_nat k)) as [->|Hne].
    + destruct (row_index W y (Z.of_nat k)) as [-> ->]; [lia|].
      rewrite <- Hc. apply Hbytes. exact Hcbit.
    + rewrite Hother; [apply Hoks; lia|].
      intros cbit' Hcbit'. unfold CARD_MEMORY_SIZE in *. nia.
  - exists st1. change (8 * Z.of_nat 0) with 0 in Hrun.
    split; [exact Hrun|]. rewrite Z2Nat.id in * by lia.
    split; [lia|]. split; [lia|]. split; [lia|].
    replace ((y + 1) * W) with (y * W + W) by lia. exact Hok1.
Qed.

Lemma convert_to_layers_spec raw bin color_bits x_size y_size :
  0 <= color_bits -> 1 <= x_size <= 65528 -> 0 <= y_size <= 65535 ->
  x_size * y_size <= Z.of_nat (length raw) ->
  row_bytes x_size * y_size <= CARD_MEMORY_SIZE ->
  CARD_MEMORY_SIZE * color_bits <= Z.of_nat (length bin) ->
  exists bin',
    convert_to_layers raw bin color_bits x_size y_size =
      Some (bin', color_bits * row_bytes x_size * y_size) /\
    length bin' = length bin /\
    planes_ok raw color_bits x_size (row_bytes x_size * y_size) bin'.
Proof.
  intros Hcb Hx Hy Hraw Hfit Hlen.
  set (W := row_bytes x_size) in *.
  assert (HW : 1 <= W) by (subst W; unfold row_bytes; Z.div_mod_to_equations; lia).
  unfold convert_to_layers.
  destruct (for_loop_inv (Z.to_nat y_size)
    (fun k st' =>
       conv_byte st' = Z.of_nat k * W /\
       data_size st' = color_bits * W * Z.of_nat k /\
       length (binary st') = length bin /\
       planes_ok raw color_bits x_size (Z.of_nat k * W) (binary st'))
    Z.of_nat uint16_fuel
    (fun y => y <? y_size) (fun y => uint16 (y + 1))
    (layer_row raw color_bits x_size) (mk_layers bin 0 0))
    as (st1 & Hrun & Hc & Hd & Hl & Hok1).
  - unfold uint16_fuel. lia.
  - intros k Hk. split; [apply Z.ltb_lt; lia|].
    unfold uint16. rewrite Z.mod_small by lia. lia.
  - apply Z.ltb_ge. lia.
  - simpl. repeat split; try lia. intros j cbit Hj. lia.
  - intros k s Hk (Hc & Hd & Hl & Hoks).
    destruct (layer_row_spec raw color_bits x_size (Z.of_nat k) s)
      as (s' & Hrun & Hc' & Hd' & Hl' & Hok'); try assumption; try lia;
      try (fold W; nia).
    exists s'. split; [exact Hrun|].
    fold W in Hc', Hd', Hok'.
    replace (Z.of_nat (Datatypes.S k)) with (Z.of_nat k + 1) by lia.
    split; [lia|]. split; [lia|]. split; [lia|]. exact Hok'.
  - change (Z.of_nat 0) with 0 in Hrun. rewrite Hrun.
    cbn [mbind option_bind]. rewrite Z2Nat.id in * by lia.
    exists (binary st1). split; [rewrite Hd; reflexivity|].
    split; [exact Hl|].
    replace (W * y_size) with (y_size * W) by lia. exact Hok1.
Qed.

(** ** Reading the planes back *)

Lemma planes_ok_bit raw bin color_bits x_size y_size x y cbit :
  1 <= x_size -> 
  planes_ok raw color_bits x_size (row_bytes x_size * y_size) bin ->
  0 <= x < 8 * row_bytes x_size -> 0 <= y < y_size ->
  0 <= cbit < color_bits ->
  exists byte,
    load bin (cbit * CARD_MEMORY_SIZE + x / 8 + row_bytes x_size * y)
      = Some byte /\
    Z.testbit byte (7 - x mod 8) =
    if x <? x_size then Z.testbit (raw_at raw (y * x_size + x)) cbit
    else false.
Proof.
  intros Hw Hok Hx Hy Hcbit.
  set (W := row_bytes x_size) in *.
  assert (Hg : 0 <= x / 8 < W) by (Z.div_mod_to_equations; lia).
  destruct (Hok (y * W + x / 8) cbit) as (v & Hv & _ & Hbits);
    [nia|exact Hcbit|].
  fold W in Hbits.
  destruct (row_index W y (x / 8) Hg) as [Hq Hr]. rewrite Hq, Hr in Hbits.
  exists v. split.
  - rewrite <- Hv. f_equal. lia.
  - rewrite (Hbits (x mod 8)) by (Z.div_mod_to_equations; lia).
    replace (8 * (x / 8) + x mod 8) with x by (Z.div_mod_to_equations; lia).
    replace (y * x_size + 8 * (x / 8) + x mod 8) with (y * x_size + x)
      by (Z.div_mod_to_equations; lia).
    reflexivity.
Qed.

Lemma plane_pixel_spec bin x_size x y v (n : nat) :
  forall b0, 0 <= b0 ->
  (forall cbit, b0 <= cbit < b0 + Z.of_nat n ->
     plane_bit bin x_size cbit x y = Some (Z.testbit v cbit)) ->
  plane_pixel n bin x_size b0 x y = Some (Z.shiftr v b0 mod 2 ^ Z.of_nat n).
Proof.
  induction n as [|n IH]; intros b0 Hb0 Hbits.
  - simpl. rewrite Z.mod_1_r. reflexivity.
  - cbn [plane_pixel]. rewrite (Hbits b0) by lia. cbn [mbind option_bind].
    rewrite (IH (b0 + 1)) by (try lia; intros; apply Hbits; lia).
    cbn [mbind option_bind]. f_equal.
    replace (Z.testbit v b0) with (Z.testbit (Z.shiftr v b0) 0)
      by (rewrite Z.shiftr_spec by lia; f_equal; lia).
    rewrite Z.bit0_mod.
    rewrite <- Z.shiftr_shiftr by lia.
    rewrite (Z.shiftr_div_pow2 _ 1) by lia. change (2 ^ 1) with 2.
    replace (2 ^ Z.of_nat (Datatypes.S n)) with (2 * 2 ^ Z.of_nat n)
      by (rewrite Nat2Z.inj_succ, Z.pow_succ_r by lia; reflexivity).
    rewrite Z.rem_mul_r by lia. reflexivity.
Qed.

(** C1. Bit-plane round trip: within the device limits (width 1..320, height
    1..200, 1..4 colour bits, a raster of width*height palette indices below
    2^color_bits, the 4*8192-byte combined buffer with any initial contents),
    [convert_to_layers] returns, and in the buffer it leaves, for every pixel
    (x,y) and plane b, bit 7 - x mod 8 of the byte at offset
    b*8192 + x/8 + ceil(width/8)*y is bit b of the raster value at y*width + x;
    the positions beyond the row width hold 0 bits; and reassembling the
    plane bits at every pixel gives back the raster. *)
Theorem convert_to_layers_round_trip raw bin color_bits x_size y_size :
  1 <= x_size <= MAX_COL_BYTES * 8 ->
  1 <= y_size <= MAX_ROWS ->
  1 <= color_bits <= 4 ->
  Z.of_nat (length raw) = x_size * y_size ->
  Forall (fun v => 0 <= v < 2 ^ color_bits) raw ->
  Z.of_nat (length bin) = MAX_CARDS * CARD_MEMORY_SIZE ->
  exists bin' n,
    convert_to_layers raw bin color_bits x_size y_size = Some (bin', n) /\
    (forall x y cbit,
       0 <= x < x_size -> 0 <= y < y_size -> 0 <= cbit < color_bits ->
       exists byte v,
         load bin' (cbit * 8192 + x / 8 + ((x_size + 7) / 8) * y) = Some byte /\
         load raw (y * x_size + x) = Some v /\
         Z.testbit byte (7 - x mod 8) = Z.testbit v cbit) /\
    (forall x y cbit,
       x_size <= x < 8 * ((x_size + 7) / 8) -> 0 <= y < y_size ->
       0 <= cbit < color_bits ->
       plane_bit bin' x_size cbit x y = Some false) /\
    planes_to_raster bin' color_bits x_size y_size = Some raw.
Proof.
  intros Hx Hy Hcb Hraw Hvals Hbin.
  unfold MAX_COL_BYTES, MAX_ROWS, MAX_CARDS in *.
  assert (HW : 8 * row_bytes x_size - 8 < x_size <= 8 * row_bytes x_size)
    by (unfold row_bytes; Z.div_mod_to_equations; lia).
  destruct (convert_to_layers_spec raw bin color_bits x_size y_size)
    as (bin' & Hrun & Hlen & Hok); try lia;
    try (unfold CARD_MEMORY_SIZE in *; nia).
  exists bin', (color_bits * row_bytes x_size * y_size).
  split; [exact Hrun|].
  assert (Hbit : forall x y cbit,
            0 <= x < 8 * row_bytes x_size -> 0 <= y < y_size ->
            0 <= cbit < color_bits ->
            plane_bit bin' x_size cbit x y =
            Some (if x <? x_size
                  then Z.testbit (raw_at raw (y * x_size + x)) cbit
                  else false)).
  { intros x y cbit Hx' Hy' Hc'.
    destruct (planes_ok_bit raw bin' color_bits x_size y_size x y cbit)
      as (byte & Hbyte & Hb); try assumption; try lia.
    unfold plane_bit. rewrite Hbyte. cbn [mbind option_bind].
    rewrite Hb. reflexivity. }
  split; [|split].
  - intros x y cbit Hx' Hy' Hc'.
    destruct (planes_ok_bit raw bin' color_bits x_size y_size x y cbit)
      as (byte & Hbyte & Hb); try assumption; try lia.
    exists byte, (raw_at raw (y * x_size + x)).
    split; [exact Hbyte|]. split; [apply raw_at_load; nia|].
    rewrite Hb. rewrite (proj2 (Z.ltb_lt x x_size)) by lia. reflexivity.
  - intros x y cbit Hx' Hy' Hc'. fold (row_bytes x_size) in Hx'.
    rewrite Hbit by lia. rewrite (proj2 (Z.ltb_ge x x_size)) by lia.
    reflexivity.
  - unfold planes_to_raster. apply mapM_Some.
    apply Forall2_same_length_lookup_2.
    { rewrite length_seq. lia. }
    intros i k v Hk Hv. apply lookup_seq in Hk as [-> Hi]. simpl.
    assert (Hiw : 0 <= Z.of_nat i mod x_size < x_size /\
                  0 <= Z.of_nat i / x_size < y_size /\
                  Z.of_nat i / x_size * x_size + Z.of_nat i mod x_size
                  = Z.of_nat i).
    { assert (Z.of_nat i < x_size * y_size) by lia.
      pose proof (Z.div_mod (Z.of_nat i) x_size ltac:(lia)).
      pose proof (Z.mod_pos_bound (Z.of_nat i) x_size ltac:(lia)).
      split; [lia|]. split; [|lia].
      split; [apply Z.div_pos; lia|apply Z.div_lt_upper_bound; lia]. }
    destruct Hiw as (Hxi & Hyi & Hidx).
    assert (Hvr : raw_at raw (Z.of_nat i) = v).
    { unfold raw_at, load. rewrite bool_decide_eq_true_2 by lia.
      rewrite Nat2Z.id, Hv. reflexivity. }
    assert (Hvb : 0 <= v < 2 ^ color_bits).
    { eapply (proj1 (Forall_lookup _ raw) Hvals). exact Hv. }
    rewrite (plane_pixel_spec bin' x_size _ _ v).
    + f_equal. rewrite Z.shiftr_0_r, Z2Nat.id by lia. apply Z.mod_small. lia.
    + lia.
    + intros cbit Hc'. rewrite Z2Nat.id in Hc' by lia.
      rewrite Hbit by lia. rewrite (proj2 (Z.ltb_lt _ x_size)) by lia.
      rewrite Hidx, Hvr. reflexivity.
Qed.

Lemma convert_to_layers_round_trip_witness :
  exists bin' n,
    convert_to_layers [0; 1; 1; 0; 1; 1; 1; 1; 0; 1] (replicate (Z.to_nat 32768) 7)
                      1 5 2 = Some (bin', n) /\
    (forall x y cbit,
       0 <= x < 5 -> 0 <= y < 2 -> 0 <= cbit < 1 ->
       exists byte v,
         load bin' (cbit * 8192 + x / 8 + ((5 + 7) / 8) * y) = Some byte /\
         load [0; 1; 1; 0; 1; 1; 1; 1; 0; 1] (y * 5 + x) = Some v /\
         Z.testbit byte (7 - x mod 8) = Z.testbit v cbit) /\
    (forall x y cbit,
       5 <= x < 8 * ((5 + 7) / 8) -> 0 <= y < 2 -> 0 <= cbit < 1 ->
       plane_bit bin' 5 cbit x y = Some false) /\
    planes_to_raster bin' 1 5 2 = Some [0; 1; 1; 0; 1; 1; 1; 1; 0; 1].
Proof.
  apply (convert_to_layers_round_trip
           [0; 1; 1; 0; 1; 1; 1; 1; 0; 1] (replicate (Z.to_nat 32768) 7) 1 5 2).
  - unfold MAX_COL_BYTES. lia.
  - unfold MAX_ROWS. lia.
  - lia.
  - reflexivity.
  - repeat constructor; lia.
  - vm_compute. reflexivity.
Defined.

(** ** The output stream *)

Lemma fprintf_no_fault f s :
  no_fault f -> fprintf f s = (Z.of_nat (length s), written f s).
Proof.
  unfold no_fault, fprintf, written. intros Hf.
  destruct (faults f) as [|[] fs]; try reflexivity.
  apply Forall_cons in Hf as [Hb _]. discriminate.
Qed.

Lemma no_fault_written f s : no_fault f -> no_fault (written f s).
Proof.
  unfold no_fault, written. simpl. intros Hf.
  destruct (faults f); [exact Hf|]. apply Forall_cons in Hf as [_ Hf]. exact Hf.
Qed.

Lemma length_not_negative (s : text) : (0 >? Z.of_nat (length s)) = false.
Proof. rewrite Z.gtb_ltb. apply Z.ltb_ge. lia. Qed.

(** ** Bytes of an address, sums modulo *)

Lemma land_shiftr_hi a : Z.land (Z.shiftr a 8) 0xFF = hi_byte a.
Proof.
  change 0xFF with (Z.ones 8). rewrite Z.land_ones, Z.shiftr_div_pow2 by lia.
  reflexivity.
Qed.

Lemma land_lo a : Z.land a 0xFF = lo_byte a.
Proof. change 0xFF with (Z.ones 8). rewrite Z.land_ones by lia. reflexivity. Qed.

Lemma uint16_idemp_add a n : uint16 (uint16 a + n) = uint16 (a + n).
Proof. unfold uint16. apply Zplus_mod_idemp_l. Qed.

Lemma uint16_range a : 0 <= uint16 a < 65536.
Proof. unfold uint16. apply Z.mod_pos_bound. lia. Qed.

Lemma uint16_small a : 0 <= a < 65536 -> uint16 a = a.
Proof. unfold uint16. apply Z.mod_small. Qed.

(** ** Records of a buffer *)

Lemma record_count_small L n : 0 < n <= L -> record_count L n = 1.
Proof.
  intros H. unfold record_count. symmetry.
  apply (Z.div_unique _ _ 1 (n - 1)); lia.
Qed.

Lemma record_count_step L n :
  0 < L -> record_count L (n + L) = record_count L n + 1.
Proof.
  intros H. unfold record_count.
  replace (n + L + L - 1) with (n + L - 1 + 1 * L) by lia.
  apply Z.div_add. lia.
Qed.

Lemma record_count_nonneg L n : 0 < L -> 0 <= n -> 0 <= record_count L n.
Proof. intros. unfold record_count. apply Z.div_pos; lia. Qed.

Lemma records_single render L a (data : list Z) :
  0 <= a < 65536 -> 0 < Z.of_nat (length data) <= L ->
  records render L a data = [render a data].
Proof.
  intros Ha Hn. unfold records. rewrite record_count_small by lia.
  change (Z.to_nat 1) with 1%nat. cbn [seq map]. unfold chunk.
  rewrite Nat.mul_0_l, drop_0, Z.mul_0_l, Z.add_0_r, uint16_small by lia.
  rewrite take_ge by lia. reflexivity.
Qed.

Lemma records_cons render L a (data : list Z) :
  0 < L -> L < Z.of_nat (length data) ->
  records render L a data =
  render (uint16 a) (take (Z.to_nat L) data)
  :: records render L (uint16 (a + L)) (drop (Z.to_nat L) data).
Proof.
  intros HL Hn. unfold records.
  rewrite length_drop.
  replace (Z.of_nat (length data))
    with (Z.of_nat (length data - Z.to_nat L) + L) at 1 by lia.
  rewrite record_count_step by lia.
  rewrite Z2Nat.inj_add by (try lia; apply record_count_nonneg; lia).
  change (Z.to_nat 1) with 1%nat. rewrite Nat.add_comm.
  cbn [Nat.add seq map]. f_equal.
  - unfold chunk. rewrite Nat.mul_0_l, drop_0, Z.mul_0_l, Z.add_0_r.
    reflexivity.
  - rewrite <- seq_shift, map_map. apply map_ext. intros k.
    f_equal.
    + rewrite uint16_idemp_add. f_equal. lia.
    + unfold chunk. rewrite drop_drop. do 2 f_equal; lia.
Qed.

(** ** The shared loop writes the records of the buffer *)

Section record_writer_correct.

Variable per_line : Z.
Variable modulus : Z.
Variable mark : text.
Variable kind : text.
Variable show : Z -> text.

Hypothesis per_line_range : 0 < per_line < 256.
Hypothesis modulus_pos : 0 < modulus.

Let loop := write_loop per_line modulus mark kind show.
Let record := loop_record modulus mark kind show.

Lemma write_loop_nil data_size byte_num checksum lines address f :
  no_fault f ->
  loop data_size [] byte_num checksum lines address f =
  (lines, written f (show checksum ++ nl)).
Proof.
  intros Hf. subst loop. cbn [write_loop].
  rewrite fprintf_no_fault by exact Hf. rewrite length_not_negative.
  reflexivity.
Qed.

Lemma write_loop_inside data_size d rest byte_num checksum lines address f :
  no_fault f -> byte_num mod per_line <> 0 ->
  loop data_size (d :: rest) byte_num checksum lines address f =
  loop data_size rest (byte_num + 1) ((checksum + d) mod modulus) lines
       (uint16 (address + 1)) (written f (printf_X 2 d)).
Proof.
  intros Hf Hmid. subst loop. cbn [write_loop].
  rewrite (proj2 (Z.eqb_neq _ _) Hmid).
  rewrite fprintf_no_fault by exact Hf. rewrite length_not_negative.
  reflexivity.
Qed.

Lemma write_loop_new_line data_size d rest byte_num checksum lines address f :
  no_fault f -> byte_num mod per_line = 0 ->
  0 < data_size - byte_num ->
  loop data_size (d :: rest) byte_num checksum lines address f =
  loop data_size rest (byte_num + 1)
       (((Z.min per_line (data_size - byte_num) + hi_byte address
          + lo_byte address) mod modulus + d) mod modulus)
       (uint16 (lines + 1)) (uint16 (address + 1))
       (written
          (written (if byte_num =? 0 then f
                    else written f (show checksum ++ nl))
                   (mark ++ printf_X 2 (Z.min per_line (data_size - byte_num))
                    ++ printf_X 4 address ++ kind))
          (printf_X 2 d)).
Proof.
  intros Hf Hnew Hleft. subst loop. cbn [write_loop].
  rewrite (proj2 (Z.eqb_eq _ _) Hnew).
  assert (Hbil : uint8 (if data_size - byte_num >? per_line then per_line
                        else data_size - byte_num)
                 = Z.min per_line (data_size - byte_num)).
  { rewrite Z.gtb_ltb. unfold uint8.
    destruct (Z.ltb_spec per_line (data_size - byte_num));
      rewrite Z.mod_small by lia; lia. }
  rewrite Hbil, land_shiftr_hi, land_lo.
  destruct (byte_num =? 0).
  - change (0 >? 0) with false. cbv iota.
    rewrite fprintf_no_fault by exact Hf. rewrite length_not_negative.
    rewrite fprintf_no_fault by (apply no_fault_written; exact Hf).
    rewrite length_not_negative. reflexivity.
  - rewrite fprintf_no_fault by exact Hf. rewrite length_not_negative.
    rewrite fprintf_no_fault by (apply no_fault_written; exact Hf).
    rewrite length_not_negative.
    rewrite fprintf_no_fault by (do 2 apply no_fault_written; exact Hf).
    rewrite length_not_negative. reflexivity.
Qed.

(** Bytes that follow the first of a record. *)
Lemma write_loop_run data_size seg :
  forall rest byte_num checksum lines address f,
  no_fault f ->
  0 <= checksum < modulus -> 0 <= address < 65536 ->
  (forall i, 0 <= i < Z.of_nat (length seg) ->
     (byte_num + i) mod per_line <> 0) ->
  exists f',
    loop data_size (seg ++ rest) byte_num checksum lines address f =
    loop data_size rest (byte_num + Z.of_nat (length seg))
         ((checksum + sum_bytes seg) mod modulus) lines
         (uint16 (address + Z.of_nat (length seg))) f' /\
    contents f' = contents f ++ concat (map (printf_X 2) seg) /\
    no_fault f'.
Proof.
  induction seg as [|d seg IH];
    intros rest byte_num checksum lines address f Hf Hc Ha Hmid.
  - exists f. cbn [app length sum_bytes foldr concat map].
    rewrite !Z.add_0_r, app_nil_r, uint16_small, Z.mod_small by lia.
    auto.
  - cbn [app]. rewrite write_loop_inside;
      [|exact Hf|specialize (Hmid 0); rewrite Z.add_0_r in Hmid; apply Hmid;
                 cbn [length]; lia].
    destruct (IH rest (byte_num + 1) ((checksum + d) mod modulus) lines
                 (uint16 (address + 1)) (written f (printf_X 2 d)))
      as (f' & Hrun & Hcont & Hf').
    + apply no_fault_written. exact Hf.
    + apply Z.mod_pos_bound. exact modulus_pos.
    + apply uint16_range.
    + intros i Hi. replace (byte_num + 1 + i) with (byte_num + (1 + i)) by lia.
      apply Hmid. cbn [length]. lia.
    + exists f'. rewrite Hrun. split; [|split; [|exact Hf']].
      * f_equal.
        -- cbn [length]. lia.
        -- cbn [sum_bytes foldr]. fold (sum_bytes seg).
           rewrite Zplus_mod_idemp_l. f_equal. lia.
        -- rewrite uint16_idemp_add. cbn [length]. f_equal. lia.
      * rewrite Hcont. cbn [written contents map concat].
        rewrite <- app_assoc. reflexivity.
Qed.

(** From the start of a record on: the rest of the buffer goes out as its
    records, after the checksum of the record before, if there is one. *)
Lemma write_loop_records (n : nat) :
  forall data byte_num checksum lines address f,
  data <> [] ->
  Z.of_nat (length data) <= Z.of_nat n * per_line ->
  0 <= byte_num -> byte_num mod per_line = 0 ->
  no_fault f -> 0 <= address < 65536 ->
  exists f',
    loop (byte_num + Z.of_nat (length data)) data byte_num checksum lines
         address f =
    (uint16 (lines + record_count per_line (Z.of_nat (length data))), f') /\
    contents f' =
      contents f
      ++ (if byte_num =? 0 then [] else show checksum ++ nl)
      ++ concat (records record per_line address data) /\
    no_fault f'.
Proof.
  induction n as [|n IH];
    intros data byte_num checksum lines address f Hne Hlen Hbn Hnew Hf Ha.
  { destruct data; [congruence|]. cbn [length] in Hlen. lia. }
  destruct data as [|d rest]; [congruence|]. clear Hne.
  set (Ln := Z.to_nat per_line).
  assert (Hsplit : exists seg rest',
            rest = seg ++ rest' /\
            Z.of_nat (length seg) <= per_line - 1 /\
            (rest' <> [] -> Z.of_nat (length seg) = per_line - 1)).
  { exists (take (Ln - 1) rest), (drop (Ln - 1) rest).
    split; [symmetry; apply take_drop|].
    rewrite length_take. split; [subst Ln; lia|].
    intros Hmore. assert (length (drop (Ln - 1) rest) <> 0)%nat
      by (destruct (drop (Ln - 1) rest); [congruence|discriminate]).
    rewrite length_drop in H. subst Ln. lia. }
  destruct Hsplit as (seg & rest' & -> & Hseg & Hfull).
  set (data_size := byte_num + Z.of_nat (length (d :: seg ++ rest'))).
  assert (Hlen' : Z.of_nat (length (d :: seg ++ rest'))
                  = 1 + Z.of_nat (length seg) + Z.of_nat (length rest')).
  { cbn [length]. rewrite length_app. lia. }
  assert (Hmin : Z.min per_line (data_size - byte_num)
                 = Z.of_nat (length (d :: seg))).
  { subst data_size. rewrite Hlen'. cbn [length].
    destruct rest'; [cbn [length]; lia|].
    pose proof (Hfull ltac:(discriminate)). cbn [length]. lia. }
  rewrite write_loop_new_line; [|exact Hf|exact Hnew|subst data_size; lia].
  rewrite Hmin.
  set (f1 := written (written _ _) (printf_X 2 d)).
  assert (Hf1 : no_fault f1).
  { subst f1. do 2 apply no_fault_written.
    destruct (byte_num =? 0); [exact Hf|apply no_fault_written; exact Hf]. }
  destruct (write_loop_run data_size seg rest' (byte_num + 1)
              (((Z.of_nat (length (d :: seg)) + hi_byte address
                 + lo_byte address) mod modulus + d) mod modulus)
              (uint16 (lines + 1)) (uint16 (address + 1)) f1)
    as (f2 & Hrun & Hcont2 & Hf2).
  { exact Hf1. }
  { apply Z.mod_pos_bound. exact modulus_pos. }
  { apply uint16_range. }
  { intros i Hi.
    replace (byte_num + 1 + i) with (1 + i + byte_num) by lia.
    rewrite <- Zplus_mod_idemp_r, Hnew, Z.add_0_r.
    rewrite Z.mod_small by lia. lia. }
  rewrite Hrun. clear Hrun.
  assert (Hsum : ((((Z.of_nat (length (d :: seg)) + hi_byte address
                     + lo_byte address) mod modulus + d) mod modulus
                   + sum_bytes seg) mod modulus)
                 = (Z.of_nat (length (d :: seg)) + hi_byte address
                    + lo_byte address + sum_bytes (d :: seg)) mod modulus).
  { rewrite Zplus_mod_idemp_l, <- Z.add_assoc, Zplus_mod_idemp_l.
    reflexivity. }
  rewrite Hsum. clear Hsum.
  assert (Hcont1 : contents f2 =
            contents f ++ (if byte_num =? 0 then [] else show checksum ++ nl)
            ++ mark ++ printf_X 2 (Z.of_nat (length (d :: seg)))
            ++ printf_X 4 address ++ kind
            ++ concat (map (printf_X 2) (d :: seg))).
  { rewrite Hcont2. subst f1. cbn [written contents map concat].
    destruct (byte_num =? 0); cbn [written contents];
      rewrite <- ?app_assoc; reflexivity. }
  destruct rest' as [|d' rest''].
  - (* the last record *)
    rewrite app_nil_r in *.
    rewrite write_loop_nil by exact Hf2.
    eexists. split; [|split].
    + rewrite record_count_small by (cbn [length] in *; lia). reflexivity.
    + cbn [written contents]. rewrite Hcont1.
      rewrite records_single by (cbn [length] in *; lia).
      subst record. unfold loop_record.
      cbn [concat]. rewrite app_nil_r, <- !app_assoc. reflexivity.
    + apply no_fault_written. exact Hf2.
  - (* a full record, and more to come *)
    specialize (Hfull ltac:(discriminate)).
    assert (Hsegn : length (d :: seg) = Ln) by (cbn [length]; subst Ln; lia).
    assert (Hpos : 0 < Z.of_nat (length (d' :: rest''))) by (cbn [length]; lia).
    destruct (IH (d' :: rest'') (byte_num + 1 + Z.of_nat (length seg))
                ((Z.of_nat (length (d :: seg)) + hi_byte address
                  + lo_byte address + sum_bytes (d :: seg)) mod modulus)
                (uint16 (lines + 1))
                (uint16 (uint16 (address + 1) + Z.of_nat (length seg))) f2)
      as (f3 & Hrun & Hcont3 & Hf3).
    { discriminate. }
    { lia. }
    { lia. }
    { replace (byte_num + 1 + Z.of_nat (length seg)) with (byte_num + 1 * per_line) by lia.
      rewrite Z.mod_add by lia. exact Hnew. }
    { exact Hf2. }
    { apply uint16_range. }
    replace (byte_num + 1 + Z.of_nat (length seg) + Z.of_nat (length (d' :: rest'')))
      with data_size in Hrun by (subst data_size; lia).
    rewrite Hrun. exists f3. split; [|split; [|exact Hf3]].
    + f_equal. rewrite uint16_idemp_add.
      replace (Z.of_nat (length (d :: seg ++ d' :: rest'')))
        with (Z.of_nat (length (d' :: rest'')) + per_line) by lia.
      rewrite record_count_step by lia. f_equal. lia.
    + rewrite Hcont3, Hcont1.
      rewrite (records_cons record per_line address (d :: seg ++ d' :: rest''))
        by lia.
      fold Ln. change (d :: seg ++ d' :: rest'') with ((d :: seg) ++ d' :: rest'').
      rewrite (take_app_length' (d :: seg)), (drop_app_length' (d :: seg))
        by (symmetry; exact Hsegn).
      replace (byte_num + 1 + Z.of_nat (length seg) =? 0) with false
        by (symmetry; apply Z.eqb_neq; lia).
      rewrite uint16_idemp_add.
      replace (address + 1 + Z.of_nat (length seg)) with (address + per_line) by lia.
      rewrite (uint16_small address) by lia.
      subst record. unfold loop_record at 2. cbn [concat].
      rewrite <- !app_assoc. reflexivity.
Qed.

End record_writer_correct.

(** ** ihex_write and pap_write are instances of the shared loop *)

Ltac split_writes :=
  repeat first
    [ progress cbv beta iota zeta
    | progress change (0 >? 0) with false
    | match goal with
      | |- context [fprintf ?f ?s] =>
          let r := fresh "r" in
          let f' := fresh "f" in
          destruct (fprintf f s) as [r f']; destruct (0 >? r)
      end ].

Lemma ihex_write_loop_shared data_size data :
  forall byte_num checksum lines address f,
  ihex.ihex_write_loop data_size data byte_num checksum lines address f =
  write_loop ihex.BYTES_PER_LINE 256 (str ":") (str "00") ihex_show
             data_size data byte_num checksum lines address f.
Proof.
  induction data as [|d rest IH]; intros; [reflexivity|].
  cbn [ihex.ihex_write_loop write_loop]. unfold ihex_show, uint8.
  rewrite Z.add_0_r. change (0 >? 0) with false.
  destruct (byte_num mod ihex.BYTES_PER_LINE =? 0);
    [destruct (byte_num =? 0)|]; split_writes; try reflexivity; apply IH.
Qed.

Lemma pap_write_loop_shared data_size data :
  forall byte_num checksum lines address f,
  pap.pap_write_loop data_size data byte_num checksum lines address f =
  write_loop pap.BYTES_PER_LINE 65536 (str ";") [] (printf_X 4)
             data_size data byte_num checksum lines address f.
Proof.
  induction data as [|d rest IH]; intros; [reflexivity|].
  cbn [pap.pap_write_loop write_loop]. unfold uint16.
  rewrite app_nil_r. change (0 >? 0) with false.
  destruct (byte_num mod pap.BYTES_PER_LINE =? 0);
    [destruct (byte_num =? 0)|]; split_writes; try reflexivity; apply IH.
Qed.

(** ** Width of the printed fields *)

Lemma hex_digits_length fuel :
  forall v (k : nat), 0 <= v < 16 ^ Z.of_nat k ->
  (length (hex_digits fuel v) <= k)%nat.
Proof.
  induction fuel as [|fuel IH]; intros v k Hv; cbn [hex_digits length].
  - lia.
  - destruct (Z.eqb_spec v 0) as [->|Hne]; cbn [length]; [lia|].
    destruct k as [|k]; [change (16 ^ Z.of_nat 0) with 1 in Hv; lia|].
    apply le_n_S, IH.
    rewrite Nat2Z.inj_succ, Z.pow_succ_r in Hv by lia.
    split; [apply Z.div_pos; lia|apply Z.div_lt_upper_bound; lia].
Qed.

Lemma printf_X_length prec v :
  0 <= v < 16 ^ Z.of_nat prec -> length (printf_X prec v) = prec.
Proof.
  intros Hv. unfold printf_X.
  pose proof (hex_digits_length 8 v prec Hv).
  rewrite length_rev, length_app, repeat_length. lia.
Qed.

(** ** The checksum of an Intel-hex record *)

Lemma ihex_show_checksum s :
  ihex_show (s mod 256) = printf_X 2 ((- s) mod 256).
Proof.
  unfold ihex_show, uint8. f_equal.
  replace (Z.lnot (s mod 256) + 1) with (0 - s mod 256)
    by (unfold Z.lnot; lia).
  rewrite Zminus_mod_idemp_r. reflexivity.
Qed.

Lemma loop_record_ihex a bytes :
  loop_record 256 (str ":") (str "00") ihex_show a bytes = ihex_record a bytes.
Proof.
  unfold loop_record, ihex_record, ihex_checksum.
  rewrite ihex_show_checksum. reflexivity.
Qed.

Lemma loop_record_pap a bytes :
  loop_record 65536 (str ";") [] (printf_X 4) a bytes = pap_record a bytes.
Proof. reflexivity. Qed.

Lemma records_ext render render' L a data :
  (forall a' bytes, render a' bytes = render' a' bytes) ->
  records render L a data = records render' L a data.
Proof. intros H. unfold records. apply map_ext. intros k. apply H. Qed.

(** ** What one call of a writer does *)

Lemma ihex_write_records f address data :
  no_fault f -> data <> [] -> 0 <= address < 65536 ->
  exists f',
    ihex.ihex_write f address data =
      (uint16 (record_count ihex.BYTES_PER_LINE (Z.of_nat (length data))), f') /\
    contents f' =
      contents f
      ++ concat (records ihex_record ihex.BYTES_PER_LINE address data) /\
    no_fault f'.
Proof.
  intros Hf Hne Ha. unfold ihex.ihex_write. rewrite ihex_write_loop_shared.
  destruct (write_loop_records ihex.BYTES_PER_LINE 256 (str ":") (str "00")
              ihex_show ltac:(unfold ihex.BYTES_PER_LINE; lia) ltac:(lia)
              (length data) data 0 0 0 address f)
    as (f' & Hrun & Hcont & Hf'); try assumption; try reflexivity;
    try (unfold ihex.BYTES_PER_LINE; lia).
  exists f'. rewrite Z.add_0_l in Hrun. rewrite Hrun. split; [reflexivity|].
  split; [|exact Hf'].
  rewrite Hcont. cbn [Z.eqb app].
  rewrite (records_ext _ ihex_record) by apply loop_record_ihex. reflexivity.
Qed.

Lemma pap_write_records f address data :
  no_fault f -> data <> [] -> 0 <= address < 65536 ->
  exists f',
    pap.pap_write f address data =
      (uint16 (record_count pap.BYTES_PER_LINE (Z.of_nat (length data))), f') /\
    contents f' =
      contents f
      ++ concat (records pap_record pap.BYTES_PER_LINE address data) /\
    no_fault f'.
Proof.
  intros Hf Hne Ha. unfold pap.pap_write. rewrite pap_write_loop_shared.
  destruct (write_loop_records pap.BYTES_PER_LINE 65536 (str ";") []
              (printf_X 4) ltac:(unfold pap.BYTES_PER_LINE; lia) ltac:(lia)
              (length data) data 0 0 0 address f)
    as (f' & Hrun & Hcont & Hf'); try assumption; try reflexivity;
    try (unfold pap.BYTES_PER_LINE; lia).
  exists f'. rewrite Z.add_0_l in Hrun. rewrite Hrun. split; [reflexivity|].
  split; [|exact Hf'].
  rewrite Hcont. cbn [Z.eqb app].
  rewrite (records_ext _ pap_record) by apply loop_record_pap. reflexivity.
Qed.

Lemma length_records render L a data :
  Z.of_nat (length (records render L a data))
  = Z.max 0 (record_count L (Z.of_nat (length data))).
Proof. unfold records. rewrite length_map, length_seq. lia. Qed.

(** The bytes of record [k]: between 1 and [L], all of them bytes. *)
Lemma chunk_range L (data : list Z) (k : nat) :
  0 < L -> Z.of_nat k < record_count L (Z.of_nat (length data)) ->
  1 <= Z.of_nat (length (chunk L data k)) <= L.
Proof.
  intros HL Hk. unfold chunk. rewrite length_take, length_drop.
  assert (Z.of_nat k * L < Z.of_nat (length data)).
  { unfold record_count in Hk.
    pose proof (Z.mul_div_le (Z.of_nat (length data) + L - 1) L HL).
    nia. }
  nia.
Qed.

Lemma chunk_bytes L (data : list Z) (k : nat) (P : Z -> Prop) :
  Forall P data -> Forall P (chunk L data k).
Proof. intros H. unfold chunk. apply Forall_take, Forall_drop, H. Qed.

Lemma sum_bytes_range (bytes : list Z) :
  Forall (fun d => 0 <= d < 256) bytes ->
  0 <= sum_bytes bytes <= 255 * Z.of_nat (length bytes).
Proof.
  induction 1 as [|d bytes Hd _ IH]; cbn [sum_bytes foldr length].
  - lia.
  - fold (sum_bytes bytes). lia.
Qed.

Lemma hi_byte_range a : 0 <= hi_byte a < 256.
Proof. unfold hi_byte. apply Z.mod_pos_bound. lia. Qed.

Lemma lo_byte_range a : 0 <= lo_byte a < 256.
Proof. unfold lo_byte. apply Z.mod_pos_bound. lia. Qed.

Lemma lookup_map {A B : Type} (f : A -> B) (l : list A) (i : nat) :
  map f l !! i = f <$> l !! i.
Proof.
  revert i. induction l as [|x l IH]; intros [|i]; try reflexivity.
  apply IH.
Qed.

Lemma lookup_records render L a (data : list Z) (k : nat) :
  Z.of_nat k < record_count L (Z.of_nat (length data)) ->
  records render L a data !! k =
  Some (render (uint16 (a + Z.of_nat k * L)) (chunk L data k)).
Proof.
  intros Hk. unfold records. rewrite lookup_map.
  rewrite (proj2 (lookup_seq 0 _ k k)) by (split; [reflexivity|lia]).
  reflexivity.
Qed.

Lemma printf_X_2_length v : 0 <= v < 256 -> length (printf_X 2 v) = 2%nat.
Proof. intros Hv. apply printf_X_length. exact Hv. Qed.

Lemma printf_X_4_length v : 0 <= v < 65536 -> length (printf_X 4 v) = 4%nat.
Proof. intros Hv. apply printf_X_length. exact Hv. Qed.

(** C4. Per-record checksums.  A write of [N >= 1] bytes at a 16-bit address
    on which no call fails appends the records of the buffer and nothing
    else.  Record [k] holds the (at most 32, resp. 24) bytes from [k*L] on and
    starts at the address advanced by [k*L].  In the Intel-hex variant it is
    ':' , the byte count on 2 digits, the address on 4, '00', each byte on 2
    digits, then on 2 digits the two's complement modulo 256 of (count + high
    byte + low byte of the address + sum of the bytes), and a newline.  In
    the papertape variant it is ';', count, address, bytes, then on 4 digits
    the plain sum (count + high byte + low byte + sum of the bytes of this
    record alone), and a newline. *)
Theorem record_checksums f address data :
  no_fault f -> data <> [] -> 0 <= address < 65536 ->
  Forall (fun d => 0 <= d < 256) data ->
  (contents (snd (ihex.ihex_write f address data)) =
     contents f ++ concat (records ihex_record 32 address data) /\
   forall k : nat,
     Z.of_nat k < record_count 32 (Z.of_nat (length data)) ->
     let a := uint16 (address + Z.of_nat k * 32) in
     let bytes := chunk 32 data k in
     let count := Z.of_nat (length bytes) in
     let checksum :=
       (- (count + a / 256 mod 256 + a mod 256 + sum_bytes bytes)) mod 256 in
     records ihex_record 32 address data !! k =
       Some (str ":" ++ printf_X 2 count ++ printf_X 4 a ++ str "00"
             ++ concat (map (printf_X 2) bytes)
             ++ printf_X 2 checksum ++ nl) /\
     length (printf_X 2 count) = 2%nat /\
     length (printf_X 4 a) = 4%nat /\
     Forall (fun d => length (printf_X 2 d) = 2%nat) bytes /\
     length (printf_X 2 checksum) = 2%nat) /\
  (contents (snd (pap.pap_write f address data)) =
     contents f ++ concat (records pap_record 24 address data) /\
   forall k : nat,
     Z.of_nat k < record_count 24 (Z.of_nat (length data)) ->
     let a := uint16 (address + Z.of_nat k * 24) in
     let bytes := chunk 24 data k in
     let count := Z.of_nat (length bytes) in
     let checksum := count + a / 256 mod 256 + a mod 256 + sum_bytes bytes in
     records pap_record 24 address data !! k =
       Some (str ";" ++ printf_X 2 count ++ printf_X 4 a
             ++ concat (map (printf_X 2) bytes)
             ++ printf_X 4 checksum ++ nl) /\
     length (printf_X 2 count) = 2%nat /\
     length (printf_X 4 a) = 4%nat /\
     Forall (fun d => length (printf_X 2 d) = 2%nat) bytes /\
     0 <= checksum < 65536 /\
     length (printf_X 4 checksum) = 4%nat).
Proof.
  intros Hf Hne Ha Hbytes.
  assert (Hdigits : forall L k, Forall (fun d => length (printf_X 2 d) = 2%nat)
                                  (chunk L data k)).
  { intros L k. eapply Forall_impl; [apply chunk_bytes, Hbytes|].
    intros d Hd. apply printf_X_2_length. exact Hd. }
  split.
  - destruct (ihex_write_records f address data Hf Hne Ha)
      as (f' & -> & Hcont & _).
    split; [exact Hcont|].
    intros k Hk a bytes count checksum.
    pose proof (chunk_range 32 data k ltac:(lia) Hk) as Hlen.
    pose proof (uint16_range (address + Z.of_nat k * 32)) as Hrange.
    split; [|split; [|split; [|split]]].
    + rewrite lookup_records by exact Hk. reflexivity.
    + apply printf_X_2_length. subst count bytes. lia.
    + apply printf_X_4_length. subst a. lia.
    + apply Hdigits.
    + apply printf_X_2_length. subst checksum. apply Z.mod_pos_bound. lia.
  - destruct (pap_write_records f address data Hf Hne Ha)
      as (f' & -> & Hcont & _).
    split; [exact Hcont|].
    intros k Hk a bytes count checksum.
    pose proof (chunk_range 24 data k ltac:(lia) Hk) as Hlen.
    pose proof (uint16_range (address + Z.of_nat k * 24)) as Hrange.
    assert (Hsum : 0 <= checksum < 65536).
    { pose proof (sum_bytes_range bytes (chunk_bytes 24 data k _ Hbytes)).
      pose proof (hi_byte_range a). pose proof (lo_byte_range a).
      unfold hi_byte, lo_byte in *. subst checksum count bytes. lia. }
    split; [|split; [|split; [|split; [|split]]]].
    + rewrite lookup_records by exact Hk. fold a. fold bytes.
      unfold pap_record, pap_checksum, hi_byte, lo_byte. fold count.
      fold checksum. rewrite (Z.mod_small checksum) by exact Hsum.
      reflexivity.
    + apply printf_X_2_length. subst count bytes. lia.
    + apply printf_X_4_length. subst a. lia.
    + apply Hdigits.
    + exact Hsum.
    + apply printf_X_4_length. exact Hsum.
Qed.

Lemma record_checksums_witness :
  contents (snd (ihex.ihex_write (mk_FILE [] []) 0x2000 [15])) =
  [] ++ concat (records ihex_record 32 0x2000 [15]).
Proof.
  apply (record_checksums (mk_FILE [] []) 0x2000 [15]).
  - apply Forall_nil. exact I.
  - discriminate.
  - lia.
  - repeat constructor; lia.
Defined.

(** C5, as amended.  A write of [N >= 1] bytes on which no call fails emits
    exactly ceil(N/L) records (L = 32 for Intel-hex, 24 for papertape) and
    returns that number reduced modulo 65536, the count being a [uint16_t]:
    it returns ceil(N/L) itself whenever this is at most 65535.  The caller
    adds each returned count to its running [lines], again in 16 bits, both
    when it writes a whole plane and when it writes a row. *)
Theorem writer_record_count f address data :
  no_fault f -> data <> [] -> 0 <= address < 65536 ->
  let n := Z.of_nat (length data) in
  (exists recs f',
     ihex.ihex_write f address data = (((n + 31) / 32) mod 65536, f') /\
     contents f' = contents f ++ concat recs /\
     recs = records ihex_record 32 address data /\
     Z.of_nat (length recs) = (n + 31) / 32 /\
     ((n + 31) / 32 <= 65535 ->
      fst (ihex.ihex_write f address data) = (n + 31) / 32)) /\
  (exists recs f',
     pap.pap_write f address data = (((n + 23) / 24) mod 65536, f') /\
     contents f' = contents f ++ concat recs /\
     recs = records pap_record 24 address data /\
     Z.of_nat (length recs) = (n + 23) / 24 /\
     ((n + 23) / 24 <= 65535 ->
      fst (pap.pap_write f address data) = (n + 23) / 24)) /\
  (forall (F : Type) (write_fn : F -> Z -> list Z -> Z * F)
          buffer base_address data_size x_size y_size cbit linenum
          (out : F) lines,
     fst (write_fn out address data) <> 0 ->
     (slice buffer (uint16 (cbit * CARD_MEMORY_SIZE)) data_size = Some data ->
      uint16 (base_address + uint16 (cbit * CARD_MEMORY_SIZE)) = address ->
      x_size > (MAX_COL_BYTES - 1) * 8 ->
      output_hex_plane write_fn buffer base_address data_size x_size y_size
                       cbit (out, lines) =
      Some (Continue (snd (write_fn out address data),
                      uint16 (lines + fst (write_fn out address data))))) /\
     (slice buffer (uint16 (cbit * CARD_MEMORY_SIZE)
                    + linenum * ((x_size + 7) / 8)) ((x_size + 7) / 8)
        = Some data ->
      uint16 (base_address + uint16 (cbit * CARD_MEMORY_SIZE)
              + uint16 (linenum * MAX_COL_BYTES)) = address ->
      output_hex_row write_fn buffer base_address
                     (uint16 (cbit * CARD_MEMORY_SIZE)) x_size linenum
                     (out, lines) =
      Some (Continue (snd (write_fn out address data),
                      uint16 (lines + fst (write_fn out address data)))))).
Proof.
  intros Hf Hne Ha n.
  assert (Hn : 0 < n) by (subst n; destruct data; [congruence|cbn [length]; lia]).
  split; [|split].
  - destruct (ihex_write_records f address data Hf Hne Ha)
      as (f' & Hrun & Hcont & _).
    exists (records ihex_record 32 address data), f'.
    unfold record_count, ihex.BYTES_PER_LINE, uint16 in Hrun. fold n in Hrun.
    replace (n + 32 - 1) with (n + 31) in Hrun by lia.
    split; [exact Hrun|]. split; [exact Hcont|]. split; [reflexivity|].
    split.
    + rewrite length_records. unfold record_count. fold n.
      replace (n + 32 - 1) with (n + 31) by lia.
      assert (0 <= (n + 31) / 32) by (apply Z.div_pos; lia). lia.
    + intros Hsmall. rewrite Hrun. cbn [fst]. apply Z.mod_small.
      split; [apply Z.div_pos; lia|lia].
  - destruct (pap_write_records f address data Hf Hne Ha)
      as (f' & Hrun & Hcont & _).
    exists (records pap_record 24 address data), f'.
    unfold record_count, pap.BYTES_PER_LINE, uint16 in Hrun. fold n in Hrun.
    replace (n + 24 - 1) with (n + 23) in Hrun by lia.
    split; [exact Hrun|]. split; [exact Hcont|]. split; [reflexivity|].
    split.
    + rewrite length_records. unfold record_count. fold n.
      replace (n + 24 - 1) with (n + 23) by lia.
      assert (0 <= (n + 23) / 24) by (apply Z.div_pos; lia). lia.
    + intros Hsmall. rewrite Hrun. cbn [fst]. apply Z.mod_small.
      split; [apply Z.div_pos; lia|lia].
  - intros F write_fn buffer base_address data_size x_size y_size cbit linenum
      out lines Hret.
    split.
    + intros Hslice Haddr Hflat. unfold output_hex_plane.
      rewrite (proj2 (Z.gtb_lt _ _)) by lia.
      rewrite Hslice. cbn [mbind option_bind]. rewrite Haddr.
      destruct (write_fn out address data) as [ret out'].
      cbn [fst snd] in *. rewrite (proj2 (Z.eqb_neq _ _) Hret). reflexivity.
    + intros Hslice Haddr. unfold output_hex_row.
      rewrite Hslice. cbn [mbind option_bind]. rewrite Haddr.
      destruct (write_fn out address data) as [ret out'].
      cbn [fst snd] in *. rewrite (proj2 (Z.eqb_neq _ _) Hret). reflexivity.
Qed.

Lemma writer_record_count_witness :
  exists recs f',
    ihex.ihex_write (mk_FILE [] []) 0x2000 [15] = (((1 + 31) / 32) mod 65536, f') /\
    contents f' = [] ++ concat recs /\
    recs = records ihex_record 32 0x2000 [15] /\
    Z.of_nat (length recs) = (1 + 31) / 32 /\
    ((1 + 31) / 32 <= 65535 ->
     fst (ihex.ihex_write (mk_FILE [] []) 0x2000 [15]) = (1 + 31) / 32).
Proof.
  apply (writer_record_count (mk_FILE [] []) 0x2000 [15]).
  - apply Forall_nil. exact I.
  - discriminate.
  - lia.
Defined.

(** C5 as stated fails once ceil(N/L) no longer fits the 16-bit count: for a
    buffer of 32 * 65536 zero bytes and a stream that never fails the
    Intel-hex writer returns 0, not the 65536 records it emits. *)
Lemma writer_record_count_wraps :
  let data := replicate (Z.to_nat 2097152) 0 in
  no_fault (mk_FILE [] []) /\
  1 <= Z.of_nat (length data) /\
  (Z.of_nat (length data) + 31) / 32 = 65536 /\
  fst (ihex.ihex_write (mk_FILE [] []) 0 data) = 0.
Proof.
  intros data.
  assert (Hlen : Z.of_nat (length data) = 2097152).
  { subst data. rewrite length_replicate. apply Z2Nat.id. lia. }
  split; [apply Forall_nil; exact I|]. split; [lia|].
  split; [rewrite Hlen; reflexivity|].
  destruct (ihex_write_records (mk_FILE [] []) 0 data) as (f' & Hrun & _).
  - apply Forall_nil. exact I.
  - intros Hnil. rewrite Hnil in Hlen. discriminate.
  - lia.
  - rewrite Hrun, Hlen. reflexivity.
Qed.

(** ** Loops with return *)

Lemma for_return_steps {S R : Type} (n : nat) :
  forall (idx : nat -> Z) fuel cond next
         (body : Z -> S -> option (flow S R)) s,
  (n < fuel)%nat ->
  (forall k, (k < n)%nat ->
     cond (idx k) = true /\ next (idx k) = idx (Datatypes.S k)) ->
  cond (idx n) = false ->
  for_return fuel cond next body (idx O) s = steps body (map idx (seq 0 n)) s.
Proof.
  induction n as [|n IH]; intros idx fuel cond next body s Hfuel Hrun Hstop.
  - destruct fuel as [|fuel]; [lia|]. simpl. rewrite Hstop. reflexivity.
  - destruct fuel as [|fuel]; [lia|]. cbn [for_return seq map steps].
    destruct (Hrun O) as [Hc Hn]; [lia|]. rewrite Hc, Hn.
    destruct (body (idx O) s) as [[s'|r]|]; try reflexivity.
    rewrite <- seq_shift, map_map.
    apply (IH (fun k => idx (Datatypes.S k))); [lia| |exact Hstop].
    intros k Hk. apply Hrun. lia.
Qed.

(** What holds of the state when the loop is entered and is kept by each
    iteration that goes on holds when the loop is left; a result that an
    iteration returns is one that the body can return. *)
Lemma for_return_inv {S R : Type} (P : S -> Prop) (Q : R -> Prop) fuel :
  forall cond next (body : Z -> S -> option (flow S R)) i s res,
  P s ->
  (forall i s, P s ->
     match body i s with
     | Some (Continue s') => P s'
     | Some (Return r) => Q r
     | None => True
     end) ->
  for_return fuel cond next body i s = Some res ->
  match res with Continue s' => P s' | Return r => Q r end.
Proof.
  induction fuel as [|fuel IH]; intros cond next body i s res Hs Hbody Hrun.
  - discriminate.
  - cbn [for_return] in Hrun. destruct (cond i).
    + specialize (Hbody i s Hs) as Hb.
      destruct (body i s) as [[s'|r]|]; [|injection Hrun as <-; exact Hb|discriminate].
      eapply IH; eassumption.
    + injection Hrun as <-. exact Hs.
Qed.

(** ** output_hex makes the writes of [hex_calls] *)

Lemma run_writes_app {F : Type} (write_fn : F -> Z -> list Z -> Z * F) data
    (l1 l2 : list write_call) st :
  run_writes write_fn data (l1 ++ l2) st =
  match run_writes write_fn data l1 st with
  | Some (Continue st') => run_writes write_fn data l2 st'
  | r => r
  end.
Proof.
  revert st. induction l1 as [|c l1 IH]; intros st; [reflexivity|].
  cbn [app run_writes].
  destruct (slice data (call_offset c) (call_size c)) as [bytes|];
    [|reflexivity].
  cbn [mbind option_bind].
  destruct (write_fn (fst st) (call_address c) bytes) as [ret out].
  destruct (ret =? 0); [reflexivity|]. apply IH.
Qed.

Lemma steps_run_writes {F : Type} (write_fn : F -> Z -> list Z -> Z * F) data
    (body : Z -> F * Z -> option (flow (F * Z) (bool * F)))
    (calls_of : nat -> list write_call) (l : list nat) :
  (forall i st, In i l ->
     body (Z.of_nat i) st = run_writes write_fn data (calls_of i) st) ->
  forall st,
  steps body (map Z.of_nat l) st =
  run_writes write_fn data (flat_map calls_of l) st.
Proof.
  induction l as [|i l IH]; intros Hbody st; [reflexivity|].
  cbn [map steps flat_map]. rewrite run_writes_app.
  rewrite Hbody by (left; reflexivity).
  destruct (run_writes write_fn data (calls_of i) st) as [[st'|r]|];
    try reflexivity.
  apply IH. intros j st'' Hj. apply Hbody. right. exact Hj.
Qed.

Lemma flat_map_singleton {A B : Type} (f : A -> B) (l : list A) :
  flat_map (fun x => [f x]) l = map f l.
Proof. induction l as [|x l IH]; [reflexivity|]. simpl. rewrite IH. reflexivity. Qed.

Section output_hex_calls.

Context {F : Type}.
Variable write_fn : F -> Z -> list Z -> Z * F.
Variable terminate_fn : F -> Z -> bool * F.

Lemma output_hex_row_call data base_address cbit x_size (linenum : nat) st :
  0 <= cbit <= 7 -> (Z.of_nat linenum <= 1638) ->
  output_hex_row write_fn data base_address (uint16 (cbit * CARD_MEMORY_SIZE))
                 x_size (Z.of_nat linenum) st =
  run_writes write_fn data
    [mk_call (uint16 (base_address + cbit * CARD_MEMORY_SIZE
                      + Z.of_nat linenum * MAX_COL_BYTES))
             (cbit * CARD_MEMORY_SIZE + Z.of_nat linenum * row_bytes x_size)
             (row_bytes x_size)] st.
Proof.
  intros Hcbit Hline. unfold output_hex_row. destruct st as [out lines].
  cbn [run_writes call_offset call_size call_address fst snd].
  fold (row_bytes x_size).
  rewrite (uint16_small (cbit * CARD_MEMORY_SIZE))
    by (unfold CARD_MEMORY_SIZE; lia).
  rewrite (uint16_small (Z.of_nat linenum * MAX_COL_BYTES))
    by (unfold MAX_COL_BYTES; lia).
  destruct (slice data _ _) as [bytes|]; [|reflexivity].
  cbn [mbind option_bind].
  destruct (write_fn out _ bytes) as [ret out'].
  destruct (ret =? 0); reflexivity.
Qed.

Lemma output_hex_plane_calls data base_address data_size x_size y_size
    (cbit : nat) st :
  Z.of_nat cbit <= 7 -> 0 <= y_size <= 1639 ->
  output_hex_plane write_fn data base_address data_size x_size y_size
                   (Z.of_nat cbit) st =
  run_writes write_fn data
    (plane_calls base_address data_size x_size y_size (Z.of_nat cbit)) st.
Proof.
  intros Hcbit Hy. unfold output_hex_plane, plane_calls.
  destruct st as [out lines].
  destruct (x_size >? (MAX_COL_BYTES - 1) * 8).
  - cbn [run_writes call_offset call_size call_address fst snd].
    rewrite (uint16_small (Z.of_nat cbit * CARD_MEMORY_SIZE))
      by (unfold CARD_MEMORY_SIZE; lia).
    destruct (slice data _ _) as [bytes|]; [|reflexivity].
    cbn [mbind option_bind].
    destruct (write_fn out _ bytes) as [ret out'].
    destruct (ret =? 0); reflexivity.
  - rewrite (for_return_steps (Z.to_nat y_size) Z.of_nat).
    + rewrite (steps_run_writes write_fn data _
                 (fun linenum : nat =>
                    [mk_call (uint16 (base_address
                                      + Z.of_nat cbit * CARD_MEMORY_SIZE
                                      + Z.of_nat linenum * MAX_COL_BYTES))
                             (Z.of_nat cbit * CARD_MEMORY_SIZE
                              + Z.of_nat linenum * row_bytes x_size)
                             (row_bytes x_size)])).
      * rewrite flat_map_singleton. reflexivity.
      * intros i st Hi. apply in_seq in Hi.
        apply output_hex_row_call; lia.
    + unfold uint16_fuel. lia.
    + intros k Hk. split; [apply Z.ltb_lt; lia|].
      rewrite uint16_small by lia. lia.
    + apply Z.ltb_ge. lia.
Qed.

(** The two loops of [output_hex] make the writes of [hex_calls], in this
    order, up to the first that returns 0. *)
Lemma output_hex_loop_calls data base_address data_size color_bits x_size
    y_size st :
  0 <= color_bits <= 8 -> 0 <= y_size <= 1639 ->
  for_return (Datatypes.S (Z.to_nat color_bits))
             (fun cbit => cbit <? color_bits) (fun cbit => cbit + 1)
             (output_hex_plane write_fn data base_address data_size x_size
                               y_size) 0 st =
  run_writes write_fn data
    (hex_calls base_address data_size color_bits x_size y_size) st.
Proof.
  intros Hcb Hy. unfold hex_calls.
  rewrite (for_return_steps (Z.to_nat color_bits) Z.of_nat).
  - apply (steps_run_writes write_fn data _
             (fun cbit => plane_calls base_address data_size x_size y_size
                            (Z.of_nat cbit))).
    intros i st' Hi. apply in_seq in Hi.
    apply output_hex_plane_calls; lia.
  - lia.
  - intros k Hk. split; [apply Z.ltb_lt; lia|lia].
  - apply Z.ltb_ge. lia.
Qed.

(** Then the stream is terminated. *)
Lemma output_hex_calls data base_address out data_size color_bits x_size
    y_size :
  0 <= color_bits <= 8 -> 0 <= y_size <= 1639 ->
  output_hex write_fn terminate_fn data base_address (Some out) data_size
             color_bits x_size y_size =
  match run_writes write_fn data
          (hex_calls base_address data_size color_bits x_size y_size)
          (out, 0) with
  | Some (Continue (out', lines)) =>
      let '(result, f) := terminate_fn out' lines in Some (result, Some f)
  | Some (Return (result, out')) => Some (result, Some out')
  | None => None
  end.
Proof.
  intros Hcb Hy. unfold output_hex.
  rewrite output_hex_loop_calls by assumption.
  destruct (run_writes _ _ _ _) as [[[out' lines]|[result out']]|];
    reflexivity.
Qed.

End output_hex_calls.

(** ** A stream only grows *)

Lemma extends_refl f : extends f f.
Proof. exists []. rewrite app_nil_r. reflexivity. Qed.

Lemma extends_trans f1 f2 f3 : extends f1 f2 -> extends f2 f3 -> extends f1 f3.
Proof.
  intros [s1 H1] [s2 H2]. exists (s1 ++ s2).
  rewrite H2, H1, app_assoc. reflexivity.
Qed.

Lemma fprintf_extends f s : extends f (snd (fprintf f s)).
Proof.
  unfold fprintf. destruct (faults f) as [|[] fs]; cbn [snd contents].
  - exists s. reflexivity.
  - exists []. cbn [contents]. rewrite app_nil_r. reflexivity.
  - exists s. reflexivity.
Qed.

(** A call of [fprintf] that does not fail appends its text. *)
Lemma fprintf_success f s r f' :
  fprintf f s = (r, f') -> (0 >? r) = false -> contents f' = contents f ++ s.
Proof.
  unfold fprintf. destruct (faults f) as [|[] fs]; intros [= <- <-] Hr;
    try reflexivity.
  discriminate.
Qed.

Ltac split_writes_extends :=
  repeat first
    [ progress cbv beta iota zeta
    | progress change (0 >? 0) with false
    | match goal with
      | |- context [fprintf ?f ?s] =>
          let r := fresh "r" in
          let f' := fresh "f" in
          let H := fresh "Hext" in
          pose proof (fprintf_extends f s) as H;
          destruct (fprintf f s) as [r f']; cbn [snd] in H;
          destruct (0 >? r)
      end ].

Lemma write_loop_extends per_line modulus mark kind show data_size data :
  forall byte_num checksum lines address f,
  extends f (snd (write_loop per_line modulus mark kind show data_size data
                             byte_num checksum lines address f)).
Proof.
  induction data as [|d rest IH]; intros; cbn [write_loop].
  - split_writes_extends; assumption.
  - destruct (byte_num mod per_line =? 0);
      [destruct (byte_num =? 0)|]; split_writes_extends; cbn [snd];
      eauto using extends_trans, extends_refl.
Qed.

Lemma ihex_write_extends f address data :
  extends f (snd (ihex.ihex_write f address data)).
Proof.
  unfold ihex.ihex_write. rewrite ihex_write_loop_shared.
  apply write_loop_extends.
Qed.

Lemma pap_write_extends f address data :
  extends f (snd (pap.pap_write f address data)).
Proof.
  unfold pap.pap_write. rewrite pap_write_loop_shared.
  apply write_loop_extends.
Qed.

Section output_hex_extends.

Variable write_fn : FILE -> Z -> list Z -> Z * FILE.
Hypothesis write_fn_extends :
  forall f address data, extends f (snd (write_fn f address data)).

Let kept (out : FILE) (st : FILE * Z) : Prop :=
  extends out (fst st) /\ 0 <= snd st < 65536.

Let failed (r : bool * FILE) : Prop := fst r = false.

Lemma output_hex_row_kept out data base_address cbit_offset x_size linenum st :
  kept out st ->
  match output_hex_row write_fn data base_address cbit_offset x_size linenum
                       st with
  | Some (Continue st') => kept out st'
  | Some (Return r) => failed r
  | None => True
  end.
Proof.
  intros [Hext Hlines]. unfold output_hex_row. destruct st as [f lines].
  destruct (slice data _ _) as [bytes|]; [|exact I].
  cbn [mbind option_bind].
  pose proof (write_fn_extends f
    (uint16 (base_address + cbit_offset + uint16 (linenum * MAX_COL_BYTES)))
    bytes) as Hw.
  destruct (write_fn f _ bytes) as [ret f']. cbn [snd fst] in *.
  destruct (ret =? 0); [reflexivity|].
  split; [eapply extends_trans; eassumption|apply uint16_range].
Qed.

Lemma output_hex_plane_kept out data base_address data_size x_size y_size
    cbit st :
  kept out st ->
  match output_hex_plane write_fn data base_address data_size x_size y_size
                         cbit st with
  | Some (Continue st') => kept out st'
  | Some (Return r) => failed r
  | None => True
  end.
Proof.
  intros Hst. unfold output_hex_plane. destruct st as [f lines].
  destruct (x_size >? (MAX_COL_BYTES - 1) * 8).
  - destruct Hst as [Hext Hlines].
    destruct (slice data _ _) as [bytes|]; [|exact I].
    cbn [mbind option_bind].
    pose proof (write_fn_extends f
      (uint16 (base_address + uint16 (cbit * CARD_MEMORY_SIZE))) bytes) as Hw.
    destruct (write_fn f _ bytes) as [ret f']. cbn [snd fst] in *.
    destruct (ret =? 0); [reflexivity|].
    split; [eapply extends_trans; eassumption|apply uint16_range].
  - destruct (for_return _ _ _ _ _ _) as [res|] eqn:Hrun; [|exact I].
    apply (for_return_inv (kept out) failed _ _ _ _ _ _ _ Hst) in Hrun;
      [exact Hrun|].
    intros i s Hs. apply output_hex_row_kept. exact Hs.
Qed.

(** A call of [output_hex] that returns [true] has run both loops to their
    end and terminated the stream with the running [lines], which the stream
    held before the terminator together with all that was there at first. *)
Lemma output_hex_true terminate_fn data base_address out data_size color_bits
    x_size y_size out' :
  output_hex write_fn terminate_fn data base_address (Some out) data_size
             color_bits x_size y_size = Some (true, Some out') ->
  exists out1 lines,
    for_return (Datatypes.S (Z.to_nat color_bits))
               (fun cbit => cbit <? color_bits) (fun cbit => cbit + 1)
               (output_hex_plane write_fn data base_address data_size x_size
                                 y_size) 0 (out, 0)
      = Some (Continue (out1, lines)) /\
    extends out out1 /\ 0 <= lines < 65536 /\
    terminate_fn out1 lines = (true, out').
Proof.
  unfold output_hex. intros Hrun.
  destruct (for_return _ _ _ _ _ _) as [res|] eqn:Hloop; [|discriminate].
  cbn [mbind option_bind] in Hrun.
  pose proof Hloop as Hinv.
  apply (for_return_inv (kept out) failed) in Hinv.
  - destruct res as [[out1 lines]|[result out1]].
    + destruct Hinv as [Hext Hlines]. cbn [fst snd] in *.
      exists out1, lines. split; [reflexivity|].
      split; [exact Hext|]. split; [exact Hlines|].
      destruct (terminate_fn out1 lines) as [result f].
      injection Hrun as -> ->. reflexivity.
    + unfold failed in Hinv. cbn [fst] in Hinv. congruence.
  - split; [apply extends_refl|cbn [snd]; lia].
  - intros i s Hs. apply output_hex_plane_kept. exact Hs.
Qed.

End output_hex_extends.

(** ** Terminators *)

Lemma ihex_terminate_true f lines f' :
  ihex.ihex_terminate f lines = (true, f') ->
  contents f' = contents f ++ str ":00000001FF" ++ nl.
Proof.
  unfold ihex.ihex_terminate, fputs.
  destruct (fprintf f (str ":00000001FF" ++ nl)) as [r f1] eqn:Hw.
  destruct (EOF =? r) eqn:Hr; intros [= <-].
  apply (fprintf_success _ _ _ _ Hw).
  unfold fprintf in Hw. destruct (faults f) as [|[] fs]; injection Hw as <- _;
    try reflexivity.
  discriminate.
Qed.

Lemma pap_terminate_true f lines f' :
  pap.pap_terminate f lines = (true, f') ->
  contents f' =
  contents f ++ str ";00" ++ printf_X 4 lines
  ++ printf_X 4 (Z.land (Z.shiftr lines 8) 0xFF + Z.land lines 0xFF) ++ nl.
Proof.
  unfold pap.pap_terminate.
  destruct (fprintf f _) as [r f1] eqn:Hw.
  destruct (0 >? r) eqn:Hr; cbn [Z.b2z]; intros [= <-].
  rewrite (fprintf_success _ _ _ _ Hw Hr), <- ?app_assoc. reflexivity.
Qed.



(** ** Row mode and flat mode *)

Lemma lookup_flat_map_rows {A B : Type} (f : A -> list B) (h : nat)
    (l : list A) :
  (forall x, length (f x) = h) ->
  forall (i j : nat), (j < h)%nat ->
  flat_map f l !! (i * h + j)%nat = l !! i ≫= fun x => f x !! j.
Proof.
  intros Hlen. induction l as [|x l IH]; intros i j Hj.
  - cbn [flat_map]. rewrite !lookup_nil. reflexivity.
  - cbn [flat_map]. destruct i as [|i].
    + rewrite Nat.mul_0_l, Nat.add_0_l.
      rewrite lookup_app_l by (rewrite Hlen; exact Hj). reflexivity.
    + rewrite lookup_app_r by (rewrite Hlen; lia).
      rewrite Hlen.
      replace (Datatypes.S i * h + j - h)%nat with (i * h + j)%nat by lia.
      apply IH. exact Hj.
Qed.

Lemma length_flat_map_rows {A B : Type} (f : A -> list B) (h : nat)
    (l : list A) :
  (forall x, length (f x) = h) -> length (flat_map f l) = (length l * h)%nat.
Proof.
  intros Hlen. induction l as [|x l IH]; [reflexivity|].
  cbn [flat_map length]. rewrite length_app, Hlen, IH. lia.
Qed.

(** ** The text that a list of writes makes *)

Section run_writes_records.

Variable write_fn : FILE -> Z -> list Z -> Z * FILE.
Variable render : Z -> list Z -> text.
Variable per_line : Z.

Hypothesis write_fn_records :
  forall f address data,
  no_fault f -> data <> [] -> 0 <= address < 65536 ->
  exists f',
    write_fn f address data =
      (uint16 (record_count per_line (Z.of_nat (length data))), f') /\
    contents f' = contents f ++ concat (records render per_line address data) /\
    no_fault f'.

Hypothesis per_line_pos : 0 < per_line.

Lemma run_writes_records data calls :
  Forall (call_ok per_line data) calls ->
  forall out lines,
  no_fault out -> 0 <= lines < 65536 ->
  exists out',
    run_writes write_fn data calls (out, lines) =
      Some (Continue (out', uint16 (lines + calls_lines per_line data calls))) /\
    contents out' = contents out ++ calls_text render per_line data calls /\
    no_fault out'.
Proof.
  induction 1 as [|c calls (Ha & Hslice & Hcount) _ IH];
    intros out lines Hout Hlines.
  - exists out. cbn [run_writes calls_lines calls_text foldr map concat].
    rewrite Z.add_0_r, app_nil_r, uint16_small by exact Hlines. auto.
  - cbn [run_writes fst snd]. unfold call_bytes in Hcount.
    destruct (slice data (call_offset c) (call_size c)) as [bytes|] eqn:Hbytes;
      [|congruence].
    cbn [default from_option id mbind option_bind] in *.
    assert (Hne : bytes <> []).
    { intros ->. cbn [length] in Hcount. unfold record_count in Hcount.
      change (Z.of_nat 0) with 0 in Hcount.
      rewrite (Z.div_small (0 + per_line - 1)) in Hcount by lia. lia. }
    destruct (write_fn_records out (call_address c) bytes Hout Hne Ha)
      as (out1 & Hrun & Hcont & Hout1).
    rewrite Hrun. rewrite uint16_small by lia.
    rewrite (proj2 (Z.eqb_neq _ 0)) by lia.
    destruct (IH out1 (uint16 (lines
                + record_count per_line (Z.of_nat (length bytes)))) Hout1
                (uint16_range _))
      as (out' & Hrest & Hcont' & Hout').
    exists out'. rewrite Hrest. split; [|split; [|exact Hout']].
    + do 3 f_equal. rewrite uint16_idemp_add.
      cbn [calls_lines foldr]. fold (calls_lines per_line data calls).
      unfold call_bytes. rewrite Hbytes. cbn [default from_option id].
      f_equal. lia.
    + rewrite Hcont', Hcont. unfold calls_text. cbn [map concat].
      unfold call_bytes at 2. rewrite Hbytes. cbn [default from_option id].
      rewrite <- app_assoc. reflexivity.
Qed.

End run_writes_records.

Lemma slice_in_range (data : list Z) off size :
  0 <= off -> 0 <= size -> off + size <= Z.of_nat (length data) ->
  slice data off size = Some (take (Z.to_nat size) (drop (Z.to_nat off) data)) /\
  Z.of_nat (length (take (Z.to_nat size) (drop (Z.to_nat off) data))) = size.
Proof.
  intros Hoff Hsize Hend. unfold slice.
  rewrite bool_decide_eq_true_2 by lia. split; [reflexivity|].
  rewrite length_take, length_drop. lia.
Qed.

Lemma calls_lines_const per_line data calls n :
  Forall (fun c => Z.of_nat (length (call_bytes data c)) = n) calls ->
  calls_lines per_line data calls
  = Z.of_nat (length calls) * record_count per_line n.
Proof.
  induction 1 as [|c calls Hc _ IH]; cbn [calls_lines foldr length].
  - lia.
  - fold (calls_lines per_line data calls). rewrite IH, Hc. lia.
Qed.

(** The writes of row mode stay inside the combined buffer and are of
    [row_bytes x_size] bytes each. *)
Lemma row_mode_calls_ok (data : list Z) base_address data_size color_bits
    x_size y_size :
  1 <= x_size <= (MAX_COL_BYTES - 1) * 8 ->
  0 <= color_bits <= MAX_CARDS -> 0 <= y_size <= MAX_ROWS ->
  Z.of_nat (length data) = MAX_CARDS * CARD_MEMORY_SIZE ->
  Forall (fun c =>
            0 <= call_address c < 65536 /\
            slice data (call_offset c) (call_size c) <> None /\
            Z.of_nat (length (call_bytes data c)) = row_bytes x_size)
         (hex_calls base_address data_size color_bits x_size y_size).
Proof.
  unfold MAX_COL_BYTES, MAX_CARDS, MAX_ROWS, CARD_MEMORY_SIZE.
  intros Hx Hcb Hy Hlen.
  assert (HW : 1 <= row_bytes x_size <= 39)
    by (unfold row_bytes; Z.div_mod_to_equations; lia).
  apply List.Forall_forall. intros c Hc.
  apply in_flat_map in Hc as (cbit & Hcbit & Hc). apply in_seq in Hcbit.
  unfold plane_calls in Hc.
  rewrite Z.gtb_ltb, (proj2 (Z.ltb_ge _ _)) in Hc
    by (unfold MAX_COL_BYTES; lia).
  apply in_map_iff in Hc as (linenum & <- & Hlinenum).
  apply in_seq in Hlinenum.
  cbn [call_address call_offset call_size]. unfold call_bytes.
  cbn [call_offset call_size]. unfold CARD_MEMORY_SIZE.
  destruct (slice_in_range data
              (Z.of_nat cbit * 8192 + Z.of_nat linenum * row_bytes x_size)
              (row_bytes x_size)) as [-> Hn]; try nia.
  split; [apply uint16_range|]. split; [discriminate|exact Hn].
Qed.

Lemma ihex_terminate_no_fault f lines :
  no_fault f ->
  ihex.ihex_terminate f lines = (true, written f (str ":00000001FF" ++ nl)).
Proof.
  intros Hf. unfold ihex.ihex_terminate, fputs.
  rewrite fprintf_no_fault by exact Hf. reflexivity.
Qed.

Lemma pap_terminate_no_fault f lines :
  no_fault f ->
  pap.pap_terminate f lines =
  (true, written f (str ";00" ++ printf_X 4 lines
                    ++ printf_X 4 (Z.land (Z.shiftr lines 8) 0xFF
                                   + Z.land lines 0xFF) ++ nl)).
Proof.
  intros Hf. unfold pap.pap_terminate.
  rewrite fprintf_no_fault by exact Hf. rewrite length_not_negative.
  reflexivity.
Qed.

(** C3, as amended.  Row mode: when the width is at most 312 pixels,
    [output_hex] makes, for each plane b and within it for each row r, in
    this order, one separate write of ceil(width/8) bytes taken at offset
    b*8192 + r*ceil(width/8) of the combined buffer, with start address
    (base_address + b*8192 + r*40) mod 65536, the address being 16 bits wide;
    this is base_address + b*8192 + r*40 itself whenever that is below 65536.
    The first write that fails ends the call, and the stream is terminated
    after the last.  On a stream that does not fail the output is, write
    after write, the records of the bytes of that write alone, so that each
    row starts a new record, and then the terminator. *)
Theorem output_hex_row_mode {F : Type}
    (write_fn : F -> Z -> list Z -> Z * F)
    (terminate_fn : F -> Z -> bool * F)
    data base_address out data_size color_bits x_size y_size :
  x_size <= (MAX_COL_BYTES - 1) * 8 ->
  0 <= color_bits <= MAX_CARDS -> 0 <= y_size <= MAX_ROWS ->
  let calls := hex_calls base_address data_size color_bits x_size y_size in
  output_hex write_fn terminate_fn data base_address (Some out) data_size
             color_bits x_size y_size =
    match run_writes write_fn data calls (out, 0) with
    | Some (Continue (out', lines)) =>
        let '(result, f) := terminate_fn out' lines in Some (result, Some f)
    | Some (Return (result, out')) => Some (result, Some out')
    | None => None
    end /\
  Z.of_nat (length calls) = color_bits * y_size /\
  (forall cbit linenum : nat,
     Z.of_nat cbit < color_bits -> Z.of_nat linenum < y_size ->
     let sum := base_address + Z.of_nat cbit * 8192 + Z.of_nat linenum * 40 in
     calls !! (cbit * Z.to_nat y_size + linenum)%nat =
       Some (mk_call (sum mod 65536)
                     (Z.of_nat cbit * 8192
                      + Z.of_nat linenum * ((x_size + 7) / 8))
                     ((x_size + 7) / 8)) /\
     (0 <= sum < 65536 -> sum mod 65536 = sum)) /\
  (1 <= x_size ->
   Z.of_nat (length data) = MAX_CARDS * CARD_MEMORY_SIZE ->
   Forall (fun c => call_bytes data c =
                    take (Z.to_nat (call_size c))
                         (drop (Z.to_nat (call_offset c)) data) /\
                    Z.of_nat (length (call_bytes data c)) = (x_size + 7) / 8)
          calls /\
   forall f, no_fault f ->
     (exists f',
        output_ihex data base_address (Some f) data_size color_bits x_size
                    y_size = Some (true, Some f') /\
        contents f' =
          contents f ++ calls_text ihex_record 32 data calls
          ++ str ":00000001FF" ++ nl) /\
     (exists f',
        output_pap data base_address (Some f) data_size color_bits x_size
                   y_size = Some (true, Some f') /\
        let lines := color_bits * y_size * (((x_size + 7) / 8 + 23) / 24) in
        contents f' =
          contents f ++ calls_text pap_record 24 data calls
          ++ str ";00" ++ printf_X 4 lines
          ++ printf_X 4 (Z.land (Z.shiftr lines 8) 0xFF + Z.land lines 0xFF)
          ++ nl)).
Proof.
  intros Hrow Hcb Hy calls.
  assert (Hplane : forall cbit : nat,
            plane_calls base_address data_size x_size y_size (Z.of_nat cbit) =
            map (fun linenum : nat =>
                   mk_call (uint16 (base_address + Z.of_nat cbit * CARD_MEMORY_SIZE
                                    + Z.of_nat linenum * MAX_COL_BYTES))
                           (Z.of_nat cbit * CARD_MEMORY_SIZE
                            + Z.of_nat linenum * row_bytes x_size)
                           (row_bytes x_size))
                (seq 0 (Z.to_nat y_size))).
  { intros cbit. unfold plane_calls.
    rewrite Z.gtb_ltb, (proj2 (Z.ltb_ge _ _)) by exact Hrow.
    reflexivity. }
  assert (Hlen : forall cbit : nat,
            length (plane_calls base_address data_size x_size y_size
                                (Z.of_nat cbit)) = Z.to_nat y_size).
  { intros cbit. rewrite Hplane, length_map, length_seq. reflexivity. }
  assert (Hcount : Z.of_nat (length calls) = color_bits * y_size).
  { subst calls. unfold hex_calls.
    rewrite (length_flat_map_rows _ (Z.to_nat y_size)) by exact Hlen.
    rewrite length_seq. unfold MAX_CARDS, MAX_ROWS in *. nia. }
  unfold MAX_CARDS, MAX_ROWS in Hcb, Hy.
  split; [apply output_hex_calls; lia|]. split; [exact Hcount|]. split.
  - intros cbit linenum Hcbit Hlinenum. split; [|apply Z.mod_small].
    subst calls. unfold hex_calls.
    rewrite (lookup_flat_map_rows _ (Z.to_nat y_size)) by (try exact Hlen; lia).
    rewrite (proj2 (lookup_seq 0 _ cbit cbit)) by (split; [reflexivity|lia]).
    cbn [mbind option_bind]. rewrite Hplane, lookup_map.
    rewrite (proj2 (lookup_seq 0 _ linenum linenum))
      by (split; [reflexivity|lia]).
    reflexivity.
  - intros Hx Hdata.
    pose proof (row_mode_calls_ok data base_address data_size color_bits
                  x_size y_size ltac:(lia)
                  ltac:(unfold MAX_CARDS; lia) ltac:(unfold MAX_ROWS; lia)
                  Hdata) as Hok.
    fold calls in Hok. fold (row_bytes x_size).
    assert (HW : 1 <= row_bytes x_size <= 39)
      by (unfold row_bytes, MAX_COL_BYTES in *; Z.div_mod_to_equations; lia).
    assert (Hsize : Forall (fun c => call_size c = row_bytes x_size
                                     /\ 0 <= call_offset c) calls).
    { apply List.Forall_forall. intros c Hc. subst calls.
      apply in_flat_map in Hc as (cbit & _ & Hc). rewrite Hplane in Hc.
      apply in_map_iff in Hc as (linenum & <- & _).
      cbn [call_size call_offset]. unfold CARD_MEMORY_SIZE.
      split; [reflexivity|lia]. }
    split.
    { apply List.Forall_forall. intros c Hc.
      pose proof (proj1 (List.Forall_forall _ _) Hok c Hc) as (_ & Hs & Hn).
      pose proof (proj1 (List.Forall_forall _ _) Hsize c Hc) as [Hcs Hoff].
      split; [|exact Hn].
      unfold call_bytes, slice in *.
      destruct (bool_decide _); [reflexivity|congruence]. }
    assert (Hlines : forall L,
              calls_lines L data calls
              = color_bits * y_size * record_count L (row_bytes x_size)).
    { intros L. rewrite (calls_lines_const L data calls (row_bytes x_size)).
      - rewrite Hcount. reflexivity.
      - eapply Forall_impl; [exact Hok|]. intros c (_ & _ & Hn). exact Hn. }
    intros f Hf. split.
    + destruct (run_writes_records ihex.ihex_write ihex_record
                  ihex.BYTES_PER_LINE ihex_write_records
                  ltac:(unfold ihex.BYTES_PER_LINE; lia) data calls)
        with (out := f) (lines := 0) as (f1 & Hrun & Hcont & Hf1);
        [|exact Hf|lia|].
      { eapply Forall_impl; [exact Hok|]. intros c (Ha & Hs & Hn).
        split; [exact Ha|]. split; [exact Hs|]. rewrite Hn.
        unfold record_count, ihex.BYTES_PER_LINE.
        Z.div_mod_to_equations. lia. }
      unfold output_ihex. rewrite output_hex_calls by lia. fold calls.
      rewrite Hrun. rewrite ihex_terminate_no_fault by exact Hf1.
      eexists. split; [reflexivity|].
      cbn [written contents]. rewrite Hcont, <- !app_assoc. reflexivity.
    + destruct (run_writes_records pap.pap_write pap_record
                  pap.BYTES_PER_LINE pap_write_records
                  ltac:(unfold pap.BYTES_PER_LINE; lia) data calls)
        with (out := f) (lines := 0) as (f1 & Hrun & Hcont & Hf1);
        [|exact Hf|lia|].
      { eapply Forall_impl; [exact Hok|]. intros c (Ha & Hs & Hn).
        split; [exact Ha|]. split; [exact Hs|]. rewrite Hn.
        unfold record_count, pap.BYTES_PER_LINE.
        Z.div_mod_to_equations. lia. }
      unfold output_pap. rewrite output_hex_calls by lia. fold calls.
      rewrite Hrun. rewrite pap_terminate_no_fault by exact Hf1.
      eexists. split; [reflexivity|].
      cbv zeta. cbn [written contents]. rewrite Hcont, <- !app_assoc.
      rewrite Z.add_0_l, Hlines.
      unfold record_count, pap.BYTES_PER_LINE.
      replace (row_bytes x_size + 24 - 1) with (row_bytes x_size + 23) by lia.
      rewrite uint16_small; [reflexivity|].
      assert (1 <= (row_bytes x_size + 23) / 24 <= 2)
        by (Z.div_mod_to_equations; lia).
      nia.
Qed.

Lemma output_hex_row_mode_witness :
  Z.of_nat (length (hex_calls 0x2000 2 2 8 1)) = 2 * 1.
Proof.
  refine (proj1 (proj2 (output_hex_row_mode trace_write trace_terminate
                          (replicate (Z.to_nat 32768) 0) 0x2000 [] 2 2 8 1
                          _ _ _))).
  - unfold MAX_COL_BYTES. lia.
  - unfold MAX_CARDS. lia.
  - unfold MAX_ROWS. lia.
Defined.

(** C3 as stated fails where the sum leaves the 16 bits of an address: with
    the highest base address that is accepted (0xA000) and four planes, the
    write for plane 3, row 0 is made with start address 0 (and the Intel-hex
    record carries 0000), not with 0xA000 + 3*8192 + 0*40 = 65536. *)
Lemma output_hex_row_address_wraps :
  let buffer := replicate (Z.to_nat 32768) 0 in
  MIN_BASE_ADDRESS <= 0xA000 <= MAX_BASE_ADDRESS /\
  0xA000 mod CARD_MEMORY_SIZE = 0 /\
  output_hex trace_write trace_terminate buffer 0xA000 (Some []) 4 4 8 1 =
    Some (true, Some [(0xA000, [0]); (0xC000, [0]); (0xE000, [0]); (0, [0])]) /\
  0 <> 0xA000 + 3 * 8192 + 0 * 40 /\
  option_map (fun r => (fst r, string_of_list_ascii <$> (contents <$> snd r)))
    (output_ihex buffer 0xA000 (Some (mk_FILE [] [])) 4 4 8 1) =
    Some (true,
          Some (string_of_list_ascii
                  (str ":01A00000005F" ++ nl ++ str ":01C00000003F" ++ nl
                   ++ str ":01E00000001F" ++ nl ++ str ":0100000000FF" ++ nl
                   ++ str ":00000001FF" ++ nl))).
Proof. vm_compute. repeat split; try discriminate; reflexivity. Qed.

Lemma color_bits_of_range ncolors :
  1 <= ncolors <= MAX_PALETTE_SIZE -> 0 <= color_bits_of ncolors <= 4.
Proof.
  unfold MAX_PALETTE_SIZE, color_bits_of. intros Hn.
  split; [apply Z.log2_nonneg|].
  change 4 with (Z.log2 16). apply Z.log2_le_mono. lia.
Qed.

(** Flat mode as main runs it: each plane is written with the [data_size]
    that [convert_to_layers] returns, which counts the bytes of all the
    planes. *)
Lemma convert_and_output_flat {F : Type}
    (write_fn : F -> Z -> list Z -> Z * F)
    (terminate_fn : F -> Z -> bool * F)
    raw_image converted_image ncolors x_size y_size base_address out :
  (MAX_COL_BYTES - 1) * 8 < x_size <= MAX_COL_BYTES * 8 ->
  1 <= y_size <= MAX_ROWS ->
  1 <= ncolors <= MAX_PALETTE_SIZE ->
  Z.of_nat (length raw_image) = x_size * y_size ->
  Z.of_nat (length converted_image) = MAX_CARDS * CARD_MEMORY_SIZE ->
  let color_bits := color_bits_of ncolors in
  let data_size := color_bits * (row_bytes x_size * y_size) in
  exists converted,
    convert_to_layers raw_image converted_image color_bits x_size y_size
      = Some (converted, data_size) /\
    convert_and_output (output_hex write_fn terminate_fn) raw_image
      converted_image ncolors x_size y_size base_address (Some out) =
    match run_writes write_fn converted
            (map (fun cbit : nat =>
                    mk_call (uint16 (base_address
                                     + Z.of_nat cbit * CARD_MEMORY_SIZE))
                            (Z.of_nat cbit * CARD_MEMORY_SIZE) data_size)
                 (seq 0 (Z.to_nat color_bits)))
            (out, 0) with
    | Some (Continue (out', lines)) =>
        let '(result, f) := terminate_fn out' lines in Some (result, Some f)
    | Some (Return (result, out')) => Some (result, Some out')
    | None => None
    end.
Proof.
  intros Hx Hy Hn Hraw Hbin color_bits data_size.
  pose proof (color_bits_of_range ncolors Hn) as Hcb. fold color_bits in Hcb.
  unfold MAX_COL_BYTES, MAX_ROWS, MAX_CARDS, CARD_MEMORY_SIZE in *.
  assert (HW : row_bytes x_size = 40)
    by (unfold row_bytes; Z.div_mod_to_equations; lia).
  destruct (convert_to_layers_spec raw_image converted_image color_bits
              x_size y_size) as (converted & Hrun & _ & _);
    try lia; try (unfold CARD_MEMORY_SIZE; nia).
  exists converted.
  replace (color_bits * row_bytes x_size * y_size) with data_size in Hrun
    by (subst data_size; lia).
  split; [exact Hrun|].
  unfold convert_and_output. fold color_bits. rewrite Hrun.
  cbn [mbind option_bind]. rewrite output_hex_calls by lia.
  unfold hex_calls, plane_calls.
  rewrite (proj2 (Z.gtb_lt _ _)) by (unfold MAX_COL_BYTES; lia).
  rewrite flat_map_singleton. reflexivity.
Qed.

(** C2: the code at the failing input.  A 320 x 1 image in four colours (two
    planes of 40 bytes each), every pixel of colour 3, converted into a
    buffer that held 0xEE everywhere: the write for each plane is made with
    the [data_size] of both planes together, 80 bytes, so that after the 40
    bytes of the plane come 40 bytes that the conversion never wrote. *)
Theorem output_hex_flat_mode_overrun :
  let raw_image := replicate 320 3 in
  let converted_image := replicate (Z.to_nat 32768) 0xEE in
  row_bytes 320 * 1 = 40 /\
  convert_and_output (output_hex trace_write trace_terminate)
    raw_image converted_image 4 320 1 0x2000 (Some []) =
  Some (true,
        Some [(0x2000, replicate 40 0xFF ++ replicate 40 0xEE);
              (0x4000, replicate 40 0xFF ++ replicate 40 0xEE)]).
Proof. vm_compute. split; reflexivity. Qed.

(** ** sscanf: the count and the values *)

Lemma count_ok_done vals : count_ok (Z.of_nat (length vals), vals).
Proof.
  unfold count_ok. destruct vals; [left|right]; cbn [fst snd length];
    split; try lia; congruence.
Qed.

Lemma count_ok_stop at_end vals : count_ok (scanf_stop at_end vals).
Proof.
  unfold scanf_stop. destruct vals; [|apply count_ok_done].
  destruct at_end; left; cbn [fst snd]; split; unfold EOF; try lia; reflexivity.
Qed.

Lemma scanf_run_count ds : forall s vals, count_ok (scanf_run ds s vals).
Proof.
  induction ds as [|d ds IH]; intros s vals; cbn [scanf_run].
  - apply count_ok_done.
  - destruct d.
    + apply IH.
    + destruct s as [|a s]; [apply count_ok_stop|].
      destruct (Ascii.eqb a c); [apply IH|apply count_ok_stop].
    + destruct (skip_space s) as [|c1 s1]; [apply count_ok_stop|].
      destruct (scan_unsigned (c1 :: s1)) as [[v rest]|];
        [apply IH|apply count_ok_stop].
    + destruct (skip_space s) as [|c1 s1]; [apply count_ok_stop|apply IH].
Qed.

Lemma matched_none line :
  matched line <= 0 -> snd (sscanf line "%hhu %hhu %hhu %*s") = [].
Proof.
  unfold matched, sscanf. intros Hm.
  destruct (scanf_run_count (parse_format (str "%hhu %hhu %hhu %*s")) line [])
    as [[Hv _]|[Hv Hc]]; [exact Hv|].
  destruct (snd (scanf_run _ line [])); [congruence|].
  cbn [length] in Hc. lia.
Qed.

Lemma matched_three line :
  matched line = 3 ->
  forall c, assign_color (snd (sscanf line "%hhu %hhu %hhu %*s")) c
            = line_color line.
Proof.
  unfold matched, line_color, sscanf. intros Hm c.
  destruct (scanf_run_count (parse_format (str "%hhu %hhu %hhu %*s")) line [])
    as [[_ Hc]|[_ Hc]]; [lia|].
  rewrite Hm in Hc.
  destruct (snd (scanf_run _ line [])) as [|r' [|g' [|b' vals]]];
    cbn [length] in Hc; try lia.
  reflexivity.
Qed.

(** ** read_palette *)

Lemma read_palette_loop_spec palette_f :
  forall (palette : list color_t) ncolors,
  0 <= ncolors <= MAX_PALETTE_SIZE ->
  Z.of_nat (length palette) = MAX_PALETTE_SIZE ->
  let res := read_palette_loop palette_f palette ncolors in
  let colors := color_lines palette_f in
  0 <= fst res <= MAX_PALETTE_SIZE /\
  ((exists line, In line palette_f /\ (matched line = 1 \/ matched line = 2)) ->
   fst res = 0) /\
  (MAX_PALETTE_SIZE < ncolors + Z.of_nat (length colors) -> fst res = 0) /\
  (fst res <> 0 ->
   fst res = ncolors + Z.of_nat (length colors) /\
   snd res = take (Z.to_nat ncolors) palette ++ map line_color colors
             ++ drop (Z.to_nat ncolors + length colors) palette).
Proof.
  unfold MAX_PALETTE_SIZE.
  induction palette_f as [|line rest IH]; intros palette ncolors Hn Hlen.
  - cbn [read_palette_loop color_lines filter list_filter fst snd length map].
    split; [lia|]. split; [intros (line & [] & _)|]. split; [lia|].
    intros _. split; [lia|].
    rewrite Nat.add_0_r. cbn [app]. symmetry. apply take_drop.
  - cbn [read_palette_loop]. unfold MAX_PALETTE_SIZE. fold (matched line).
    unfold color_lines. rewrite filter_cons. fold (color_lines rest).
    destruct (sscanf line "%hhu %hhu %hhu %*s") as [m vals] eqn:Hscan.
    assert (Hm : matched line = m) by (unfold matched; rewrite Hscan; reflexivity).
    assert (Hvals : snd (sscanf line "%hhu %hhu %hhu %*s") = vals)
      by (rewrite Hscan; reflexivity).
    destruct (Z.gtb_spec m 0) as [Hpos|Hnone].
    + destruct (Z.eqb_spec m 3) as [->|Hbad]; cbn [negb].
      * (* a colour line *)
        rewrite decide_True by exact Hm.
        destruct (Z.eqb_spec ncolors 16) as [->|Hroom].
        { cbn [fst snd length]. split; [lia|]. split; [reflexivity|].
          split; [reflexivity|]. congruence. }
        pose proof (matched_three line Hm) as Hcolor. rewrite Hvals in Hcolor.
        destruct (lookup_lt_is_Some_2 palette (Z.to_nat ncolors) ltac:(lia))
          as [c0 Hc0].
        assert (Halter : alter (assign_color vals) (Z.to_nat ncolors) palette
                         = <[Z.to_nat ncolors := line_color line]> palette).
        { apply list_eq. intros i.
          destruct (Nat.eq_dec i (Z.to_nat ncolors)) as [->|Hi].
          - rewrite list_lookup_alter_eq, Hc0, list_lookup_insert_eq by lia.
            cbn [fmap option_fmap option_map]. rewrite Hcolor. reflexivity.
          - rewrite list_lookup_alter_ne, list_lookup_insert_ne by congruence.
            reflexivity. }
        rewrite Halter.
        specialize (IH (<[Z.to_nat ncolors := line_color line]> palette)
                       (ncolors + 1) ltac:(lia)
                       ltac:(rewrite length_insert; exact Hlen)).
        cbv zeta in IH. destruct IH as (Hr & Hb & Hfull & Hok).
        split; [exact Hr|]. split; [|split].
        -- intros (l & [<-|Hin] & Hl); [lia|]. apply Hb. eauto.
        -- intros Hmany. apply Hfull. cbn [length] in Hmany. lia.
        -- intros Hres. destruct (Hok Hres) as [Hcount Hpal].
           split; [cbn [length]; lia|].
           rewrite Hpal. cbn [map length].
           replace (Z.to_nat (ncolors + 1)) with (Datatypes.S (Z.to_nat ncolors))
             by lia.
           rewrite (take_S_r _ _ (line_color line))
             by (apply list_lookup_insert_eq; lia).
           rewrite take_insert_ge by lia.
           rewrite drop_insert_lt by lia.
           rewrite <- app_assoc. cbn [app].
           rewrite Nat.add_succ_r. reflexivity.
      * (* a malformed line *)
        cbn [fst snd]. split; [lia|]. split; [reflexivity|].
        split; [reflexivity|]. congruence.
    + (* a line without tokens *)
      rewrite decide_False by lia.
      assert (Hnil : vals = [])
        by (rewrite <- Hvals; apply matched_none; lia).
      rewrite Hnil.
      rewrite (list_alter_id (assign_color [])) by reflexivity.
      specialize (IH palette ncolors Hn Hlen). cbv zeta in IH.
      destruct IH as (Hr & Hb & Hfull & Hok).
      split; [exact Hr|]. split; [|split; [exact Hfull|exact Hok]].
      intros (l & [<-|Hin] & Hl); [lia|]. apply Hb. eauto.
Qed.

Lemma read_palette_loop_skip palette_f :
  forall (palette : list color_t) ncolors,
  read_palette_loop palette_f palette ncolors =
  read_palette_loop (token_lines palette_f) palette ncolors.
Proof.
  induction palette_f as [|line rest IH]; intros palette ncolors;
    [reflexivity|].
  unfold token_lines. rewrite filter_cons. fold (token_lines rest).
  destruct (decide (0 < matched line)) as [Hpos|Hnone].
  - cbn [read_palette_loop]. fold (matched line).
    destruct (sscanf line "%hhu %hhu %hhu %*s") as [m vals].
    destruct (m >? 0); [|apply IH].
    destruct (negb (m =? 3)); [reflexivity|].
    destruct (ncolors =? MAX_PALETTE_SIZE); [reflexivity|apply IH].
  - cbn [read_palette_loop].
    pose proof (matched_none line ltac:(lia)) as Hnil.
    unfold matched in Hnone.
    destruct (sscanf line "%hhu %hhu %hhu %*s") as [m vals].
    cbn [fst snd] in *. subst vals.
    rewrite Z.gtb_ltb, (proj2 (Z.ltb_ge 0 m)) by lia.
    rewrite (list_alter_id (assign_color [])) by reflexivity.
    apply IH.
Qed.



(** ** The number of planes *)

Lemma read_palette_range file buffer (palette : list color_t) :
  Z.of_nat (length palette) = MAX_PALETTE_SIZE ->
  0 <= fst (read_palette file buffer palette) <= MAX_PALETTE_SIZE.
Proof.
  intros Hlen. unfold read_palette.
  destruct (open_palette file buffer) as [palette_f|].
  - apply (read_palette_loop_spec palette_f palette 0);
      [unfold MAX_PALETTE_SIZE; lia|exact Hlen].
  - cbn [fst]. unfold MAX_PALETTE_SIZE. lia.
Qed.

(** C9, as amended.  For every palette that [read_palette] accepts the
    returned number of colours lies between 1 and 16 and the number of
    planes, [(int)log2( ncolors )], between 0 and 4; it is 0 exactly for a
    palette of one colour, so that it lies between 1 and 4 for every palette
    of at least two colours. *)
Theorem color_bits_range file buffer (palette : list color_t) :
  Z.of_nat (length palette) = MAX_PALETTE_SIZE ->
  let ncolors := fst (read_palette file buffer palette) in
  ncolors <> 0 ->
  1 <= ncolors <= MAX_PALETTE_SIZE /\
  0 <= color_bits_of ncolors <= 4 /\
  (color_bits_of ncolors = 0 <-> ncolors = 1) /\
  (2 <= ncolors -> 1 <= color_bits_of ncolors <= 4).
Proof.
  intros Hlen ncolors Hne.
  pose proof (read_palette_range file buffer palette Hlen) as Hrange.
  fold ncolors in Hrange. unfold MAX_PALETTE_SIZE in *.
  assert (Hcases : ncolors = 1 \/ ncolors = 2 \/ ncolors = 3 \/ ncolors = 4 \/
                   ncolors = 5 \/ ncolors = 6 \/ ncolors = 7 \/ ncolors = 8 \/
                   ncolors = 9 \/ ncolors = 10 \/ ncolors = 11 \/
                   ncolors = 12 \/ ncolors = 13 \/ ncolors = 14 \/
                   ncolors = 15 \/ ncolors = 16) by lia.
  clearbody ncolors.
  repeat (destruct Hcases as [->|Hcases]); [..|subst ncolors];
    vm_compute; intuition discriminate.
Qed.

Lemma color_bits_range_witness :
  1 <= 2 <= MAX_PALETTE_SIZE /\
  0 <= color_bits_of 2 <= 4 /\
  (color_bits_of 2 = 0 <-> 2 = 1) /\
  (2 <= 2 -> 1 <= color_bits_of 2 <= 4).
Proof.
  refine (color_bits_range
            (Some (mk_palette_file palette_sig
                     [str "  0   0   0 Black" ++ nl;
                      str "255 255 255 White" ++ nl]))
            (replicate 16 "000"%char) (replicate 16 (mk_color 0 0 0)) _ _).
  - reflexivity.
  - vm_compute. discriminate.
Defined.

(** C9 as stated fails for a palette of one colour: [read_palette] accepts
    it, returning 1, and the number of planes is then 0, not in [1,4].
    (With no plane to convert, [convert_to_layers] returns a [data_size] of 0
    and leaves the buffer as it was.) *)
Lemma color_bits_one_color :
  let file := Some (mk_palette_file palette_sig [str "0 0 0 Black" ++ nl]) in
  let ncolors :=
    fst (read_palette file (replicate 16 "000"%char)
                      (replicate 16 (mk_color 0 0 0))) in
  ncolors = 1 /\ color_bits_of ncolors = 0 /\
  ~ (1 <= color_bits_of ncolors <= 4) /\
  convert_to_layers [0; 0] [7; 7; 7; 7] (color_bits_of ncolors) 2 1
    = Some ([7; 7; 7; 7], 0).
Proof.
  vm_compute. split; [reflexivity|]. split; [reflexivity|].
  split; [|reflexivity]. intros [H _]. apply H. reflexivity.
Qed.

(** ** get_image_dimensions *)

Lemma scanf_stop_values at_end vals (P : Z -> Prop) :
  Forall P vals -> Forall P (snd (scanf_stop at_end vals)).
Proof.
  intros H. unfold scanf_stop. destruct vals; [destruct at_end|]; exact H.
Qed.

Lemma scanf_run_nonneg ds :
  widths_ok ds ->
  forall s vals, Forall (fun v => 0 <= v) vals ->
  Forall (fun v => 0 <= v) (snd (scanf_run ds s vals)).
Proof.
  induction 1 as [|d ds Hd _ IH]; intros s vals Hvals; cbn [scanf_run].
  - exact Hvals.
  - destruct d.
    + apply IH, Hvals.
    + destruct s as [|a s]; [apply scanf_stop_values, Hvals|].
      destruct (Ascii.eqb a c); [apply IH, Hvals|apply scanf_stop_values, Hvals].
    + destruct (skip_space s) as [|c1 s1]; [apply scanf_stop_values, Hvals|].
      destruct (scan_unsigned (c1 :: s1)) as [[v rest]|];
        [|apply scanf_stop_values, Hvals].
      apply IH. apply Forall_app. split; [exact Hvals|].
      apply Forall_singleton. apply Z.mod_pos_bound.
      apply Z.pow_pos_nonneg; lia.
    + destruct (skip_space s) as [|c1 s1];
        [apply scanf_stop_values, Hvals|apply IH, Hvals].
Qed.

Lemma declared_nonneg fmt line v :
  widths_ok (parse_format (str fmt)) -> declared fmt line = Some v -> 0 <= v.
Proof.
  intros Hfmt. unfold declared, sscanf.
  pose proof (scanf_run_nonneg _ Hfmt line [] (Forall_nil_2 _)) as Hvals.
  destruct (snd (scanf_run _ line [])) as [|v' vals]; [discriminate|].
  intros [= <-]. apply Forall_cons in Hvals as [Hv _]. exact Hv.
Qed.

Lemma x_size_s_widths : widths_ok (parse_format (str x_size_s)).
Proof. vm_compute. repeat constructor; discriminate. Qed.

Lemma y_size_s_widths : widths_ok (parse_format (str y_size_s)).
Proof. vm_compute. repeat constructor; discriminate. Qed.

Lemma scan_size_declared line fmt size :
  scan_size line fmt size = default size (declared fmt line).
Proof.
  unfold scan_size, declared. destruct (snd (sscanf line fmt)); reflexivity.
Qed.

Lemma declared_width_nonneg line v : declared_width line = Some v -> 0 <= v.
Proof. apply declared_nonneg, x_size_s_widths. Qed.

Lemma declared_height_nonneg line v : declared_height line = Some v -> 0 <= v.
Proof. apply declared_nonneg, y_size_s_widths. Qed.

(** One line of the scan: each size becomes what the line declares for it,
    and stays as it is when the line declares nothing for it. *)
Lemma get_image_dimensions_loop_cons line rest x_size y_size :
  get_image_dimensions_loop (line :: rest) x_size y_size =
  let x1 := default x_size (declared_width line) in
  let y1 := default y_size (declared_height line) in
  if negb (x1 =? 0) && negb (y1 =? 0) then (true, x1, y1)
  else get_image_dimensions_loop rest x1 y1.
Proof.
  cbn [get_image_dimensions_loop]. rewrite !scan_size_declared.
  unfold declared_width, declared_height. reflexivity.
Qed.

Lemma default_from (size : Z) (d : option Z) :
  default size d = size \/ d = Some (default size d).
Proof. destruct d; [right|left]; reflexivity. Qed.

Lemma default_none_or_zero (d : option Z) :
  d = None \/ d = Some 0 -> default 0 d = 0.
Proof. intros [->| ->]; reflexivity. Qed.

(** The scan from any intermediate state. *)
Lemma get_image_dimensions_loop_spec image_file :
  forall x0 y0, 0 <= x0 -> 0 <= y0 ->
  let res := get_image_dimensions_loop image_file x0 y0 in
  (fst (fst res) = true -> 1 <= snd (fst res) /\ 1 <= snd res) /\
  (snd (fst res) = x0 \/
   exists line, In line image_file /\
                declared_width line = Some (snd (fst res))) /\
  (snd res = y0 \/
   exists line, In line image_file /\ declared_height line = Some (snd res)) /\
  (x0 = 0 -> none_or_zero declared_width image_file ->
   fst (fst res) = false) /\
  (y0 = 0 -> none_or_zero declared_height image_file ->
   fst (fst res) = false).
Proof.
  induction image_file as [|line rest IH]; intros x0 y0 Hx0 Hy0.
  - cbn [get_image_dimensions_loop fst snd]. split; [discriminate|].
    split; [left; reflexivity|]. split; [left; reflexivity|].
    split; intros; reflexivity.
  - rewrite get_image_dimensions_loop_cons. cbv zeta.
    destruct (default_from x0 (declared_width line)) as [Hxfrom|Hxfrom];
    destruct (default_from y0 (declared_height line)) as [Hyfrom|Hyfrom];
    set (x1 := default x0 (declared_width line)) in *;
    set (y1 := default y0 (declared_height line)) in *.
    all: assert (Hx1 : 0 <= x1)
      by (first [rewrite Hxfrom; exact Hx0
                |exact (declared_width_nonneg line x1 Hxfrom)]).
    all: assert (Hy1 : 0 <= y1)
      by (first [rewrite Hyfrom; exact Hy0
                |exact (declared_height_nonneg line y1 Hyfrom)]).
    all: assert (Hxzero : x0 = 0 ->
                          none_or_zero declared_width (line :: rest) ->
                          x1 = 0 /\ none_or_zero declared_width rest)
      by (intros -> Hz; split;
          [apply default_none_or_zero, Hz; left; reflexivity
          |intros l Hl; apply Hz; right; exact Hl]).
    all: assert (Hyzero : y0 = 0 ->
                          none_or_zero declared_height (line :: rest) ->
                          y1 = 0 /\ none_or_zero declared_height rest)
      by (intros -> Hz; split;
          [apply default_none_or_zero, Hz; left; reflexivity
          |intros l Hl; apply Hz; right; exact Hl]).
    all: specialize (IH x1 y1 Hx1 Hy1); cbv zeta in IH;
      destruct IH as (Hok & Hx & Hy & Hxn & Hyn).
    all: destruct (Z.eqb_spec x1 0) as [Hxz|Hxz];
      [|destruct (Z.eqb_spec y1 0) as [Hyz|Hyz]]; cbn [negb andb fst snd].
    all: clearbody x1 y1.
    all: split; [first [exact Hok|intros _; lia]|].
    all: split;
      [first [left; exact Hxfrom
             |right; exists line; split; [left; reflexivity|exact Hxfrom]
             |destruct Hx as [Hx|(l & Hin & Hl)];
              [first [left; rewrite Hx; exact Hxfrom
                     |right; exists line; split;
                      [left; reflexivity|rewrite Hx; exact Hxfrom]]
              |right; exists l; split; [right; exact Hin|exact Hl]]]|].
    all: split;
      [first [left; exact Hyfrom
             |right; exists line; split; [left; reflexivity|exact Hyfrom]
             |destruct Hy as [Hy|(l & Hin & Hl)];
              [first [left; rewrite Hy; exact Hyfrom
                     |right; exists line; split;
                      [left; reflexivity|rewrite Hy; exact Hyfrom]]
              |right; exists l; split; [right; exact Hin|exact Hl]]]|].
    all: split; intros H0 Hz;
      [destruct (Hxzero H0 Hz) as [Hx1z Hrest];
       first [lia | exact (Hxn Hx1z Hrest)]
      |destruct (Hyzero H0 Hz) as [Hy1z Hrest];
       first [lia | exact (Hyn Hy1z Hrest)]].
Qed.

(** A line that declares a width of 0 and no height, met while the width is
    unset, leaves the scan where it was. *)
Lemma zero_width_skipped pre line post :
  declared_width line = Some 0 -> declared_height line = None ->
  none_or_zero declared_width pre ->
  forall y0,
  get_image_dimensions_loop (pre ++ line :: post) 0 y0 =
  get_image_dimensions_loop (pre ++ post) 0 y0.
Proof.
  intros Hw Hh. induction pre as [|l pre IH]; intros Hpre y0.
  - cbn [app]. rewrite get_image_dimensions_loop_cons, Hw, Hh. reflexivity.
  - cbn [app]. rewrite !get_image_dimensions_loop_cons. cbv zeta.
    rewrite (default_none_or_zero (declared_width l))
      by (apply Hpre; left; reflexivity).
    cbn [Z.eqb negb andb]. apply IH.
    intros l' Hl'. apply Hpre. right. exact Hl'.
Qed.

Lemma zero_height_skipped pre line post :
  declared_height line = Some 0 -> declared_width line = None ->
  none_or_zero declared_height pre ->
  forall x0,
  get_image_dimensions_loop (pre ++ line :: post) x0 0 =
  get_image_dimensions_loop (pre ++ post) x0 0.
Proof.
  intros Hh Hw. induction pre as [|l pre IH]; intros Hpre x0.
  - cbn [app]. rewrite get_image_dimensions_loop_cons, Hw, Hh. cbv zeta.
    cbn [default from_option Z.eqb negb]. rewrite andb_false_r. reflexivity.
  - cbn [app]. rewrite !get_image_dimensions_loop_cons. cbv zeta.
    rewrite (default_none_or_zero (declared_height l))
      by (apply Hpre; left; reflexivity).
    cbn [Z.eqb negb]. rewrite andb_false_r. apply IH.
    intros l' Hl'. apply Hpre. right. exact Hl'.
Qed.

(** C10, as amended.  [get_image_dimensions] succeeds only with a width and
    a height that lines of the header declare and that are both at least 1.
    A header in which no line declares a width other than 0, or none a height
    other than 0, is rejected, as one without the declaration is.  A line
    that declares a width (a height) of 0 is passed over like a line that
    declares nothing, provided no line before it declares a width (a height)
    other than 0; the scan goes on after it. *)
Theorem get_image_dimensions_nonzero image_file :
  let res := get_image_dimensions image_file in
  let ok := fst (fst res) in
  let x_size := snd (fst res) in
  let y_size := snd res in
  (ok = true ->
   1 <= x_size /\ 1 <= y_size /\
   (exists line, In line image_file /\ declared_width line = Some x_size) /\
   (exists line, In line image_file /\ declared_height line = Some y_size)) /\
  (none_or_zero declared_width image_file -> ok = false) /\
  (none_or_zero declared_height image_file -> ok = false) /\
  (forall pre line post,
     image_file = pre ++ line :: post ->
     declared_width line = Some 0 -> declared_height line = None ->
     none_or_zero declared_width pre ->
     res = get_image_dimensions (pre ++ post)) /\
  (forall pre line post,
     image_file = pre ++ line :: post ->
     declared_height line = Some 0 -> declared_width line = None ->
     none_or_zero declared_height pre ->
     res = get_image_dimensions (pre ++ post)).
Proof.
  intros res ok x_size y_size. subst ok x_size y_size res.
  unfold get_image_dimensions.
  destruct (get_image_dimensions_loop_spec image_file 0 0 ltac:(lia) ltac:(lia))
    as (Hok & Hx & Hy & Hxn & Hyn).
  split; [|split; [|split; [|split]]].
  - intros Htrue. destruct (Hok Htrue) as [Hx1 Hy1].
    split; [exact Hx1|]. split; [exact Hy1|]. split.
    + destruct Hx as [Hx|Hx]; [lia|exact Hx].
    + destruct Hy as [Hy|Hy]; [lia|exact Hy].
  - apply Hxn. reflexivity.
  - apply Hyn. reflexivity.
  - intros pre line post -> Hw Hh Hpre. apply zero_width_skipped; assumption.
  - intros pre line post -> Hh Hw Hpre. apply zero_height_skipped; assumption.
Qed.

Lemma get_image_dimensions_nonzero_witness :
  fst (fst (get_image_dimensions
              [str "static unsigned int width = 0;" ++ nl;
               str "static unsigned int height = 3;" ++ nl])) = false.
Proof.
  refine (proj1 (proj2 (get_image_dimensions_nonzero _)) _).
  intros line [<-|[<-|[]]]; [right|left]; vm_compute; reflexivity.
Defined.

(** C10 as stated fails when a declaration of 0 follows a declaration of the
    same size: with width = 5, then width = 0, then height = 3 the call
    fails, while it succeeds with 5 and 3 when the line of the 0 is left
    out: the line is not treated like an absent one, it takes back the 5. *)
Lemma zero_width_resets :
  let w5 := str "static unsigned int width = 5;" ++ nl in
  let w0 := str "static unsigned int width = 0;" ++ nl in
  let h3 := str "static unsigned int height = 3;" ++ nl in
  declared_width w0 = Some 0 /\ declared_height w0 = None /\
  get_image_dimensions [w5; w0; h3] = (false, 0, 3) /\
  get_image_dimensions [w5; h3] = (true, 5, 3).
Proof. vm_compute. repeat split; reflexivity. Qed.

(** ** parse_image *)

(** The guard of the inner loop lets the count reach [MAX_IMAGE_SIZE + 1]
    and no more. *)
Lemma parse_line_bound fuel :
  forall line cmap image_size errno image_rev res,
  0 <= image_size <= MAX_IMAGE_SIZE + 1 ->
  parse_line fuel line cmap image_size errno image_rev = Some res ->
  match res with
  | Continue (image_size', _, _) => 0 <= image_size' <= MAX_IMAGE_SIZE + 1
  | Return p => returned p = 0
  end.
Proof.
  induction fuel as [|fuel IH];
    intros line cmap image_size errno image_rev res Hsize Hrun;
    [discriminate|].
  cbn [parse_line] in Hrun. destruct line as [|c line'].
  - injection Hrun as <-. reflexivity.
  - destruct (Ascii.eqb c "010"); [injection Hrun as <-; exact Hsize|].
    destruct (negb (isdigit c)); [eapply IH; eassumption|].
    destruct (Z.gtb_spec image_size MAX_IMAGE_SIZE) as [Hbig|Hroom];
      [injection Hrun as <-; reflexivity|].
    destruct (strtoul (c :: line') errno) as [[v errno'] rest].
    destruct (negb (errno' =? 0)); [injection Hrun as <-; reflexivity|].
    destruct (load cmap (uint8 v)) as [px|]; [|discriminate].
    cbn [mbind option_bind] in Hrun. eapply IH; [|exact Hrun]. lia.
Qed.

Lemma parse_image_loop_bound image_file :
  forall cmap image_size errno image_rev p,
  0 <= image_size <= MAX_IMAGE_SIZE + 1 ->
  parse_image_loop image_file cmap image_size errno image_rev = Some p ->
  0 <= returned p <= MAX_IMAGE_SIZE + 1.
Proof.
  induction image_file as [|line rest IH];
    intros cmap image_size errno image_rev p Hsize Hrun;
    cbn [parse_image_loop] in Hrun.
  - injection Hrun as <-. cbn [returned]. unfold MAX_IMAGE_SIZE, MAX_COL_BYTES, MAX_ROWS. lia.
  - destruct (strstr line (str "};")); [injection Hrun as <-; exact Hsize|].
    destruct (parse_line _ line cmap image_size errno image_rev)
      as [[[[size' errno'] image_rev']|p']|] eqn:Hline; [| |discriminate].
    + apply parse_line_bound in Hline; [|exact Hsize].
      eapply IH; eassumption.
    + apply parse_line_bound in Hline; [|exact Hsize].
      injection Hrun as <-. rewrite Hline.
      unfold MAX_IMAGE_SIZE, MAX_COL_BYTES, MAX_ROWS. lia.
Qed.

(** C7: the code at the failing input.  On a data block of 64001 pixel
    tokens, one more than [MAX_IMAGE_SIZE], [parse_image] does not fail: it
    returns 64001 with no message, having stored 64001 bytes, the last of
    them at [image[64000]], behind the [MAX_IMAGE_SIZE] bytes of the array
    that main passes.  The guard [image_size > MAX_IMAGE_SIZE] only stops
    the token after that: a block of 64002 tokens is rejected as too big.
    No returned count exceeds [MAX_IMAGE_SIZE + 1]. *)
Theorem parse_image_capacity_off_by_one :
  MAX_IMAGE_SIZE = 64000 /\
  pixel_tokens block_64001 = 64001 /\
  (fun p => (returned p, message p, Z.of_nat (length (stored p))))
    <$> parse_image block_64001 (replicate 16 0) 0
  = Some (64001, None, 64001) /\
  pixel_tokens block_64002 = 64002 /\
  (fun p => (returned p, message p))
    <$> parse_image block_64002 (replicate 16 0) 0
  = Some (0, Some "Error: Image is too big."%string) /\
  (forall image_file cmap errno p,
     parse_image image_file cmap errno = Some p ->
     returned p <= MAX_IMAGE_SIZE + 1).
Proof.
  split; [reflexivity|]. split; [vm_compute; reflexivity|].
  split; [vm_compute; reflexivity|]. split; [vm_compute; reflexivity|].
  split; [vm_compute; reflexivity|].
  intros image_file cmap errno p Hrun.
  apply (parse_image_loop_bound image_file cmap 0 errno [] p); [|exact Hrun].
  unfold MAX_IMAGE_SIZE, MAX_COL_BYTES, MAX_ROWS. lia.
Qed.

(** ** translate_cmap *)

Lemma color_eta (p : color_t) : p = mk_color (r p) (g p) (b p).
Proof. destruct p; reflexivity. Qed.

(** The lookup stops at the first entry that holds the colour, or at
    [ncolors]. *)
Lemma find_color_spec palette ncolors r' g' b' (fuel : nat) :
  forall c,
  0 <= c <= ncolors -> ncolors <= Z.of_nat (length palette) ->
  (Z.to_nat (ncolors - c) < fuel)%nat ->
  exists c',
    find_color fuel palette ncolors r' g' b' c = Some c' /\
    c <= c' <= ncolors /\
    (c' < ncolors -> palette !! Z.to_nat c' = Some (mk_color r' g' b')) /\
    (forall c'', c <= c'' < c' ->
       palette !! Z.to_nat c'' <> Some (mk_color r' g' b')).
Proof.
  induction fuel as [|fuel IH]; intros c Hc Hlen Hfuel; [lia|].
  cbn [find_color]. destruct (Z.ltb_spec c ncolors) as [Hlt|Hge].
  - destruct (lookup_lt_is_Some_2 palette (Z.to_nat c)) as [p Hp]; [lia|].
    rewrite Hp. cbn [mbind option_bind].
    destruct ((r p =? r') && (g p =? g') && (b p =? b')) eqn:Heq.
    + apply andb_prop in Heq as [Heq Hb]. apply andb_prop in Heq as [Hr Hg].
      apply Z.eqb_eq in Hr, Hg, Hb.
      exists c. split; [reflexivity|]. split; [lia|]. split; [|intros; lia].
      intros _. rewrite Hp, (color_eta p), Hr, Hg, Hb. reflexivity.
    + destruct (IH (c + 1)) as (c' & Hrun & Hrange & Hfound & Hfirst);
        [lia|exact Hlen|lia|].
      exists c'. split; [exact Hrun|]. split; [lia|].
      split; [exact Hfound|].
      intros c'' Hc''. destruct (Z.eq_dec c'' c) as [->|Hne];
        [|apply Hfirst; lia].
      rewrite Hp. intros Hsame. injection Hsame as ->.
      cbn [r g b] in Heq. rewrite !Z.eqb_refl in Heq. discriminate.
  - exists c. split; [reflexivity|]. split; [lia|]. split; intros; lia.
Qed.

(** The count of a line, as [translate_cmap] gets it. *)
Lemma cmap_matched_eq line :
  cmap_matched line = fst (sscanf line " { %hhu , %hhu , %hhu } ,").
Proof. reflexivity. Qed.

(** A line that matches three tokens assigns three values. *)
Lemma cmap_matched_three line :
  cmap_matched line = 3 ->
  exists r' g' b',
    snd (sscanf line " { %hhu , %hhu , %hhu } ,") = [r'; g'; b'] /\
    cmap_color line = mk_color r' g' b'.
Proof.
  unfold cmap_matched, cmap_color, sscanf. intros Hm.
  destruct (scanf_run_count (parse_format (str " { %hhu , %hhu , %hhu } ,"))
              line []) as [[_ Hc]|[_ Hc]]; [lia|].
  rewrite Hm in Hc.
  destruct (snd (scanf_run _ line [])) as [|r' [|g' [|b' [|v vals]]]];
    cbn [length] in Hc; try lia.
  exists r', g', b'. split; reflexivity.
Qed.

Section translate_cmap_correct.

Variable palette : list color_t.
Variable ncolors : Z.

Hypothesis ncolors_range : 1 <= ncolors <= MAX_PALETTE_SIZE.
Hypothesis palette_length : Z.of_nat (length palette) = MAX_PALETTE_SIZE.

(** One colour line, when [image_colors] colours have been translated. *)
Lemma translate_cmap_loop_color line rest cmap k :
  0 <= k < ncolors -> Z.of_nat (length cmap) = MAX_PALETTE_SIZE ->
  cmap_matched line = 3 ->
  (exists c cmap1,
     first_index palette ncolors (cmap_color line) c /\
     store cmap k c = Some cmap1 /\
     translate_cmap_loop (line :: rest) palette cmap ncolors k k =
       if k + 1 =? ncolors then Some (k + 1, cmap1, rest)
       else translate_cmap_loop rest palette cmap1 ncolors (k + 1) (k + 1)) \/
  ((forall c, ~ first_index palette ncolors (cmap_color line) c) /\
   translate_cmap_loop (line :: rest) palette cmap ncolors k k =
     Some (0, cmap, rest)).
Proof.
  intros Hk Hlen Hm.
  destruct (cmap_matched_three line Hm) as (r' & g' & b' & Hvals & Hcol).
  cbn [translate_cmap_loop]. rewrite cmap_matched_eq in Hm.
  destruct (sscanf line " { %hhu , %hhu , %hhu } ,") as [m vals].
  cbn [fst snd] in Hm, Hvals. subst m vals.
  change (3 >? 0) with true. change (negb (3 =? 3)) with false.
  cbv beta iota.
  destruct (find_color_spec palette ncolors r' g' b'
              (S (Z.to_nat ncolors)) 0)
    as (c & Hrun & Hrange & Hfound & Hfirst); [lia|lia|lia|].
  rewrite Hrun. cbn [mbind option_bind].
  destruct (Z.eqb_spec c ncolors) as [->|Hne].
  - right. split; [|reflexivity].
    intros c (Hc & Hp & _). rewrite Hcol in Hp.
    exact (Hfirst c ltac:(lia) Hp).
  - left. unfold MAX_PALETTE_SIZE in *.
    assert (Hu : uint8 c = c) by (unfold uint8; apply Z.mod_small; lia).
    rewrite Hu.
    destruct (store cmap k c) as [cmap1|] eqn:Hst;
      [|rewrite store_in_range in Hst by lia; discriminate].
    exists c, cmap1. split.
    + rewrite Hcol. split; [lia|]. split; [apply Hfound; lia|].
      intros c' Hc'. apply Hfirst. lia.
    + split; [exact Hst|]. cbn [mbind option_bind]. reflexivity.
Qed.

(** A line that matches no token. *)
Lemma translate_cmap_loop_other line rest cmap k :
  cmap_matched line <= 0 ->
  translate_cmap_loop (line :: rest) palette cmap ncolors k k =
    if k =? 0 then translate_cmap_loop rest palette cmap ncolors k k
    else Some (0, cmap, rest).
Proof.
  intros Hm. cbn [translate_cmap_loop]. rewrite cmap_matched_eq in Hm.
  destruct (sscanf line " { %hhu , %hhu , %hhu } ,") as [m vals].
  cbn [fst] in Hm.
  rewrite Z.gtb_ltb, (proj2 (Z.ltb_ge 0 m)) by lia.
  destruct (k =? 0); reflexivity.
Qed.

(** A line that matches one or two tokens. *)
Lemma translate_cmap_loop_partial line rest cmap k :
  0 < cmap_matched line -> cmap_matched line <> 3 ->
  translate_cmap_loop (line :: rest) palette cmap ncolors k k =
    Some (0, cmap, rest).
Proof.
  intros Hpos Hm. cbn [translate_cmap_loop].
  rewrite cmap_matched_eq in Hpos, Hm.
  destruct (sscanf line " { %hhu , %hhu , %hhu } ,") as [m vals].
  cbn [fst] in Hpos, Hm.
  rewrite Z.gtb_ltb, (proj2 (Z.ltb_lt 0 m)) by lia.
  rewrite (proj2 (Z.eqb_neq m 3)) by exact Hm. reflexivity.
Qed.

Lemma translate_cmap_loop_spec image_file :
  forall cmap k,
  0 <= k < ncolors -> Z.of_nat (length cmap) = MAX_PALETTE_SIZE ->
  exists n cmap' rest,
    translate_cmap_loop image_file palette cmap ncolors k k
      = Some (n, cmap', rest) /\
    0 <= n <= ncolors /\
    length cmap' = length cmap /\
    (forall i, i < k \/ ncolors <= i -> load cmap' i = load cmap i) /\
    (n = ncolors ->
     exists pre cols,
       image_file = pre ++ cols ++ rest /\
       Forall (fun line => cmap_matched line <= 0) pre /\
       (0 < k -> pre = []) /\
       Z.of_nat (length cols) = ncolors - k /\
       translated palette ncolors cols cmap' k).
Proof.
  induction image_file as [|line image_file IH]; intros cmap k Hk Hlen.
  - exists k, cmap, []. split; [reflexivity|]. split; [lia|].
    split; [reflexivity|]. split; [reflexivity|]. intros ->. lia.
  - destruct (Z_le_gt_dec (cmap_matched line) 0) as [Hnone|Hpos].
    + rewrite translate_cmap_loop_other by exact Hnone.
      destruct (Z.eqb_spec k 0) as [->|Hk0].
      * destruct (IH cmap 0 Hk Hlen)
          as (n & cmap' & rest & Hrun & Hn & Hl & Hkeep & Hok).
        exists n, cmap', rest. split; [exact Hrun|]. split; [exact Hn|].
        split; [exact Hl|]. split; [exact Hkeep|].
        intros Hfull.
        destruct (Hok Hfull) as (pre & cols & -> & Hpre & _ & Hcn).
        exists (line :: pre), cols. split; [reflexivity|].
        split; [constructor; assumption|]. split; [lia|exact Hcn].
      * exists 0, cmap, image_file. split; [reflexivity|]. split; [lia|].
        split; [reflexivity|]. split; [reflexivity|]. lia.
    + destruct (Z.eq_dec (cmap_matched line) 3) as [Hm|Hm].
      * destruct (translate_cmap_loop_color line image_file cmap k Hk Hlen Hm)
          as [(c & cmap1 & Hc & Hst & Hrun)|[_ Hrun]]; rewrite Hrun.
        -- assert (Hl1 : length cmap1 = length cmap)
             by (eapply store_length; exact Hst).
           assert (Hkeep1 : forall i, i <> k -> load cmap1 i = load cmap i)
             by (intros i Hi; eapply load_store_ne; eassumption).
           assert (Hat : load cmap1 k = Some c)
             by (eapply load_store_eq; exact Hst).
           destruct (Z.eqb_spec (k + 1) ncolors) as [Hlast|Hmore].
           ++ exists (k + 1), cmap1, image_file. split; [reflexivity|].
              split; [lia|]. split; [exact Hl1|].
              split; [intros i Hi; apply Hkeep1; lia|].
              intros _. exists [], [line]. split; [reflexivity|].
              split; [constructor|]. split; [reflexivity|].
              split; [cbn [length]; lia|].
              intros [|i] l Hli; [|destruct i; discriminate].
              injection Hli as <-. split; [exact Hm|].
              exists c. rewrite Z.add_0_r. split; assumption.
           ++ destruct (IH cmap1 (k + 1))
                as (n & cmap' & rest & Hrun' & Hn & Hl & Hkeep & Hok);
                [lia|lia|].
              exists n, cmap', rest. split; [exact Hrun'|]. split; [lia|].
              split; [lia|].
              split; [intros i Hi; rewrite Hkeep by lia; apply Hkeep1; lia|].
              intros Hfull.
              destruct (Hok Hfull) as (pre & cols & -> & _ & Hpre & Hcn & Ht).
              rewrite Hpre by lia.
              exists [], (line :: cols). split; [reflexivity|].
              split; [constructor|]. split; [reflexivity|].
              split; [cbn [length]; lia|].
              intros [|i] l Hli.
              ** injection Hli as <-. split; [exact Hm|].
                 exists c. rewrite Z.add_0_r, Hkeep by lia.
                 split; assumption.
              ** destruct (Ht i l Hli) as (Hm' & c' & Hc' & Hf').
                 split; [exact Hm'|]. exists c'. split; [|exact Hf'].
                 rewrite <- Hc'. f_equal. lia.
        -- exists 0, cmap, image_file. split; [reflexivity|]. split; [lia|].
           split; [reflexivity|]. split; [reflexivity|]. lia.
      * rewrite translate_cmap_loop_partial by (lia || exact Hm).
        exists 0, cmap, image_file. split; [reflexivity|]. split; [lia|].
        split; [reflexivity|]. split; [reflexivity|]. lia.
Qed.

(** The other way round: a block of colour lines of the palette is
    translated. *)
Lemma translate_cmap_loop_colors cols rest :
  forall cmap k,
  0 <= k < ncolors -> Z.of_nat (length cmap) = MAX_PALETTE_SIZE ->
  Z.of_nat (length cols) = ncolors - k ->
  Forall (fun line => cmap_matched line = 3 /\
                      exists c, first_index palette ncolors
                                            (cmap_color line) c) cols ->
  exists cmap',
    translate_cmap_loop (cols ++ rest) palette cmap ncolors k k
      = Some (ncolors, cmap', rest).
Proof.
  induction cols as [|line cols IH]; intros cmap k Hk Hlen Hn Hcols.
  - cbn [length] in Hn. lia.
  - apply Forall_cons in Hcols as [[Hm [c0 Hc0]] Hcols].
    cbn [length] in Hn. rewrite <- app_comm_cons.
    destruct (translate_cmap_loop_color line (cols ++ rest) cmap k Hk Hlen Hm)
      as [(c & cmap1 & Hc & Hst & Hrun)|[Hno _]]; [|destruct (Hno c0 Hc0)].
    rewrite Hrun. destruct (Z.eqb_spec (k + 1) ncolors) as [Hlast|Hmore].
    + destruct cols; [|cbn [length] in Hn; lia].
      exists cmap1. rewrite Hlast. reflexivity.
    + apply IH; [lia| |lia|exact Hcols].
      erewrite store_length by exact Hst. exact Hlen.
Qed.

End translate_cmap_correct.
(** X1.  [translate_cmap], called as main calls it (a palette and a
    translation table of 16 entries, 1 to 16 colours), returns on every
    input; the count it returns lies between 0 and [ncolors]; it leaves the
    table at its length and never writes an entry from index [ncolors]
    on. *)
Theorem translate_cmap_bounds image_file palette cmap ncolors :
  1 <= ncolors <= MAX_PALETTE_SIZE ->
  Z.of_nat (length palette) = MAX_PALETTE_SIZE ->
  Z.of_nat (length cmap) = MAX_PALETTE_SIZE ->
  exists n cmap' rest,
    translate_cmap image_file palette cmap ncolors = Some (n, cmap', rest) /\
    0 <= n <= ncolors /\
    length cmap' = length cmap /\
    (forall i, ncolors <= i -> load cmap' i = load cmap i).
Proof.
  intros Hn Hp Hc.
  destruct (translate_cmap_loop_spec palette ncolors Hn Hp image_file cmap 0)
    as (n & cmap' & rest & Hrun & Hrange & Hlen & Hkeep & _); [lia|exact Hc|].
  exists n, cmap', rest. split; [exact Hrun|]. split; [exact Hrange|].
  split; [exact Hlen|]. intros i Hi. apply Hkeep. right. exact Hi.
Qed.

Lemma translate_cmap_bounds_witness :
  exists n cmap' rest,
    translate_cmap [str "{ 255, 255, 255 }," ++ nl]
      ([mk_color 0 0 0; mk_color 255 255 255]
       ++ replicate 14 (mk_color 0 0 0))
      (replicate 16 7) 2 = Some (n, cmap', rest) /\
    0 <= n <= 2 /\
    length cmap' = length (replicate 16 7) /\
    (forall i, 2 <= i -> load cmap' i = load (replicate 16 7) i).
Proof.
  apply translate_cmap_bounds; [unfold MAX_PALETTE_SIZE; lia | | ];
    reflexivity.
Defined.



(** ** search_for_header_data *)

(** Comparing two terminated strings over the length of the second and its
    terminator is comparing the strings. *)
Lemma strncmp_eq_terminated (s2 : text) :
  forall s1 : text,
  NUL ∉ s1 -> NUL ∉ s2 ->
  strncmp_eq (s1 ++ [NUL]) (s2 ++ [NUL]) (S (length s2)) = true <-> s1 = s2.
Proof.
  induction s2 as [|c2 s2 IH]; intros s1 H1 H2.
  - destruct s1 as [|c1 s1]; [split; reflexivity|].
    apply not_elem_of_cons in H1 as [Hc1 _].
    cbn [strncmp_eq app length].
    rewrite (proj2 (Ascii.eqb_neq c1 NUL)) by congruence.
    split; discriminate.
  - apply not_elem_of_cons in H2 as [Hc2 H2].
    destruct s1 as [|c1 s1].
    + cbn [strncmp_eq app length].
      rewrite (proj2 (Ascii.eqb_neq NUL c2)) by exact Hc2.
      split; discriminate.
    + apply not_elem_of_cons in H1 as [Hc1 H1].
      change (strncmp_eq ((c1 :: s1) ++ [NUL]) ((c2 :: s2) ++ [NUL])
                (S (length (c2 :: s2))))
        with (Ascii.eqb c1 c2
              && (Ascii.eqb c1 NUL
                  || strncmp_eq (s1 ++ [NUL]) (s2 ++ [NUL]) (S (length s2)))).
      rewrite (proj2 (Ascii.eqb_neq c1 NUL)) by congruence.
      rewrite orb_false_l, andb_true_iff, Ascii.eqb_eq, (IH s1 H1 H2).
      split; [intros [-> ->]; reflexivity|].
      intros Heq. injection Heq as -> ->. split; reflexivity.
Qed.

(** A character that a given text does not hold. *)
Ltac absent_char :=
  cbv [header_s nl str list_ascii_of_string app];
  repeat (apply not_elem_of_cons; split; [discriminate|]);
  apply not_elem_of_nil.

Lemma header_s_no_NUL : NUL ∉ header_s.
Proof. absent_char. Qed.

(** X3.  On a file whose lines hold no NUL character,
    [search_for_header_data] returns true exactly when some line is the
    header line, character for character up to and with its newline; the
    stream is then left just behind the first such line.  It returns false
    exactly when no line is the header line. *)
Theorem search_for_header_data_spec image_file :
  Forall (fun line : text => NUL ∉ line) image_file ->
  (forall rest,
     search_for_header_data image_file = (true, rest) <->
     exists pre, image_file = pre ++ header_s :: rest /\ header_s ∉ pre) /\
  (fst (search_for_header_data image_file) = false <->
   header_s ∉ image_file).
Proof.
  induction 1 as [|line image_file Hline Hlines [IHt IHf]].
  - split.
    + intros rest. split; [discriminate|].
      intros ([|l pre] & Heq & _); discriminate.
    + split; [intros _; apply not_elem_of_nil|reflexivity].
  - cbn [search_for_header_data].
    pose proof (strncmp_eq_terminated header_s line Hline header_s_no_NUL)
      as Hcmp.
    destruct (strncmp_eq (line ++ [NUL]) (header_s ++ [NUL])
                (S (length header_s))) eqn:Heq.
    + assert (line = header_s) as -> by (apply Hcmp; reflexivity).
      split.
      * intros rest. split.
        -- intros [= <-]. exists []. split; [reflexivity|].
           apply not_elem_of_nil.
        -- intros ([|l pre] & Hfile & Hpre).
           ++ injection Hfile as <-. reflexivity.
           ++ injection Hfile as <- _.
              destruct Hpre. apply list_elem_of_here.
      * cbn [fst]. split; [discriminate|].
        intros Hno. destruct Hno. apply list_elem_of_here.
    + assert (Hne : line <> header_s)
        by (intros Hl; apply Hcmp in Hl; congruence).
      split.
      * intros rest. rewrite IHt. split.
        -- intros (pre & -> & Hpre). exists (line :: pre).
           split; [reflexivity|].
           apply not_elem_of_cons. split; [congruence|exact Hpre].
        -- intros ([|l pre] & Hfile & Hpre).
           ++ injection Hfile as -> _. congruence.
           ++ injection Hfile as <- ->.
              apply not_elem_of_cons in Hpre as [_ Hpre].
              exists pre. split; [reflexivity|exact Hpre].
      * rewrite IHf. rewrite not_elem_of_cons. split; [|tauto].
        intros Hno. split; [congruence|exact Hno].
Qed.

Lemma search_for_header_data_spec_witness :
  search_for_header_data
    [str "  };" ++ nl; header_s; str "0,1,1,0," ++ nl]
  = (true, [str "0,1,1,0," ++ nl]).
Proof.
  refine (proj2 (proj1 (search_for_header_data_spec
                          [str "  };" ++ nl; header_s; str "0,1,1,0," ++ nl]
                          _) [str "0,1,1,0," ++ nl]) _).
  - repeat (apply Forall_cons_2; [absent_char|]). apply Forall_nil_2.
  - exists [str "  };" ++ nl]. split; [reflexivity|].
    apply not_elem_of_cons. split; [vm_compute; discriminate|].
    apply not_elem_of_nil.
Defined.

(** ** output_asm *)

(** A write whose result is not looked at, on a stream that does not
    fail. *)
Lemma fprintf_written f s :
  no_fault f ->
  no_fault (snd (fprintf f s)) /\
  contents (snd (fprintf f s)) = contents f ++ s.
Proof.
  intros Hf. rewrite fprintf_no_fault by exact Hf. cbn [snd].
  split; [apply no_fault_written; exact Hf|reflexivity].
Qed.

Lemma imap_take_S {A B : Type} (g : nat -> A -> B) (l : list A) (k : nat) v :
  l !! k = Some v ->
  imap g (take (S k) l) = imap g (take k l) ++ [g k v].
Proof.
  intros Hv. rewrite (take_S_r l k v Hv), imap_app. cbn [imap].
  rewrite length_take_le by (apply Nat.lt_le_incl; eapply lookup_lt_Some; exact Hv).
  rewrite Nat.add_0_r. reflexivity.
Qed.

(** The [bytenum] loop over the [n] bytes at [off]. *)
Lemma output_asm_bytes data off n f :
  0 <= off -> 0 <= n -> off + n <= Z.of_nat (length data) ->
  exists f',
    for_loop (S (Z.to_nat n)) (fun bytenum => bytenum <? n)
             (fun bytenum => bytenum + 1) (output_asm_byte data off) 0 f
      = Some f' /\
    (no_fault f ->
     no_fault f' /\
     contents f' = contents f
       ++ concat (imap asm_byte (take (Z.to_nat n)
                                      (drop (Z.to_nat off) data)))).
Proof.
  intros Hoff Hn Hfit.
  destruct (for_loop_inv (Z.to_nat n)
    (fun k f' =>
       no_fault f ->
       no_fault f' /\
       contents f' = contents f
         ++ concat (imap asm_byte (take k (drop (Z.to_nat off) data))))
    Z.of_nat (S (Z.to_nat n)) (fun bytenum => bytenum <? n)
    (fun bytenum => bytenum + 1) (output_asm_byte data off) f)
    as (f' & Hrun & Hinv).
  - lia.
  - intros k Hk. split; [apply Z.ltb_lt; lia|lia].
  - apply Z.ltb_ge. lia.
  - intros Hf. split; [exact Hf|]. rewrite take_0. cbn [imap concat].
    rewrite app_nil_r. reflexivity.
  - intros k s Hk Hs. unfold output_asm_byte.
    destruct (lookup_lt_is_Some_2 (drop (Z.to_nat off) data) k) as [v Hv];
      [rewrite length_drop; lia|].
    assert (Hload : load data (off + Z.of_nat k) = Some v).
    { unfold load. rewrite bool_decide_eq_true_2 by lia.
      rewrite lookup_drop in Hv. rewrite <- Hv. f_equal. lia. }
    rewrite Hload. cbn [mbind option_bind].
    rewrite Z.rem_mod_nonneg by (unfold asm.BYTES_PER_LINE; lia).
    change asm.BYTES_PER_LINE with 16.
    assert (Hpiece : forall s0 : text,
              (if Z.of_nat k mod 16 =? 0
               then nl ++ tab ++ tab ++ str ".BYTE" ++ tab ++ str "$"
                    ++ printf_x 2 v
               else str ", $" ++ printf_x 2 v) = asm_byte k v).
    { intros _. unfold asm_byte.
      destruct (Z.of_nat k mod 16 =? 0); rewrite <- ?app_assoc; reflexivity. }
    exists (snd (fprintf s (asm_byte k v))). split.
    + rewrite <- (Hpiece []).
      destruct (Z.of_nat k mod 16 =? 0); reflexivity.
    + intros Hf. destruct (Hs Hf) as [Hnf Hc].
      destruct (fprintf_written s (asm_byte k v) Hnf) as [Hnf1 Hc1].
      split; [exact Hnf1|].
      rewrite (imap_take_S asm_byte _ k v Hv), concat_app.
      cbn [concat]. rewrite app_nil_r, app_assoc, <- Hc. exact Hc1.
  - exists f'. split; [exact Hrun|exact Hinv].
Qed.

(** The [cbit] loop. *)
Lemma output_asm_planes data data_size color_bits f :
  0 <= color_bits <= MAX_CARDS -> 0 <= data_size ->
  (color_bits - 1) * CARD_MEMORY_SIZE + Z.quot data_size color_bits
    <= Z.of_nat (length data) ->
  exists f',
    for_loop (S (Z.to_nat color_bits)) (fun cbit => cbit <? color_bits)
             (fun cbit => cbit + 1)
             (output_asm_plane data data_size color_bits) 0 f = Some f' /\
    (no_fault f ->
     no_fault f' /\
     contents f' = contents f
       ++ concat (map (asm_plane data (Z.quot data_size color_bits))
                      (seq 0 (Z.to_nat color_bits)))).
Proof.
  intros Hcb Hsize Hfit. unfold MAX_CARDS in Hcb.
  set (n := Z.quot data_size color_bits) in *.
  assert (Hn : 0 <= n).
  { destruct (Z.eq_dec color_bits 0) as [->|Hpos];
      [|apply Z.quot_pos; lia].
    subst n. unfold Z.quot, Z.quotrem. destruct data_size; cbn [fst]; lia. }
  destruct (for_loop_inv (Z.to_nat color_bits)
    (fun k f' =>
       no_fault f ->
       no_fault f' /\
       contents f' = contents f
         ++ concat (map (asm_plane data n) (seq 0 k)))
    Z.of_nat (S (Z.to_nat color_bits)) (fun cbit => cbit <? color_bits)
    (fun cbit => cbit + 1) (output_asm_plane data data_size color_bits) f)
    as (f' & Hrun & Hinv).
  - lia.
  - intros k Hk. split; [apply Z.ltb_lt; lia|lia].
  - apply Z.ltb_ge. lia.
  - intros Hf. split; [exact Hf|]. cbn [seq map concat].
    rewrite app_nil_r. reflexivity.
  - intros k s Hk Hs. unfold output_asm_plane. fold n.
    rewrite Nat2Z.id.
    destruct (lookup_lt_is_Some_2 card_name k) as [name Hname];
      [cbn [card_name length]; lia|].
    rewrite Hname. cbn [mbind option_bind].
    assert (Hoff : uint16 (Z.of_nat k * CARD_MEMORY_SIZE)
                   = Z.of_nat k * CARD_MEMORY_SIZE)
      by (apply uint16_small; unfold CARD_MEMORY_SIZE; lia).
    rewrite Hoff.
    destruct (output_asm_bytes data (Z.of_nat k * CARD_MEMORY_SIZE) n
                (snd (fprintf s (nl ++ nl ++ name ++ str ":"))))
      as (s' & Hbytes & Htext);
      [unfold CARD_MEMORY_SIZE in *; lia|exact Hn
      |unfold CARD_MEMORY_SIZE in *; nia|].
    exists s'. split; [exact Hbytes|].
    intros Hf. destruct (Hs Hf) as [Hnf Hc].
    destruct (fprintf_written s (nl ++ nl ++ name ++ str ":") Hnf)
      as [Hnf1 Hc1].
    destruct (Htext Hnf1) as [Hnf2 Hc2]. split; [exact Hnf2|].
    assert (Hplane : asm_plane data n k
              = nl ++ nl ++ name ++ str ":"
                ++ concat (imap asm_byte
                     (take (Z.to_nat n)
                        (drop (Z.to_nat (Z.of_nat k * CARD_MEMORY_SIZE))
                           data))))
      by (unfold asm_plane; rewrite Hname; reflexivity).
    rewrite Hc2, Hc1, Hc, seq_S, map_app, concat_app. cbn [map concat plus].
    rewrite app_nil_r, Hplane, <- !app_assoc. reflexivity.
  - exists f'. split; [exact Hrun|exact Hinv].
Qed.

(** The whole listing on a stream that does not fail. *)
Lemma output_asm_healthy data f data_size color_bits x_size y_size :
  0 <= color_bits <= MAX_CARDS -> 0 <= data_size ->
  (color_bits - 1) * CARD_MEMORY_SIZE + Z.quot data_size color_bits
    <= Z.of_nat (length data) ->
  no_fault f ->
  exists f',
    output_asm data (Some f) data_size color_bits x_size y_size
      = Some (true, Some f') /\
    contents f' = contents f
      ++ asm_text data (Z.quot data_size color_bits) color_bits x_size y_size.
Proof.
  intros Hcb Hsize Hfit Hf. unfold output_asm.
  set (line_x := str "X_SIZE" ++ tab ++ str "= " ++ printf_u x_size ++ nl).
  set (line_y := str "Y_SIZE" ++ tab ++ str "= " ++ printf_u y_size ++ nl).
  destruct (fprintf_written f line_x Hf) as [Hf1 Hc1].
  destruct (fprintf_written _ line_y Hf1) as [Hf2 Hc2].
  destruct (output_asm_planes data data_size color_bits
              (snd (fprintf (snd (fprintf f line_x)) line_y)) Hcb Hsize Hfit)
    as (f' & Hrun & Htext).
  rewrite Hrun. cbn [mbind option_bind]. exists f'. split; [reflexivity|].
  destruct (Htext Hf2) as [_ Hc]. rewrite Hc, Hc2, Hc1.
  unfold asm_text. fold line_x line_y. subst line_x line_y.
  rewrite <- !app_assoc. reflexivity.
Qed.


(** X4.  The assembly listing.  When every plane has its
    [data_size / color_bits] bytes inside the buffer (at most four planes),
    [output_asm] returns true and, on a stream that does not fail, appends
    the two size lines and then, plane after plane, the label of the card
    and exactly the [data_size / color_bits] bytes that start at offset
    [cbit * 8192], sixteen to a [.BYTE] line, each as [$] and two small hex
    digits. *)
Theorem output_asm_text data f data_size color_bits x_size y_size :
  0 <= color_bits <= MAX_CARDS -> 0 <= data_size ->
  (color_bits - 1) * CARD_MEMORY_SIZE + Z.quot data_size color_bits
    <= Z.of_nat (length data) ->
  no_fault f ->
  exists f',
    output_asm data (Some f) data_size color_bits x_size y_size
      = Some (true, Some f') /\
    contents f' = contents f
      ++ asm_text data (Z.quot data_size color_bits) color_bits x_size y_size.
Proof. apply output_asm_healthy. Qed.

Lemma output_asm_text_witness :
  exists f',
    output_asm [0; 255; 16] (Some (mk_FILE [] [])) 3 1 17 1
      = Some (true, Some f') /\
    contents f' = [] ++ asm_text [0; 255; 16] (Z.quot 3 1) 1 17 1.
Proof.
  apply output_asm_text; [unfold MAX_CARDS; lia|lia|vm_compute; discriminate|].
  constructor.
Defined.

(** X5.  [output_asm] does not look at what its writes return: on every
    stream, whichever of the calls fail, it returns true (under the same
    bounds); it returns false only when the file could not be opened. *)
Theorem output_asm_ignores_faults data data_size color_bits x_size y_size :
  0 <= color_bits <= MAX_CARDS -> 0 <= data_size ->
  (color_bits - 1) * CARD_MEMORY_SIZE + Z.quot data_size color_bits
    <= Z.of_nat (length data) ->
  (forall f, exists f',
     output_asm data (Some f) data_size color_bits x_size y_size
       = Some (true, Some f')) /\
  output_asm data None data_size color_bits x_size y_size
    = Some (false, None).
Proof.
  intros Hcb Hsize Hfit. split; [|reflexivity].
  intros f. unfold output_asm.
  match goal with
  | |- context [for_loop _ _ _ _ 0 ?f0] =>
      destruct (output_asm_planes data data_size color_bits f0 Hcb Hsize Hfit)
        as (f' & Hrun & _)
  end.
  rewrite Hrun. exists f'. reflexivity.
Qed.

Lemma output_asm_ignores_faults_witness :
  exists f',
    output_asm [0; 255; 16] (Some (mk_FILE [] (repeat true 8))) 3 1 17 1
      = Some (true, Some f').
Proof.
  apply (proj1 (output_asm_ignores_faults [0; 255; 16] 3 1 17 1
                  ltac:(unfold MAX_CARDS; lia) ltac:(lia)
                  ltac:(vm_compute; discriminate))).
Defined.

(** ** get_options *)

Lemma last_arg_found c opts :
  forall found,
  last_arg c opts found =
  match last_arg c opts None with Some a => Some a | None => found end.
Proof.
  induction opts as [|[c' optarg] opts IH]; intros found; [reflexivity|].
  cbn [last_arg]. destruct (Ascii.eqb c' c); [|apply IH].
  rewrite (IH (Some optarg)), (IH None).
  destruct (last_arg c opts None); reflexivity.
Qed.

Lemma last_arg_other c c' optarg opts found :
  c' <> c ->
  last_arg c ((c', optarg) :: opts) found = last_arg c opts found.
Proof.
  intros Hne. cbn [last_arg].
  rewrite (proj2 (Ascii.eqb_neq c' c)) by exact Hne. reflexivity.
Qed.

Lemma last_arg_same c optarg opts found :
  last_arg c ((c, optarg) :: opts) found =
  match last_arg c opts None with Some a => Some a | None => Some optarg end.
Proof.
  cbn [last_arg]. rewrite Ascii.eqb_refl. apply last_arg_found.
Qed.

Lemma strcmp_eq_spec (s1 : text) : forall s2, strcmp_eq s1 s2 = true <-> s1 = s2.
Proof.
  induction s1 as [|c1 s1 IH]; intros [|c2 s2]; cbn [strcmp_eq];
    try (split; [discriminate|congruence]); [split; reflexivity|].
  rewrite andb_true_iff, Ascii.eqb_eq, IH. split; [intros [-> ->]; reflexivity|].
  intros [= -> ->]. split; reflexivity.
Qed.

(** The search finds the first entry of the name, at its index. *)
Lemma find_format_spec table optarg :
  forall f0 f,
  find_format table optarg f0 = Some f ->
  (f0 <= f < f0 + length table)%nat /\
  exists entry, table !! (f - f0)%nat = Some entry /\
                format_string entry = optarg.
Proof.
  induction table as [|entry table IH]; intros f0 f Hf; [discriminate|].
  cbn [find_format] in Hf.
  destruct (strcmp_eq (format_string entry) optarg) eqn:Heq.
  - injection Hf as <-. cbn [length]. split; [lia|].
    exists entry. rewrite Nat.sub_diag. split; [reflexivity|].
    apply strcmp_eq_spec. exact Heq.
  - destruct (IH _ _ Hf) as (Hr & e & He & Hname). cbn [length].
    split; [lia|]. exists e. split; [|exact Hname].
    replace (f - f0)%nat with (S (f - S f0)) by lia. exact He.
Qed.

Lemma card_address_range v :
  (v <? MIN_BASE_ADDRESS) || (v >? MAX_BASE_ADDRESS)
  || negb (v mod CARD_MEMORY_SIZE =? 0) = false ->
  In v card_addresses.
Proof.
  unfold MIN_BASE_ADDRESS, MAX_BASE_ADDRESS, CARD_MEMORY_SIZE, card_addresses.
  intros H. apply orb_false_elim in H as [H Hm].
  apply orb_false_elim in H as [Hlo Hhi].
  apply Z.ltb_ge in Hlo. rewrite Z.gtb_ltb in Hhi. apply Z.ltb_ge in Hhi.
  apply negb_false_iff, Z.eqb_eq in Hm.
  assert (Hv : v = 8192 * (v / 8192)) by (Z.div_mod_to_equations; lia).
  assert (Hq : 1 <= v / 8192 <= 5) by (Z.div_mod_to_equations; lia).
  cbn [In].
  assert (v / 8192 = 1 \/ v / 8192 = 2 \/ v / 8192 = 3 \/ v / 8192 = 4
          \/ v / 8192 = 5) as [Hc|[Hc|[Hc|[Hc|Hc]]]] by lia;
    rewrite Hc in Hv; lia.
Qed.

(** [strtoul] leaves [errno] as it is or sets it to [ERANGE]. *)
Lemma strtoul_16_errno optarg errno :
  snd (strtoul_16 optarg errno) = 0 ->
  errno = 0 /\ strtoul_16 optarg errno = strtoul_16 optarg 0.
Proof.
  unfold strtoul_16.
  destruct (skip_space optarg) as [|c s0]; cbn zeta;
    repeat match goal with
           | |- context [let '(_, _) := ?x in _] => destruct x
           | |- context [if ?b then _ else _] => destruct b
           end; cbn [snd]; unfold ERANGE; intros H; try lia;
    subst; split; reflexivity.
Qed.

Lemma get_options_loop_spec errno opts :
  forall o0 options,
  get_options_loop opts errno o0 = (true, options) ->
  input_filename options = last_arg "i" opts (input_filename o0) /\
  output_filename options = last_arg "o" opts (output_filename o0) /\
  palette_filename options = last_arg "p" opts (palette_filename o0) /\
  base_address options =
    match last_arg "a" opts None with
    | Some optarg => uint16 (fst (strtoul_16 optarg 0))
    | None => base_address o0
    end /\
  match last_arg "f" opts None with
  | Some optarg => find_format formats optarg 0 = Some (format options)
  | None => format options = format o0
  end /\
  (In (base_address o0) card_addresses ->
   In (base_address options) card_addresses) /\
  input_filename options <> None /\
  Forall (option_ok errno) opts.
Proof.
  induction opts as [|[c optarg] opts IH]; intros o0 options Hrun.
  - cbn [get_options_loop] in Hrun. cbn [last_arg].
    destruct (input_filename o0) eqn:Hin; [|discriminate].
    injection Hrun as <-. rewrite Hin.
    repeat split; try reflexivity; try congruence; try tauto. constructor.
  - cbn [get_options_loop] in Hrun.
    destruct (Ascii.eqb_spec c "i") as [->|Hi].
    { destruct (IH _ _ Hrun) as (H1 & H2 & H3 & H4 & H5 & H6 & H7 & H8).
      cbn [input_filename output_filename palette_filename base_address
           format] in *.
      rewrite last_arg_same, !last_arg_other by discriminate.
      rewrite last_arg_found in H1.
      repeat split; try assumption.
      constructor; [|exact H8]. split; [tauto|]. split; discriminate. }
    destruct (Ascii.eqb_spec c "o") as [->|Ho].
    { destruct (IH _ _ Hrun) as (H1 & H2 & H3 & H4 & H5 & H6 & H7 & H8).
      cbn [input_filename output_filename palette_filename base_address
           format] in *.
      rewrite last_arg_same, !last_arg_other by discriminate.
      rewrite last_arg_found in H2.
      repeat split; try assumption.
      constructor; [|exact H8]. split; [tauto|]. split; discriminate. }
    destruct (Ascii.eqb_spec c "p") as [->|Hp].
    { destruct (IH _ _ Hrun) as (H1 & H2 & H3 & H4 & H5 & H6 & H7 & H8).
      cbn [input_filename output_filename palette_filename base_address
           format] in *.
      rewrite last_arg_same, !last_arg_other by discriminate.
      rewrite last_arg_found in H3.
      repeat split; try assumption.
      constructor; [|exact H8]. split; [tauto|]. split; discriminate. }
    destruct (Ascii.eqb_spec c "a") as [->|Ha].
    { pose proof (strtoul_16_errno optarg errno) as Herr.
      destruct (strtoul_16 optarg errno) as [v errno'].
      cbn [base_address snd] in Hrun, Herr.
      destruct (Z.eqb_spec errno' 0) as [He|Hne]; [|discriminate].
      destruct (Herr He) as [He0 Hsame]. cbn [negb] in Hrun.
      subst errno' errno.
      destruct ((uint16 v <? MIN_BASE_ADDRESS)
                || (uint16 v >? MAX_BASE_ADDRESS)
                || negb (uint16 v mod CARD_MEMORY_SIZE =? 0)) eqn:Hcheck;
        [discriminate|].
      apply card_address_range in Hcheck.
      destruct (IH _ _ Hrun) as (H1 & H2 & H3 & H4 & H5 & H6 & H7 & H8).
      cbn [input_filename output_filename palette_filename base_address
           format] in *.
      rewrite last_arg_same, !last_arg_other by discriminate.
      repeat split; try assumption.
      - rewrite H4. destruct (last_arg "a" opts None); [reflexivity|].
        rewrite <- Hsame. reflexivity.
      - intros _. apply H6. exact Hcheck.
      - constructor; [|exact H8]. split; [tauto|].
        split; [|discriminate]. intros _. rewrite <- Hsame.
        cbn [fst snd]. tauto. }
    destruct (Ascii.eqb_spec c "f") as [->|Hf]; [|discriminate].
    destruct (find_format formats optarg 0) as [f|] eqn:Hfind; [|discriminate].
    destruct (IH _ _ Hrun) as (H1 & H2 & H3 & H4 & H5 & H6 & H7 & H8).
    cbn [input_filename output_filename palette_filename base_address
         format] in *.
    rewrite last_arg_same, !last_arg_other by discriminate.
    repeat split; try assumption.
    + destruct (last_arg "f" opts None); [exact H5|].
      rewrite H5. exact Hfind.
    + constructor; [|exact H8]. split; [tauto|]. split; [discriminate|].
      intros _. destruct (find_format_spec _ _ _ _ Hfind)
        as (_ & entry & Hentry & Hname).
      exists entry. split; [|exact Hname].
      apply list_elem_of_In. eapply list_elem_of_lookup_2. exact Hentry.
Qed.

(** X6.  The options that [get_options] accepts.  When it returns true, the
    input file name is set; each file name is the argument of the last
    option of its letter (or unset); the base address is 0x2000 or, with an
    option [-a], the 16-bit value of the hexadecimal number of the last one,
    and is one of 0x2000, 0x4000, 0x6000, 0x8000, 0xA000; the format is the
    first entry of the table or, with an option [-f], the entry of the name
    given last; and every option on the line is one of [i o p a f], every
    [-a] with [errno] at 0 and a number that [strtoul] takes in and whose
    16-bit value is a card address, every [-f] with the name of a table
    entry. *)
Theorem get_options_accepted opts errno options :
  get_options opts errno = (true, options) ->
  input_filename options = last_arg "i" opts None /\
  input_filename options <> None /\
  output_filename options = last_arg "o" opts None /\
  palette_filename options = last_arg "p" opts None /\
  base_address options =
    match last_arg "a" opts None with
    | Some optarg => uint16 (fst (strtoul_16 optarg 0))
    | None => DEFAULT_BASE_ADDRESS
    end /\
  In (base_address options) card_addresses /\
  match last_arg "f" opts None with
  | Some optarg => find_format formats optarg 0 = Some (format options)
  | None => format options = 0%nat
  end /\
  (format options < length formats)%nat /\
  Forall (option_ok errno) opts.
Proof.
  intros Hrun. unfold get_options in Hrun.
  destruct (get_options_loop_spec errno opts _ _ Hrun)
    as (H1 & H2 & H3 & H4 & H5 & H6 & H7 & H8).
  cbn [input_filename output_filename palette_filename base_address format]
    in *.
  repeat split; try assumption.
  - apply H6. vm_compute. tauto.
  - destruct (last_arg "f" opts None) as [optarg|].
    + apply find_format_spec in H5 as [Hr _]. lia.
    + rewrite H5. cbn [formats length]. lia.
Qed.

Lemma get_options_accepted_witness :
  In (base_address
        (snd (get_options [("i", str "image.h"); ("a", str "12000")]%char 0)))
     card_addresses.
Proof.
  apply (get_options_accepted
           [("i", str "image.h"); ("a", str "12000")]%char 0 _ eq_refl).
Defined.

(** ** The name of the output file *)

Lemma c_string_app (s rest : text) :
  NUL ∉ s -> c_string (s ++ NUL :: rest) = Some s.
Proof.
  induction s as [|c s IH]; intros Hs; [reflexivity|].
  apply not_elem_of_cons in Hs as [Hc Hs]. cbn [app c_string].
  rewrite (proj2 (Ascii.eqb_neq c NUL)) by congruence.
  rewrite (IH Hs). reflexivity.
Qed.

Lemma store_text_app (s rest src : text) :
  (length src <= length rest)%nat ->
  store_text (s ++ rest) (length s) src
    = Some (s ++ src ++ drop (length src) rest).
Proof.
  intros Hfit. unfold store_text.
  rewrite bool_decide_eq_true_2 by (rewrite length_app; lia).
  rewrite take_app_length, drop_app_add. reflexivity.
Qed.

Lemma strcat_app (s rest src : text) :
  NUL ∉ s -> (length src <= length rest)%nat ->
  strcat (s ++ NUL :: rest) src
    = Some ((s ++ src) ++ NUL :: drop (length src) rest).
Proof.
  intros Hs Hfit. unfold strcat. rewrite (c_string_app s rest Hs).
  cbn [mbind option_bind].
  rewrite (store_text_app s (NUL :: rest) (src ++ [NUL]))
    by (rewrite length_app; cbn [length]; lia).
  rewrite length_app. cbn [length].
  replace (length src + 1)%nat with (S (length src)) by lia.
  cbn [drop]. rewrite <- !app_assoc. reflexivity.
Qed.

Lemma last_index_absent (s : text) c :
  c ∉ s -> forall i found, last_index s c i found = found.
Proof.
  induction s as [|a s IH]; intros Hs i found; [reflexivity|].
  apply not_elem_of_cons in Hs as [Ha Hs]. cbn [last_index].
  rewrite (proj2 (Ascii.eqb_neq a c)) by congruence. apply IH. exact Hs.
Qed.

Lemma last_index_last (pre ext : text) c :
  c ∉ ext ->
  forall i found,
  last_index (pre ++ c :: ext) c i found = Some (i + length pre)%nat.
Proof.
  intros Hext. induction pre as [|a pre IH]; intros i found.
  - cbn [app last_index length]. rewrite Ascii.eqb_refl.
    rewrite last_index_absent by exact Hext. f_equal. lia.
  - cbn [app last_index length]. rewrite IH. f_equal. lia.
Qed.

(** A text is cut at the last occurrence of a character, if it has one. *)
Lemma last_occurrence (c : ascii) (s : text) :
  (exists pre ext, s = pre ++ c :: ext /\ c ∉ ext) \/ c ∉ s.
Proof.
  induction s as [|a s [(pre & ext & -> & Hext)|IH]].
  - right. apply not_elem_of_nil.
  - left. exists (a :: pre), ext. split; [reflexivity|exact Hext].
  - destruct (Ascii.eqb_spec c a) as [->|Hne].
    + left. exists [], s. split; [reflexivity|exact IH].
    + right. apply not_elem_of_cons. split; assumption.
Qed.

(** The three string operations in the array that main allocates. *)
Lemma default_output_filename_strings (input fmt buf : text) :
  NUL ∉ input -> NUL ∉ fmt ->
  length buf = (length input + length fmt + 2)%nat ->
  exists name,
    default_output_filename input fmt buf = Some name /\
    length name = length buf /\
    ("."%char ∉ input -> c_string name = Some (input ++ str "." ++ fmt)) /\
    (forall pre ext,
       input = pre ++ "."%char :: ext -> "."%char ∉ ext ->
       c_string name = Some (pre ++ str "." ++ fmt)).
Proof.
  intros Hin Hfmt Hlen. unfold default_output_filename, strcpy.
  pose proof (store_text_app [] buf (input ++ [NUL])) as Hcpy.
  cbn [length app] in Hcpy. rewrite Hcpy
    by (rewrite length_app; cbn [length]; lia).
  cbn [mbind option_bind]. clear Hcpy.
  rewrite length_app. cbn [length]. rewrite <- app_assoc. cbn [app].
  set (tail := drop (length input + 1) buf).
  assert (Htail : length tail = (length fmt + 1)%nat)
    by (subst tail; rewrite length_drop; lia).
  unfold strrchr. rewrite (c_string_app input tail Hin).
  cbn [mbind option_bind].
  destruct (last_occurrence "." input) as [(pre & ext & Hsplit & Hext)|Hdot].
  - subst input. rewrite (last_index_last pre ext "." Hext).
    cbn [plus].
    assert (Hpre : NUL ∉ pre ++ ["."%char]).
    { intros Hel. apply Hin.
      apply elem_of_app in Hel as [Hel|Hel];
        [apply elem_of_app; left; exact Hel|].
      apply list_elem_of_singleton in Hel. discriminate. }
    assert (Hname : (pre ++ "."%char :: ext) ++ NUL :: tail
                    = (pre ++ ["."%char]) ++ ext ++ NUL :: tail)
      by (rewrite <- !app_assoc; reflexivity).
    rewrite Hname.
    replace (S (length pre)) with (length (pre ++ ["."%char]))
      by (rewrite length_app; cbn [length]; lia).
    rewrite (store_text_app (pre ++ ["."%char]) (ext ++ NUL :: tail) [NUL])
      by (rewrite length_app; cbn [length]; lia).
    cbn [mbind option_bind length app].
    rewrite strcat_app;
      [|exact Hpre
       |rewrite length_drop, length_app; cbn [length]; lia].
    eexists. split; [reflexivity|].
    split.
    + rewrite !length_app. cbn [length].
      rewrite !length_drop, !length_app. cbn [length].
      rewrite length_app in Hlen. cbn [length] in Hlen. lia.
    + split.
      * intros Hno. destruct Hno.
        apply elem_of_app. right. apply list_elem_of_here.
      * intros pre' ext' Hsplit' Hext'.
        assert (pre' = pre) as ->.
        { clear - Hsplit' Hext Hext'.
          revert pre' Hsplit'. induction pre as [|a pre IH]; intros pre' Heq.
          - destruct pre' as [|a' pre']; [reflexivity|].
            injection Heq as <- ->. destruct Hext.
            apply elem_of_app. right. apply list_elem_of_here.
          - destruct pre' as [|a' pre'].
            + injection Heq as -> <-. destruct Hext'.
              apply elem_of_app. right. apply list_elem_of_here.
            + injection Heq as -> Heq. f_equal. apply IH. exact Heq. }
        rewrite c_string_app.
        -- rewrite <- !app_assoc. reflexivity.
        -- intros Hel. apply elem_of_app in Hel as [Hel|Hel];
             [exact (Hpre Hel)|exact (Hfmt Hel)].
  - rewrite last_index_absent by exact Hdot.
    rewrite strcat_app; [|exact Hin|cbn [str list_ascii_of_string length]; lia].
    cbn [mbind option_bind].
    assert (Hstem : NUL ∉ input ++ str ".").
    { intros Hel. apply elem_of_app in Hel as [Hel|Hel]; [exact (Hin Hel)|].
      apply list_elem_of_singleton in Hel. discriminate. }
    rewrite strcat_app;
      [|exact Hstem
       |rewrite length_drop; cbn [str list_ascii_of_string length]; lia].
    eexists. split; [reflexivity|].
    split.
    + rewrite !length_app. cbn [length str list_ascii_of_string].
      rewrite !length_drop. cbn [length]. lia.
    + split.
      * intros _. rewrite c_string_app.
        -- rewrite <- !app_assoc. reflexivity.
        -- intros Hel. apply elem_of_app in Hel as [Hel|Hel];
             [exact (Hstem Hel)|exact (Hfmt Hel)].
      * intros pre ext Hsplit _. destruct Hdot. rewrite Hsplit.
        apply elem_of_app. right. apply list_elem_of_here.
Qed.

(** X7.  The default name of the output file.  In the array that main
    allocates ([strlen( input_filename ) + strlen( format_string ) + 2]
    characters, whatever they hold), the three string operations stay inside
    the array, and the string they leave is the input name up to and with
    its last dot, followed by the format name; an input name without a dot
    gets a dot and the format name appended.  (A dot in a directory part
    counts: the name is cut there.) *)
Theorem default_output_filename_spec (input fmt buf : text) :
  NUL ∉ input -> NUL ∉ fmt ->
  length buf = (length input + length fmt + 2)%nat ->
  exists name,
    default_output_filename input fmt buf = Some name /\
    length name = length buf /\
    ("."%char ∉ input -> c_string name = Some (input ++ str "." ++ fmt)) /\
    (forall pre ext,
       input = pre ++ "."%char :: ext -> "."%char ∉ ext ->
       c_string name = Some (pre ++ str "." ++ fmt)).
Proof. apply default_output_filename_strings. Qed.

Lemma default_output_filename_spec_witness :
  exists name,
    default_output_filename (str "a.b/image.h") (str "ihex")
      (replicate 17 "?"%char) = Some name /\
    c_string name = Some (str "a.b/image" ++ str "." ++ str "ihex").
Proof.
  destruct (default_output_filename_spec (str "a.b/image.h") (str "ihex")
              (replicate 17 "?"%char))
    as (name & Hrun & _ & _ & Hcut).
  - cbv [str list_ascii_of_string].
    repeat (apply not_elem_of_cons; split; [discriminate|]).
    apply not_elem_of_nil.
  - cbv [str list_ascii_of_string].
    repeat (apply not_elem_of_cons; split; [discriminate|]).
    apply not_elem_of_nil.
  - reflexivity.
  - exists name. split; [exact Hrun|].
    apply (Hcut (str "a.b/image") (str "h")); [reflexivity|].
    cbv [str list_ascii_of_string].
    repeat (apply not_elem_of_cons; split; [discriminate|]).
    apply not_elem_of_nil.
Defined.

(** ** The writers on a stream that may fail *)

(** A call either fails or does what it does on the stream without
    failures. *)
Lemma fprintf_unfailing f s r f1 :
  fprintf f s = (r, f1) ->
  (0 >? r) = true \/
  ((0 >? r) = false /\ fprintf (unfailing f) s = (r, unfailing f1)).
Proof.
  unfold fprintf, unfailing. cbn [faults contents].
  destruct (faults f) as [|[|] fs]; intros [= <- <-]; cbn [contents];
    [right|left; reflexivity|right];
    (split; [apply length_not_negative|reflexivity]).
Qed.

Ltac step_write :=
  match goal with
  | |- context [fprintf ?f ?s] =>
      lazymatch f with unfailing _ => fail | _ => idtac end;
      let r := fresh "r" in
      let f1 := fresh "f" in
      let E := fresh "E" in
      let Hneg := fresh "Hneg" in
      let Hc := fresh "Hc" in
      destruct (fprintf f s) as [r f1] eqn:E;
      destruct (fprintf_unfailing _ _ _ _ E) as [Hneg|[Hneg Hc]];
      [rewrite ?Hneg; cbn [fst]; try (intros Hzero; destruct Hzero; reflexivity)
      |rewrite ?Hc; cbv beta iota zeta; rewrite ?Hneg; cbn [fst snd];
       clear E Hc]
  end.

(** A run of the shared loop that returns a count other than 0 has met no
    failure: it is the run on the stream without failures. *)
Lemma write_loop_unfailing per_line modulus mark kind show data_size data :
  forall byte_num checksum lines address f,
  fst (write_loop per_line modulus mark kind show data_size data
         byte_num checksum lines address f) <> 0 ->
  write_loop per_line modulus mark kind show data_size data
    byte_num checksum lines address (unfailing f) =
  (fst (write_loop per_line modulus mark kind show data_size data
          byte_num checksum lines address f),
   unfailing (snd (write_loop per_line modulus mark kind show data_size data
                 byte_num checksum lines address f))).
Proof.
  induction data as [|d rest IH]; intros byte_num checksum lines address f;
    cbn [write_loop].
  - step_write. intros _. reflexivity.
  - destruct (byte_num mod per_line =? 0); [destruct (byte_num =? 0)|];
      cbv beta iota zeta; try change (0 >? 0) with false;
      cbv beta iota zeta; repeat step_write; apply IH.
Qed.
Lemma no_fault_unfailing f : no_fault (unfailing f).
Proof. constructor. Qed.

(** X8.  No partial output passes for a success.  On every stream,
    whichever of its calls fail, a count other than 0 returned by
    [ihex_write] or [pap_write] for a buffer that is not empty means that
    all the records of the buffer have been appended, complete and in
    order.  A call with no bytes returns 0 on every stream. *)
Theorem write_count_means_complete f address data :
  data <> [] -> 0 <= address < 65536 ->
  (fst (ihex.ihex_write f address data) <> 0 ->
   contents (snd (ihex.ihex_write f address data)) =
   contents f
   ++ concat (records ihex_record ihex.BYTES_PER_LINE address data)) /\
  (fst (pap.pap_write f address data) <> 0 ->
   contents (snd (pap.pap_write f address data)) =
   contents f
   ++ concat (records pap_record pap.BYTES_PER_LINE address data)) /\
  fst (ihex.ihex_write f address []) = 0 /\
  fst (pap.pap_write f address []) = 0.
Proof.
  intros Hne Ha. split; [|split].
  - intros Hcount.
    destruct (ihex_write_records (unfailing f) address data (no_fault_unfailing f)
                Hne Ha) as (f' & Hrun & Hcont & _).
    unfold ihex.ihex_write in *. rewrite ihex_write_loop_shared in *.
    rewrite write_loop_unfailing in Hrun by exact Hcount.
    injection Hrun as _ Hf'. rewrite <- Hf' in Hcont. exact Hcont.
  - intros Hcount.
    destruct (pap_write_records (unfailing f) address data (no_fault_unfailing f)
                Hne Ha) as (f' & Hrun & Hcont & _).
    unfold pap.pap_write in *. rewrite pap_write_loop_shared in *.
    rewrite write_loop_unfailing in Hrun by exact Hcount.
    injection Hrun as _ Hf'. rewrite <- Hf' in Hcont. exact Hcont.
  - unfold ihex.ihex_write, pap.pap_write.
    cbn [length ihex.ihex_write_loop pap.pap_write_loop].
    split.
    + destruct (fprintf f _) as [r f1]. cbn [fst]. destruct (0 >? r); reflexivity.
    + destruct (fprintf f _) as [r f1]. cbn [fst]. destruct (0 >? r); reflexivity.
Qed.

Lemma write_count_means_complete_witness :
  contents (snd (ihex.ihex_write (mk_FILE [] [false; false]) 0x2000 [1; 2])) =
  [] ++ concat (records ihex_record ihex.BYTES_PER_LINE 0x2000 [1; 2]).
Proof.
  apply (proj1 (write_count_means_complete (mk_FILE [] [false; false])
                  0x2000 [1; 2] ltac:(discriminate) ltac:(lia))).
  vm_compute. discriminate.
Defined.

(** ** open_palette *)

(** Comparing an array with a terminated string over the length of the
    string and its terminator. *)
Lemma strncmp_eq_prefix (s2 : text) :
  forall s1 : text,
  NUL ∉ s2 ->
  strncmp_eq s1 (s2 ++ [NUL]) (S (length s2)) = true <->
  take (length s2) s1 = s2 /\ s1 !! length s2 = Some NUL.
Proof.
  induction s2 as [|c2 s2 IH]; intros s1 H2.
  - destruct s1 as [|c1 s1]; cbn [strncmp_eq app length take lookup list_lookup].
    + split; [discriminate|]. intros [_ H]. discriminate.
    + replace (strncmp_eq s1 [] 0) with true by (destruct s1; reflexivity).
      rewrite orb_true_r, andb_true_r, Ascii.eqb_eq.
      split; [intros ->; split; reflexivity|]. intros [_ [= ->]]. reflexivity.
  - apply not_elem_of_cons in H2 as [Hc2 H2].
    destruct s1 as [|c1 s1].
    + cbn [strncmp_eq app length take lookup list_lookup].
      split; [discriminate|]. intros [H _]. discriminate.
    + change (strncmp_eq (c1 :: s1) ((c2 :: s2) ++ [NUL])
                (S (length (c2 :: s2))))
        with (Ascii.eqb c1 c2
              && (Ascii.eqb c1 NUL
                  || strncmp_eq s1 (s2 ++ [NUL]) (S (length s2)))).
      cbn [length take lookup list_lookup].
      destruct (Ascii.eqb_spec c1 c2) as [->|Hne].
      * rewrite (proj2 (Ascii.eqb_neq c2 NUL)) by congruence.
        rewrite andb_true_l, orb_false_l, (IH s1 H2).
        split; [intros [-> H]; split; [reflexivity|exact H]|].
        intros [[= Ht] H]. split; assumption.
      * rewrite andb_false_l. split; [discriminate|].
        intros [[= Hc _] _]. congruence.
Qed.

(** X9.  What [open_palette] accepts.  For a file of at least 13 bytes the
    stream is returned exactly when the 13 bytes read are the signature line
    and the character of the caller's buffer behind them, which the call does
    not write, is the NUL character: the comparison runs over the terminator
    of the signature.  (main passes a buffer that it has not written
    yet.) *)
Theorem open_palette_accepts pf (buffer : text) :
  (13 <= length (sig_bytes pf))%nat -> (14 <= length buffer)%nat ->
  (open_palette (Some pf) buffer = Some (palette_lines pf) <->
   take 13 (sig_bytes pf) = palette_sig /\ buffer !! 13%nat = Some NUL) /\
  (open_palette (Some pf) buffer = None <->
   ~ (take 13 (sig_bytes pf) = palette_sig /\ buffer !! 13%nat = Some NUL)).
Proof.
  intros Hsig Hbuf. unfold open_palette.
  assert (Hgot : length (take 13 (sig_bytes pf)) = 13%nat)
    by (rewrite length_take; lia).
  rewrite Hgot.
  pose proof (strncmp_eq_prefix palette_sig
                (take 13 (sig_bytes pf) ++ drop 13 buffer)) as Hcmp.
  change (S (length palette_sig)) with 14%nat in Hcmp.
  change (length palette_sig) with 13%nat in Hcmp.
  change (palette_sig ++ [NUL]) with (palette_sig ++ ["000"%char]) in Hcmp.
  rewrite (take_app_length' _ _ 13) in Hcmp by (symmetry; exact Hgot).
  rewrite lookup_app_r, Hgot, Nat.sub_diag, lookup_drop, Nat.add_0_r in Hcmp
    by lia.
  assert (Hno : NUL ∉ palette_sig).
  { cbv [palette_sig nl str list_ascii_of_string app].
    repeat (apply not_elem_of_cons; split; [discriminate|]).
    apply not_elem_of_nil. }
  specialize (Hcmp Hno).
  destruct (strncmp_eq _ _ 14).
  - split; [split; [intros _; apply Hcmp; reflexivity|reflexivity]|].
    split; [discriminate|]. intros Hn. destruct Hn. apply Hcmp. reflexivity.
  - split; [split; [discriminate|]|].
    + intros H. apply Hcmp in H. discriminate.
    + split; [|reflexivity]. intros _ H. apply Hcmp in H. discriminate.
Qed.

Lemma open_palette_accepts_witness :
  open_palette (Some (mk_palette_file (palette_sig ++ str "#") []))
               (replicate 13 "?"%char ++ [NUL]) = Some [].
Proof.
  apply (proj1 (open_palette_accepts
                  (mk_palette_file (palette_sig ++ str "#") [])
                  (replicate 13 "?"%char ++ [NUL])
                  ltac:(vm_compute; lia) ltac:(vm_compute; lia))).
  split; reflexivity.
Defined.

(** ** parse_image: the pixels stored *)

Lemma digit_value_newline : digit_value "010" = None.
Proof. reflexivity. Qed.

Lemma isdigit_value c : isdigit c = match digit_value c with Some _ => true | None => false end.
Proof. reflexivity. Qed.

(** [strtoul] reads the token that starts the text. *)
Lemma line_tokens_digits (s : text) :
  forall acc,
  line_tokens s (Some acc) =
  fst (digits_value s acc) :: line_tokens (snd (digits_value s acc)) None.
Proof.
  induction s as [|c s IH]; intros acc; [reflexivity|].
  cbn [line_tokens digits_value].
  destruct (Ascii.eqb_spec c "010") as [->|Hnl].
  - rewrite digit_value_newline. cbn [fst snd line_tokens].
    rewrite Ascii.eqb_refl. reflexivity.
  - destruct (digit_value c) as [d|] eqn:Hd.
    + cbn [default from_option id]. apply IH.
    + cbn [fst snd line_tokens].
      rewrite (proj2 (Ascii.eqb_neq c "010")) by exact Hnl.
      rewrite Hd. reflexivity.
Qed.

(** What [strtoul] leaves is a tail of the text that still holds its
    newline. *)
Lemma digits_value_rest (s : text) :
  forall acc,
  (length (snd (digits_value s acc)) <= length s)%nat /\
  ("010"%char ∈ s -> "010"%char ∈ snd (digits_value s acc)).
Proof.
  induction s as [|c s IH]; intros acc; cbn [digits_value].
  - split; [reflexivity|tauto].
  - destruct (digit_value c) as [d|] eqn:Hd.
    + destruct (IH (10 * acc + d)) as [Hlen Hnl]. cbn [length].
      split; [lia|]. intros Hin. apply Hnl.
      apply elem_of_cons in Hin as [<-|Hin]; [|exact Hin].
      rewrite digit_value_newline in Hd. discriminate.
    + cbn [snd]. split; [reflexivity|tauto].
Qed.

Lemma parse_line_tokens cmap (fuel : nat) :
  forall line image_size image_rev,
  (length line < fuel)%nat ->
  "010"%char ∈ line ->
  Forall (fun v => v <= ULONG_MAX /\ uint8 v < Z.of_nat (length cmap))
         (line_tokens line None) ->
  image_size + Z.of_nat (length (line_tokens line None))
    <= MAX_IMAGE_SIZE + 1 ->
  parse_line fuel line cmap image_size 0 image_rev =
  Some (Continue (image_size + Z.of_nat (length (line_tokens line None)), 0,
                  reverse (map (pixel_of cmap) (line_tokens line None))
                  ++ image_rev)).
Proof.
  induction fuel as [|fuel IH]; intros line image_size image_rev Hfuel Hnl
    Htoks Hsize; [lia|].
  destruct line as [|c line]; [apply elem_of_nil in Hnl; destruct Hnl|].
  cbn [parse_line]. cbn [line_tokens] in Htoks, Hsize |- *.
  destruct (Ascii.eqb_spec c "010") as [->|Hc].
  - cbn [length map reverse app]. rewrite Z.add_0_r. reflexivity.
  - apply elem_of_cons in Hnl as [Heq|Hnl]; [congruence|].
    rewrite isdigit_value.
    destruct (digit_value c) as [d|] eqn:Hd; cbn [negb].
    + cbn [default from_option id] in Htoks, Hsize |- *.
      change (10 * 0 + d) with d in *.
      rewrite line_tokens_digits in Htoks, Hsize |- *.
      cbn [length] in Hsize.
      apply Forall_cons in Htoks as [[Hv Hpx] Htoks].
      rewrite Z.gtb_ltb, (proj2 (Z.ltb_ge MAX_IMAGE_SIZE image_size)) by lia.
      unfold strtoul. cbn [digits_value]. rewrite Hd.
      change (10 * 0 + d) with d.
      destruct (digits_value_rest line d) as [Hlen Hrest].
      destruct (digits_value line d) as [v rest]. cbn [fst snd] in *.
      rewrite Z.gtb_ltb, (proj2 (Z.ltb_ge ULONG_MAX v)) by lia.
      cbn [Z.eqb negb].
      destruct (load_in_range cmap (uint8 v)) as [px Hload];
        [pose proof (uint8_range v); lia|].
      rewrite Hload. cbn [mbind option_bind].
      rewrite (IH rest (image_size + 1) (px :: image_rev));
        [|cbn [length] in Hfuel; lia|apply Hrest; exact Hnl|exact Htoks|lia].
      assert (Hpixel : pixel_of cmap v = px)
        by (unfold pixel_of; rewrite Hload; reflexivity).
      cbn [length map]. rewrite reverse_cons, <- app_assoc, Hpixel.
      cbn [app]. rewrite Nat2Z.inj_succ.
      replace (image_size + 1 + Z.of_nat (length (line_tokens rest None)))
        with (image_size + Z.succ (Z.of_nat (length (line_tokens rest None))))
        by lia.
      reflexivity.
    + cbn [app] in *. apply IH; [cbn [length] in Hfuel; lia|exact Hnl
                                |exact Htoks|exact Hsize].
Qed.

Lemma parse_image_loop_tokens cmap closing rest (pre : lines_t) :
  forall image_size image_rev,
  Forall data_line pre ->
  strstr closing (str "};") = true ->
  Forall (fun v => v <= ULONG_MAX /\ uint8 v < Z.of_nat (length cmap))
         (block_tokens pre) ->
  image_size + Z.of_nat (length (block_tokens pre)) <= MAX_IMAGE_SIZE + 1 ->
  parse_image_loop (pre ++ closing :: rest) cmap image_size 0 image_rev =
  Some (mk_parsed (image_size + Z.of_nat (length (block_tokens pre)))
          (reverse image_rev ++ map (pixel_of cmap) (block_tokens pre))
          None).
Proof.
  induction pre as [|line pre IH]; intros image_size image_rev Hpre Hclose
    Htoks Hsize.
  - cbn [app parse_image_loop block_tokens map concat length].
    rewrite Hclose, Z.add_0_r, app_nil_r. reflexivity.
  - apply Forall_cons in Hpre as [[Hline Hnl] Hpre].
    unfold block_tokens in Htoks, Hsize |- *. cbn [map concat] in *.
    fold (block_tokens pre) in *.
    apply Forall_app in Htoks as [Htl Htp].
    rewrite length_app in Hsize.
    cbn [app parse_image_loop]. rewrite Hline.
    rewrite (parse_line_tokens cmap) by (try assumption; lia).
    rewrite IH by (try assumption; lia).
    rewrite length_app, map_app, reverse_app, reverse_involutive, <- app_assoc.
    do 2 f_equal. lia.
Qed.



(** ** parse_image: errno *)

Lemma strtoul_errno s errno :
  errno <> 0 -> snd (fst (strtoul s errno)) <> 0.
Proof.
  intros Hne. unfold strtoul. destruct (digits_value s 0) as [v rest].
  destruct (v >? ULONG_MAX); cbn [fst snd]; [discriminate|exact Hne].
Qed.

Lemma parse_line_errno cmap errno (fuel : nat) :
  errno <> 0 ->
  forall line image_rev,
  (length line < fuel)%nat ->
  parse_line fuel line cmap 0 errno image_rev
    = Some (Continue (0, errno, image_rev)) \/
  exists p, parse_line fuel line cmap 0 errno image_rev = Some (Return p) /\
            returned p = 0.
Proof.
  intros Hne. induction fuel as [|fuel IH]; intros line image_rev Hfuel; [lia|].
  destruct line as [|c line]; cbn [parse_line].
  - right. eexists. split; reflexivity.
  - destruct (Ascii.eqb c "010"); [left; reflexivity|].
    destruct (isdigit c); cbn [negb];
      [|apply IH; cbn [length] in Hfuel; lia].
    change (0 >? MAX_IMAGE_SIZE) with false. cbv iota.
    pose proof (strtoul_errno (c :: line) errno Hne) as Herr.
    destruct (strtoul (c :: line) errno) as [[v errno'] rest].
    cbn [fst snd] in Herr.
    rewrite (proj2 (Z.eqb_neq errno' 0)) by exact Herr. cbn [negb].
    right. eexists. split; reflexivity.
Qed.

(** X11.  [parse_image] tests [errno] after each [strtoul] and never sets
    it to 0 before: entered with [errno] other than 0, it returns 0 on every
    input. *)
Theorem parse_image_stale_errno image_file cmap errno :
  errno <> 0 ->
  exists p, parse_image image_file cmap errno = Some p /\ returned p = 0.
Proof.
  intros Hne. unfold parse_image. generalize (@nil Z) as image_rev.
  induction image_file as [|line rest IH]; intros image_rev;
    cbn [parse_image_loop].
  - eexists. split; reflexivity.
  - destruct (strstr line (str "};")); [eexists; split; reflexivity|].
    destruct (parse_line_errno cmap errno (S (length line)) Hne line image_rev)
      as [Hrun|(p & Hrun & Hp)]; [lia| |]; rewrite Hrun.
    + apply IH.
    + exists p. split; [reflexivity|exact Hp].
Qed.

Lemma parse_image_stale_errno_witness :
  exists p,
    parse_image [str "1,0," ++ nl; str "};" ++ nl] [0; 1] 25 = Some p /\
    returned p = 0.
Proof.
  apply parse_image_stale_errno. discriminate.
Defined.

(** ** convert_to_layers: what it leaves alone *)

(** A row writes the bytes of the row in each plane and no other. *)
Lemma layer_row_frame raw color_bits x_size y st :
  0 <= color_bits -> 1 <= x_size <= 65528 -> 0 <= y ->
  (y + 1) * x_size <= Z.of_nat (length raw) ->
  conv_byte st = y * row_bytes x_size ->
  (y + 1) * row_bytes x_size <= CARD_MEMORY_SIZE ->
  CARD_MEMORY_SIZE * color_bits <= Z.of_nat (length (binary st)) ->
  exists st',
    layer_row raw color_bits x_size y st = Some st' /\
    conv_byte st' = (y + 1) * row_bytes x_size /\
    length (binary st') = length (binary st) /\
    forall j,
      (forall cbit g, 0 <= cbit < color_bits ->
         y * row_bytes x_size <= g < (y + 1) * row_bytes x_size ->
         j <> g + CARD_MEMORY_SIZE * cbit) ->
      load (binary st') j = load (binary st) j.
Proof.
  intros Hcb Hx Hy Hraw Hconv Hfit Hlen.
  set (W := row_bytes x_size) in *.
  assert (HW : 8 * W - 8 < x_size <= 8 * W)
    by (subst W; unfold row_bytes; Z.div_mod_to_equations; lia).
  unfold layer_row.
  destruct (for_loop_inv (Z.to_nat W)
    (fun k st' =>
       conv_byte st' = y * W + Z.of_nat k /\
       length (binary st') = length (binary st) /\
       forall j,
         (forall cbit g, 0 <= cbit < color_bits ->
            y * W <= g < y * W + Z.of_nat k ->
            j <> g + CARD_MEMORY_SIZE * cbit) ->
         load (binary st') j = load (binary st) j)
    (fun k => 8 * Z.of_nat k) uint16_fuel
    (fun x => x <? x_size) (fun x => uint16 (x + 8))
    (layer_group raw color_bits x_size y) st)
    as (st1 & Hrun & Hc & Hl & Hkeep).
  - unfold uint16_fuel. lia.
  - intros k Hk. split; [apply Z.ltb_lt; lia|].
    unfold uint16. rewrite Z.mod_small by lia. lia.
  - apply Z.ltb_ge. lia.
  - split; [lia|]. split; reflexivity.
  - intros k s Hk (Hc & Hl & Hkeep).
    destruct (layer_group_spec raw color_bits x_size y (8 * Z.of_nat k) s)
      as (s' & Hrun & Hc' & _ & Hl' & Hother & _); try assumption;
      try (unfold CARD_MEMORY_SIZE in *; nia).
    exists s'. split; [exact Hrun|].
    split; [lia|]. split; [lia|].
    intros j Hj. rewrite Hother.
    + apply Hkeep. intros cbit g Hcbit Hg. apply Hj; [exact Hcbit|lia].
    + intros cbit Hcbit. rewrite Hc. apply Hj; [exact Hcbit|lia].
  - exists st1. change (8 * Z.of_nat 0) with 0 in Hrun.
    split; [exact Hrun|]. rewrite Z2Nat.id in * by lia.
    split; [lia|]. split; [exact Hl|].
    intros j Hj. apply Hkeep. intros cbit g Hcbit Hg.
    apply Hj; [exact Hcbit|lia].
Qed.

Lemma convert_to_layers_keeps raw bin color_bits x_size y_size :
  0 <= color_bits -> 1 <= x_size <= 65528 -> 0 <= y_size <= 65535 ->
  x_size * y_size <= Z.of_nat (length raw) ->
  row_bytes x_size * y_size <= CARD_MEMORY_SIZE ->
  CARD_MEMORY_SIZE * color_bits <= Z.of_nat (length bin) ->
  exists bin' n,
    convert_to_layers raw bin color_bits x_size y_size = Some (bin', n) /\
    forall j,
      (forall cbit g, 0 <= cbit < color_bits ->
         0 <= g < row_bytes x_size * y_size ->
         j <> g + CARD_MEMORY_SIZE * cbit) ->
      load bin' j = load bin j.
Proof.
  intros Hcb Hx Hy Hraw Hfit Hlen.
  set (W := row_bytes x_size) in *.
  assert (HW : 1 <= W)
    by (subst W; unfold row_bytes; Z.div_mod_to_equations; lia).
  unfold convert_to_layers.
  destruct (for_loop_inv (Z.to_nat y_size)
    (fun k st' =>
       conv_byte st' = Z.of_nat k * W /\
       length (binary st') = length bin /\
       forall j,
         (forall cbit g, 0 <= cbit < color_bits ->
            0 <= g < W * Z.of_nat k ->
            j <> g + CARD_MEMORY_SIZE * cbit) ->
         load (binary st') j = load bin j)
    Z.of_nat uint16_fuel
    (fun y => y <? y_size) (fun y => uint16 (y + 1))
    (layer_row raw color_bits x_size) (mk_layers bin 0 0))
    as (st1 & Hrun & Hc & Hl & Hkeep).
  - unfold uint16_fuel. lia.
  - intros k Hk. split; [apply Z.ltb_lt; lia|].
    unfold uint16. rewrite Z.mod_small by lia. lia.
  - apply Z.ltb_ge. lia.
  - split; [reflexivity|]. split; reflexivity.
  - intros k s Hk (Hc & Hl & Hkeep).
    destruct (layer_row_frame raw color_bits x_size (Z.of_nat k) s)
      as (s' & Hrun & Hc' & Hl' & Hother); try assumption; try lia;
      try (fold W; nia).
    exists s'. split; [exact Hrun|]. fold W in Hc', Hother.
    split; [lia|]. split; [lia|].
    intros j Hj. rewrite Hother.
    + apply Hkeep. intros cbit g Hcbit Hg. apply Hj; [exact Hcbit|nia].
    + intros cbit g Hcbit Hg. apply Hj; [exact Hcbit|nia].
  - change (Z.of_nat 0) with 0 in Hrun. rewrite Hrun.
    cbn [mbind option_bind]. rewrite Z2Nat.id in * by lia.
    exists (binary st1), (data_size st1). split; [reflexivity|exact Hkeep].
Qed.

(** A byte is given by its eight bits. *)
Lemma is_plane_byte_unique raw x_size y x cbit v w :
  is_plane_byte raw x_size y x cbit v ->
  is_plane_byte raw x_size y x cbit w -> v = w.
Proof.
  intros [Hv Hvb] [Hw Hwb]. apply Z.bits_inj'. intros n Hn.
  destruct (Z_lt_le_dec n 8) as [Hlt|Hge].
  - replace n with (7 - (7 - n)) by lia.
    rewrite Hvb, Hwb by lia. reflexivity.
  - rewrite !(Z.bits_above_log2) ; try reflexivity; try lia.
    + destruct (Z.eq_dec w 0) as [->|Hnz]; [cbn; lia|].
      apply Z.lt_le_trans with 8; [|exact Hge].
      apply Z.log2_lt_pow2; lia.
    + destruct (Z.eq_dec v 0) as [->|Hnz]; [cbn; lia|].
      apply Z.lt_le_trans with 8; [|exact Hge].
      apply Z.log2_lt_pow2; lia.
Qed.

(** X12.  What [convert_to_layers] writes and what it leaves.  Within the
    limits of the device (up to four planes, which includes none),
    [convert_to_layers] returns [color_bits * ceil(width/8) * height], the
    count of the bytes of all the planes together; it leaves every byte of
    the buffer as it was except the first [ceil(width/8) * height] bytes of
    each of the [color_bits] planes; and what it leaves in those does not
    depend on what the buffer held before. *)
Theorem convert_to_layers_frame raw bin color_bits x_size y_size :
  1 <= x_size <= MAX_COL_BYTES * 8 ->
  1 <= y_size <= MAX_ROWS ->
  0 <= color_bits <= MAX_CARDS ->
  x_size * y_size <= Z.of_nat (length raw) ->
  Z.of_nat (length bin) = MAX_CARDS * CARD_MEMORY_SIZE ->
  exists bin',
    convert_to_layers raw bin color_bits x_size y_size =
      Some (bin', color_bits * row_bytes x_size * y_size) /\
    length bin' = length bin /\
    (forall j,
       color_bits <= j / CARD_MEMORY_SIZE \/
       row_bytes x_size * y_size <= j mod CARD_MEMORY_SIZE ->
       load bin' j = load bin j) /\
    (forall bin2,
       Z.of_nat (length bin2) = MAX_CARDS * CARD_MEMORY_SIZE ->
       exists bin2',
         convert_to_layers raw bin2 color_bits x_size y_size =
           Some (bin2', color_bits * row_bytes x_size * y_size) /\
         forall j cbit,
           0 <= j < row_bytes x_size * y_size -> 0 <= cbit < color_bits ->
           load bin2' (j + CARD_MEMORY_SIZE * cbit) =
           load bin' (j + CARD_MEMORY_SIZE * cbit)).
Proof.
  intros Hx Hy Hcb Hraw Hbin.
  unfold MAX_COL_BYTES, MAX_ROWS, MAX_CARDS in *.
  assert (HW : 1 <= row_bytes x_size <= 40)
    by (unfold row_bytes; Z.div_mod_to_equations; lia).
  assert (Hfit : row_bytes x_size * y_size <= CARD_MEMORY_SIZE)
    by (unfold CARD_MEMORY_SIZE; nia).
  destruct (convert_to_layers_spec raw bin color_bits x_size y_size)
    as (bin' & Hrun & Hlen & Hok); try lia;
    try (unfold CARD_MEMORY_SIZE in *; lia).
  destruct (convert_to_layers_keeps raw bin color_bits x_size y_size)
    as (bin1 & n1 & Hrun1 & Hkeep); try lia;
    try (unfold CARD_MEMORY_SIZE in *; lia).
  rewrite Hrun in Hrun1. injection Hrun1 as <- <-.
  exists bin'. split; [exact Hrun|]. split; [exact Hlen|]. split.
  - intros j Hj. apply Hkeep. intros cbit g Hcbit Hg ->.
    unfold CARD_MEMORY_SIZE in *.
    replace (g + 8192 * cbit) with (g + cbit * 8192) in Hj by lia.
    rewrite Z.div_add, Z.mod_add, Z.div_small, Z.mod_small in Hj by lia.
    lia.
  - intros bin2 Hbin2.
    destruct (convert_to_layers_spec raw bin2 color_bits x_size y_size)
      as (bin2' & Hrun2 & _ & Hok2); try lia;
      try (unfold CARD_MEMORY_SIZE in *; lia).
    exists bin2'. split; [exact Hrun2|].
    intros j cbit Hj Hcbit.
    destruct (Hok j cbit Hj Hcbit) as (v & Hv & Hbyte).
    destruct (Hok2 j cbit Hj Hcbit) as (w & Hw & Hbyte2).
    rewrite Hv, Hw. f_equal. eapply is_plane_byte_unique; eassumption.
Qed.

Lemma convert_to_layers_frame_witness :
  exists bin',
    convert_to_layers [1; 0; 1] (replicate (Z.to_nat 32768) 0xEE) 0 3 1 =
      Some (bin', 0 * row_bytes 3 * 1) /\
    length bin' = length (replicate (Z.to_nat 32768) 0xEE) /\
    (forall j,
       0 <= j / CARD_MEMORY_SIZE \/
       row_bytes 3 * 1 <= j mod CARD_MEMORY_SIZE ->
       load bin' j = load (replicate (Z.to_nat 32768) 0xEE) j).
Proof.
  destruct (convert_to_layers_frame [1; 0; 1]
              (replicate (Z.to_nat 32768) 0xEE) 0 3 1)
    as (bin' & Hrun & Hlen & Hkeep & _).
  - unfold MAX_COL_BYTES. lia.
  - unfold MAX_ROWS. lia.
  - unfold MAX_CARDS. lia.
  - cbn [length]. lia.
  - vm_compute. reflexivity.
  - exists bin'. split; [exact Hrun|]. split; [exact Hlen|exact Hkeep].
Defined.

(** ** convert_to_layers: the bits that the planes keep *)

(** X13.  Reading the planes back gives each raster value reduced modulo
    [2^color_bits]: a value that needs more bits than there are planes (a
    palette whose size is not a power of two has such indices) comes back as
    another index; with no plane at all every pixel reads 0. *)
Theorem planes_keep_low_bits raw bin color_bits x_size y_size :
  1 <= x_size <= MAX_COL_BYTES * 8 ->
  1 <= y_size <= MAX_ROWS ->
  0 <= color_bits <= MAX_CARDS ->
  Z.of_nat (length raw) = x_size * y_size ->
  Z.of_nat (length bin) = MAX_CARDS * CARD_MEMORY_SIZE ->
  exists bin' n,
    convert_to_layers raw bin color_bits x_size y_size = Some (bin', n) /\
    planes_to_raster bin' color_bits x_size y_size =
      Some (map (fun v => v mod 2 ^ color_bits) raw).
Proof.
  intros Hx Hy Hcb Hraw Hbin.
  unfold MAX_COL_BYTES, MAX_ROWS, MAX_CARDS in *.
  assert (HW : 8 * row_bytes x_size - 8 < x_size <= 8 * row_bytes x_size)
    by (unfold row_bytes; Z.div_mod_to_equations; lia).
  destruct (convert_to_layers_spec raw bin color_bits x_size y_size)
    as (bin' & Hrun & Hlen & Hok); try lia;
    try (unfold CARD_MEMORY_SIZE in *; nia).
  exists bin', (color_bits * row_bytes x_size * y_size).
  split; [exact Hrun|].
  unfold planes_to_raster. apply mapM_Some.
  apply Forall2_same_length_lookup_2.
  { rewrite length_seq, length_map. lia. }
  intros i k v Hk Hv. apply lookup_seq in Hk as [-> Hi]. cbn [plus].
  rewrite list_lookup_fmap in Hv.
  destruct (raw !! i) as [r0|] eqn:Hr; [|discriminate].
  injection Hv as <-.
  assert (Hiw : 0 <= Z.of_nat i mod x_size < x_size /\
                0 <= Z.of_nat i / x_size < y_size /\
                Z.of_nat i / x_size * x_size + Z.of_nat i mod x_size
                = Z.of_nat i).
  { assert (Z.of_nat i < x_size * y_size) by lia.
    pose proof (Z.div_mod (Z.of_nat i) x_size ltac:(lia)).
    pose proof (Z.mod_pos_bound (Z.of_nat i) x_size ltac:(lia)).
    split; [lia|]. split; [|lia].
    split; [apply Z.div_pos; lia|apply Z.div_lt_upper_bound; lia]. }
  destruct Hiw as (Hxi & Hyi & Hidx).
  assert (Hvr : raw_at raw (Z.of_nat i) = r0).
  { unfold raw_at, load. rewrite bool_decide_eq_true_2 by lia.
    rewrite Nat2Z.id, Hr. reflexivity. }
  rewrite (plane_pixel_spec bin' x_size _ _ r0).
  - rewrite Z.shiftr_0_r, Z2Nat.id by lia. reflexivity.
  - lia.
  - intros cbit Hc'. rewrite Z2Nat.id in Hc' by lia.
    destruct (planes_ok_bit raw bin' color_bits x_size y_size
                (Z.of_nat i mod x_size) (Z.of_nat i / x_size) cbit)
      as (byte & Hbyte & Hb); try assumption; try lia.
    unfold plane_bit. rewrite Hbyte. cbn [mbind option_bind].
    rewrite Hb, (proj2 (Z.ltb_lt _ x_size)) by lia.
    rewrite Hidx, Hvr. reflexivity.
Qed.

Lemma planes_keep_low_bits_witness :
  exists bin' n,
    convert_to_layers [0; 1; 2; 2; 1; 0] (replicate (Z.to_nat 32768) 7)
                      1 3 2 = Some (bin', n) /\
    planes_to_raster bin' 1 3 2 =
      Some (map (fun v => v mod 2 ^ 1) [0; 1; 2; 2; 1; 0]).
Proof.
  apply (planes_keep_low_bits [0; 1; 2; 2; 1; 0]
           (replicate (Z.to_nat 32768) 7) 1 3 2).
  - unfold MAX_COL_BYTES. lia.
  - unfold MAX_ROWS. lia.
  - unfold MAX_CARDS. lia.
  - reflexivity.
  - vm_compute. reflexivity.
Defined.

(** ** From the raster to the assembly listing *)



(** ** From the colour table to the pixels *)



(** ** Addresses, printed and read *)

Lemma digit_cases d :
  0 <= d < 16 ->
  d = 0 \/ d = 1 \/ d = 2 \/ d = 3 \/ d = 4 \/ d = 5 \/ d = 6 \/ d = 7 \/
  d = 8 \/ d = 9 \/ d = 10 \/ d = 11 \/ d = 12 \/ d = 13 \/ d = 14 \/ d = 15.
Proof. lia. Qed.

(** The digits that [%X] prints are digits for [strtoul], and none of them
    is white space, a sign or the letter of the prefix. *)
Lemma xdigit_hex_digit d :
  0 <= d < 16 ->
  xdigit_value (hex_digit d) = Some d /\
  isspace (hex_digit d) = false /\
  Ascii.eqb (hex_digit d) "x" = false /\
  Ascii.eqb (hex_digit d) "X" = false /\
  hex_digit d <> "-"%char /\ hex_digit d <> "+"%char.
Proof.
  intros Hd. pose proof (digit_cases d Hd) as H.
  repeat (destruct H as [->|H];
          [repeat split; try reflexivity; discriminate|]).
  subst d. repeat split; try reflexivity; discriminate.
Qed.

(** A text of such digits. *)
Lemma xdigits_value_snoc (s : text) d :
  0 <= d < 16 ->
  Forall (fun c => exists d', 0 <= d' < 16 /\ c = hex_digit d') s ->
  forall acc,
  xdigits_value (s ++ [hex_digit d]) acc = 16 * xdigits_value s acc + d.
Proof.
  intros Hd Hs. induction Hs as [|c s (d' & Hd' & ->) _ IH]; intros acc.
  - cbn [app xdigits_value].
    rewrite (proj1 (xdigit_hex_digit d Hd)). reflexivity.
  - cbn [app xdigits_value].
    rewrite (proj1 (xdigit_hex_digit d' Hd')). apply IH.
Qed.

Lemma hex_digits_digits (fuel : nat) :
  forall v,
  Forall (fun c => exists d', 0 <= d' < 16 /\ c = hex_digit d')
         (hex_digits fuel v).
Proof.
  induction fuel as [|fuel IH]; intros v; cbn [hex_digits]; [constructor|].
  destruct (v =? 0); constructor; [|apply IH].
  exists (v mod 16). split; [apply Z.mod_pos_bound; lia|reflexivity].
Qed.

Lemma xdigits_value_hex_digits (fuel : nat) :
  forall v, 0 <= v < 16 ^ Z.of_nat fuel ->
  xdigits_value (rev (hex_digits fuel v)) 0 = v.
Proof.
  induction fuel as [|fuel IH]; intros v Hv.
  - change (16 ^ Z.of_nat 0) with 1 in Hv. cbn. lia.
  - cbn [hex_digits]. destruct (Z.eqb_spec v 0) as [->|Hnz]; [reflexivity|].
    cbn [rev].
    rewrite xdigits_value_snoc;
      [|apply Z.mod_pos_bound; lia
       |apply Forall_rev, hex_digits_digits].
    rewrite IH; [Z.div_mod_to_equations; lia|].
    rewrite Nat2Z.inj_succ, Z.pow_succ_r in Hv by lia.
    split; [apply Z.div_pos; lia|apply Z.div_lt_upper_bound; lia].
Qed.

Lemma xdigits_value_zeros (n : nat) (s : text) :
  xdigits_value (repeat "0"%char n ++ s) 0 = xdigits_value s 0.
Proof. induction n as [|n IH]; [reflexivity|exact IH]. Qed.

Lemma printf_X_value prec v :
  0 <= v < 2 ^ 32 -> xdigits_value (printf_X prec v) 0 = v.
Proof.
  intros Hv. unfold printf_X. rewrite rev_app_distr, rev_repeat.
  rewrite xdigits_value_zeros. apply xdigits_value_hex_digits.
  change (16 ^ Z.of_nat 8) with (2 ^ 32). exact Hv.
Qed.

Lemma printf_X_digits prec v :
  Forall (fun c => exists d', 0 <= d' < 16 /\ c = hex_digit d')
         (printf_X prec v).
Proof.
  unfold printf_X. apply Forall_rev, Forall_app. split.
  - apply hex_digits_digits.
  - apply List.Forall_forall. intros c Hc. apply repeat_spec in Hc as ->.
    exists 0. split; [lia|reflexivity].
Qed.

(** [strtoul] on a text of such digits: no white space, no sign, no
    prefix. *)
Lemma strtoul_16_digits (s : text) errno :
  Forall (fun c => exists d', 0 <= d' < 16 /\ c = hex_digit d') s ->
  xdigits_value s 0 <= ULONG_MAX ->
  strtoul_16 s errno = (xdigits_value s 0, errno).
Proof.
  intros Hs Hv. unfold strtoul_16.
  destruct Hs as [|c s (d & Hd & ->) Hs].
  - cbn. reflexivity.
  - destruct (xdigit_hex_digit d Hd) as (Hx & Hsp & _ & _ & Hm & Hp).
    cbn [skip_space]. rewrite Hsp.
    assert (Hsign :
      match hex_digit d :: s with
      | "-"%char :: s' => (true, s')
      | "+"%char :: s' => (false, s')
      | _ => (false, hex_digit d :: s)
      end = (false, hex_digit d :: s)).
    { pose proof (digit_cases d Hd) as H.
      repeat (destruct H as [->|H]; [reflexivity|]). subst d. reflexivity. }
    rewrite Hsign.
    assert (Hprefix :
      match hex_digit d :: s with
      | "0"%char :: x :: d0 :: s' =>
          if (Ascii.eqb x "x" || Ascii.eqb x "X")
             && match xdigit_value d0 with Some _ => true | None => false end
          then d0 :: s' else hex_digit d :: s
      | _ => hex_digit d :: s
      end = hex_digit d :: s).
    { destruct Hs as [|x s (dx & Hdx & ->) Hs];
        [pose proof (digit_cases d Hd) as H;
         repeat (destruct H as [->|H]; [reflexivity|]); subst d; reflexivity|].
      destruct (xdigit_hex_digit dx Hdx) as (_ & _ & Hx1 & Hx2 & _).
      destruct s as [|d0 s];
        [pose proof (digit_cases d Hd) as H;
         repeat (destruct H as [->|H]; [reflexivity|]); subst d; reflexivity|].
      pose proof (digit_cases d Hd) as H.
      repeat (destruct H as [->|H];
              [cbv beta iota; try rewrite Hx1, Hx2; reflexivity|]).
      subst d. reflexivity. }
    rewrite Hprefix.
    rewrite Z.gtb_ltb, (proj2 (Z.ltb_ge ULONG_MAX _)) by exact Hv.
    reflexivity.
Qed.

(** X16.  An address printed with [%X], whatever the precision, is read
    back by [strtoul( ..., 16 )] as the same value, with [errno] left as it
    is; so [get_options] takes each of the five card addresses as usage
    prints them, in four capital hex digits, and sets the base address to
    it. *)
Theorem address_round_trip prec v errno name :
  0 <= v < 2 ^ 32 ->
  strtoul_16 (printf_X prec v) errno = (v, errno) /\
  (In v card_addresses ->
   get_options [("i"%char, name); ("a"%char, printf_X 4 v)] 0 =
   (true, mk_options v (Some name) None None 0)).
Proof.
  intros Hv.
  assert (Hread : forall p e, strtoul_16 (printf_X p v) e = (v, e)).
  { intros p e. rewrite strtoul_16_digits.
    - rewrite printf_X_value by exact Hv. reflexivity.
    - apply printf_X_digits.
    - rewrite printf_X_value by exact Hv. unfold ULONG_MAX.
      change (2 ^ 64) with 18446744073709551616.
      change (2 ^ 32) with 4294967296 in Hv. lia. }
  split; [apply Hread|].
  intros Hcard. unfold get_options.
  cbn [get_options_loop Ascii.eqb Bool.eqb andb input_filename
       output_filename palette_filename base_address format].
  rewrite Hread. cbn [Z.eqb negb base_address].
  unfold card_addresses in Hcard. cbn [In] in Hcard.
  destruct Hcard as [<-|[<-|[<-|[<-|[<-|[]]]]]]; reflexivity.
Qed.

Lemma address_round_trip_witness :
  strtoul_16 (printf_X 4 0xA000) 0 = (0xA000, 0).
Proof.
  apply (proj1 (address_round_trip 4 0xA000 0 [] ltac:(cbn; lia))).
Defined.

(** ** main: reading the image *)

Lemma get_image_dimensions_rest_cons line rest x_size y_size :
  get_image_dimensions_rest (line :: rest) x_size y_size =
  let x1 := default x_size (declared_width line) in
  let y1 := default y_size (declared_height line) in
  if negb (x1 =? 0) && negb (y1 =? 0) then rest
  else get_image_dimensions_rest rest x1 y1.
Proof.
  cbn [get_image_dimensions_rest]. rewrite !scan_size_declared.
  unfold declared_width, declared_height. reflexivity.
Qed.

(** Lines that declare nothing are passed while a size is unset. *)
Lemma dimensions_skip pre post x0 y0 :
  Forall declares_nothing pre -> x0 = 0 \/ y0 = 0 ->
  get_image_dimensions_loop (pre ++ post) x0 y0
    = get_image_dimensions_loop post x0 y0 /\
  get_image_dimensions_rest (pre ++ post) x0 y0
    = get_image_dimensions_rest post x0 y0.
Proof.
  intros Hpre Hunset.
  assert (Hgo : negb (x0 =? 0) && negb (y0 =? 0) = false)
    by (destruct Hunset as [-> | ->]; [reflexivity|apply andb_false_r]).
  induction Hpre as [|line pre [Hw Hh] _ IH]; [split; reflexivity|].
  cbn [app].
  rewrite get_image_dimensions_loop_cons, get_image_dimensions_rest_cons.
  rewrite Hw, Hh. cbn [default from_option id]. cbv zeta. rewrite Hgo.
  exact IH.
Qed.

(** A width line and then a height line. *)
Lemma dimensions_found pre wline mid hline rest w h :
  Forall declares_nothing pre -> Forall declares_nothing mid ->
  declared_width wline = Some w -> declared_height wline = None ->
  declared_width hline = None -> declared_height hline = Some h ->
  w <> 0 -> h <> 0 ->
  get_image_dimensions (pre ++ wline :: mid ++ hline :: rest) = (true, w, h) /\
  get_image_dimensions_rest (pre ++ wline :: mid ++ hline :: rest) 0 0 = rest.
Proof.
  intros Hpre Hmid Hww Hwh Hhw Hhh Hw Hh. unfold get_image_dimensions.
  destruct (dimensions_skip pre (wline :: mid ++ hline :: rest) 0 0 Hpre)
    as [-> ->]; [left; reflexivity|].
  rewrite get_image_dimensions_loop_cons, get_image_dimensions_rest_cons.
  rewrite Hww, Hwh. cbn [default from_option id]. cbv zeta.
  rewrite andb_false_r.
  destruct (dimensions_skip mid (hline :: rest) w 0 Hmid)
    as [-> ->]; [right; reflexivity|].
  rewrite get_image_dimensions_loop_cons, get_image_dimensions_rest_cons.
  rewrite Hhw, Hhh. cbn [default from_option id]. cbv zeta.
  rewrite (proj2 (Z.eqb_neq w 0)) by exact Hw.
  rewrite (proj2 (Z.eqb_neq h 0)) by exact Hh.
  split; reflexivity.
Qed.

(** The colour table: lines that match nothing, then the colours. *)
Lemma translate_cmap_table palette ncolors skipped cols rest cmap :
  1 <= ncolors <= MAX_PALETTE_SIZE ->
  Z.of_nat (length palette) = MAX_PALETTE_SIZE ->
  Z.of_nat (length cmap) = MAX_PALETTE_SIZE ->
  Forall (fun line => cmap_matched line <= 0) skipped ->
  Z.of_nat (length cols) = ncolors ->
  Forall (known_color palette ncolors) cols ->
  exists cmap',
    translate_cmap (skipped ++ cols ++ rest) palette cmap ncolors
      = Some (ncolors, cmap', rest) /\
    length cmap' = length cmap /\
    translated palette ncolors cols cmap' 0.
Proof.
  intros Hn Hp Hc Hskip Hlen Hcols.
  assert (Hrun : exists cmap',
            translate_cmap (skipped ++ cols ++ rest) palette cmap ncolors
              = Some (ncolors, cmap', rest)).
  { unfold translate_cmap. induction Hskip as [|line skipped Hline _ IH].
    - apply (translate_cmap_loop_colors palette ncolors Hn Hp cols rest cmap 0);
        [lia|exact Hc|lia|exact Hcols].
    - cbn [app]. rewrite translate_cmap_loop_other by exact Hline. exact IH. }
  destruct Hrun as (cmap' & Hrun). exists cmap'. split; [exact Hrun|].
  destruct (translate_cmap_loop_spec palette ncolors Hn Hp
              (skipped ++ cols ++ rest) cmap 0)
    as (n & cmap1 & rest1 & Hrun1 & _ & Hl & _ & Hok); [lia|exact Hc|].
  unfold translate_cmap in Hrun. rewrite Hrun1 in Hrun.
  injection Hrun as -> -> ->. split; [exact Hl|].
  destruct (Hok eq_refl) as (pre' & cols' & Hfile & _ & _ & Hlen' & Ht).
  rewrite !app_assoc in Hfile. apply app_inv_tail in Hfile.
  apply app_inj_2 in Hfile as [_ ->]; [exact Ht|].
  apply Nat2Z.inj. lia.
Qed.

(** The lines up to the header line. *)
Lemma search_for_header_data_found (more : lines_t) rest :
  Forall (fun line : text => NUL ∉ line) more -> header_s ∉ more ->
  search_for_header_data (more ++ header_s :: rest) = (true, rest).
Proof.
  intros Hnul Hno. induction Hnul as [|line more Hline _ IH].
  - cbn [app search_for_header_data].
    rewrite (proj2 (strncmp_eq_terminated header_s header_s header_s_no_NUL
                      header_s_no_NUL) eq_refl).
    reflexivity.
  - apply not_elem_of_cons in Hno as [Hne Hno].
    cbn [app search_for_header_data].
    destruct (strncmp_eq (line ++ [NUL]) (header_s ++ [NUL])
                (S (length header_s))) eqn:Heq; [|apply IH; exact Hno].
    apply (strncmp_eq_terminated header_s line Hline header_s_no_NUL) in Heq.
    congruence.
Qed.

(** The readers of main on a file of the shape that main reads. *)
Lemma read_image_shape image_file palette ncolors color_translation raw_image
    w h cols data :
  image_shape palette ncolors w h cols data image_file ->
  1 <= w <= MAX_COL_BYTES * 8 -> 1 <= h <= MAX_ROWS ->
  1 <= ncolors <= MAX_PALETTE_SIZE ->
  Z.of_nat (length palette) = MAX_PALETTE_SIZE ->
  Z.of_nat (length color_translation) = MAX_PALETTE_SIZE ->
  Z.of_nat (length raw_image) = MAX_IMAGE_SIZE ->
  exists raw_image',
    read_image image_file palette ncolors color_translation raw_image 0
      = Some (inr (w, h, raw_image')) /\
    length raw_image' = length raw_image /\
    raster_of palette ncolors cols data raw_image'.
Proof.
  intros (pre & wline & mid & hline & skipped & more & closing & rest & ->
          & Hpre & Hmid & Hww & Hwh & Hhw & Hhh & Hskip & Hlen & Hcols
          & Hnul & Hno & Hdata & Hclose & Htoks & Hsize)
    Hw Hh Hn Hp Hc Hraw.
  unfold read_image.
  destruct (dimensions_found pre wline mid hline
              (skipped ++ cols ++ more ++ header_s :: data ++ closing :: rest)
              w h Hpre Hmid Hww Hwh Hhw Hhh ltac:(lia) ltac:(lia))
    as [-> ->].
  cbn [negb].
  rewrite !Z.gtb_ltb, (proj2 (Z.ltb_ge _ w)), (proj2 (Z.ltb_ge _ h)) by lia.
  cbn [orb].
  destruct (translate_cmap_table palette ncolors skipped cols
              (more ++ header_s :: data ++ closing :: rest) color_translation
              Hn Hp Hc Hskip Hlen Hcols) as (cmap' & Hrun & Hl & Ht).
  rewrite Hrun. cbn [mbind option_bind]. rewrite Z.eqb_refl. cbn [negb].
  rewrite (search_for_header_data_found more _ Hnul Hno). cbn [negb].
  unfold MAX_IMAGE_SIZE, MAX_PALETTE_SIZE, MAX_COL_BYTES, MAX_ROWS in *.
  assert (Hsmall : forall v, 0 <= v < ncolors -> uint8 v = v)
    by (intros v Hv; unfold uint8; apply Z.mod_small; lia).
  unfold parse_image.
  rewrite (parse_image_loop_tokens cmap' closing rest data 0 []);
    [|exact Hdata|exact Hclose|
     |unfold MAX_IMAGE_SIZE, MAX_COL_BYTES, MAX_ROWS; nia].
  2:{ eapply Forall_impl; [exact Htoks|]. intros v Hv. cbn beta in Hv |- *.
      rewrite (Hsmall v Hv). unfold ULONG_MAX.
      change (2 ^ 64) with 18446744073709551616. lia. }
  cbn [mbind option_bind stored returned].
  rewrite reverse_nil, app_nil_l.
  rewrite bool_decide_eq_true_2 by (rewrite length_map; nia).
  rewrite Z.add_0_l, Hsize, Z.eqb_refl. cbn [negb].
  rewrite (proj2 (Z.eqb_neq (w * h) 0)) by nia.
  eexists. split; [reflexivity|]. split.
  - rewrite length_app, length_drop, length_map. nia.
  - intros i v Hv.
    pose proof (proj1 (Forall_lookup _ _) Htoks i v Hv) as Hrange.
    cbn beta in Hrange.
    destruct (lookup_lt_is_Some_2 cols (Z.to_nat v)) as [line Hline]; [lia|].
    destruct (Ht _ _ Hline) as (_ & c & Hload & Hfirst).
    exists line, c. split; [exact Hline|]. split; [|exact Hfirst].
    rewrite lookup_app_l
      by (rewrite length_map; eapply lookup_lt_Some; exact Hv).
    rewrite list_lookup_fmap, Hv. cbn [fmap option_fmap option_map].
    unfold pixel_of. rewrite (Hsmall v Hrange).
    rewrite Z.add_0_l, Z2Nat.id in Hload by lia. rewrite Hload. reflexivity.
Qed.


(** The small image file has the shape. *)
Lemma small_image_shape :
  image_shape default_palette 2 3 2 small_cols small_data small_image.
Proof.
  exists [str "/* GIMP header image file format (INDEXED) */" ++ nl],
    (str "static unsigned int width = 3;" ++ nl), [nl],
    (str "static unsigned int height = 2;" ++ nl),
    [str "static unsigned char header_data_cmap[256][3] = {" ++ nl],
    [str " {255,255,255}," ++ nl; str " };" ++ nl],
    (str " };" ++ nl), [].
  split; [reflexivity|].
  split; [apply Forall_cons_2;
          [split; vm_compute; reflexivity|apply Forall_nil_2]|].
  split; [apply Forall_cons_2;
          [split; vm_compute; reflexivity|apply Forall_nil_2]|].
  split; [vm_compute; reflexivity|]. split; [vm_compute; reflexivity|].
  split; [vm_compute; reflexivity|]. split; [vm_compute; reflexivity|].
  split; [apply Forall_cons_2; [vm_compute; discriminate|apply Forall_nil_2]|].
  split; [vm_compute; reflexivity|].
  split.
  { apply Forall_cons_2; [|apply Forall_cons_2; [|apply Forall_nil_2]].
    - split; [vm_compute; reflexivity|]. exists 0.
      split; [lia|]. split; [vm_compute; reflexivity|]. intros c' Hc'. lia.
    - split; [vm_compute; reflexivity|]. exists 1.
      split; [lia|]. split; [vm_compute; reflexivity|].
      intros c' Hc'. assert (c' = 0) as -> by lia. vm_compute. discriminate. }
  split.
  { apply Forall_cons_2; [absent_char|].
    apply Forall_cons_2; [absent_char|apply Forall_nil_2]. }
  split.
  { apply not_elem_of_cons. split; [vm_compute; discriminate|].
    apply not_elem_of_cons. split; [vm_compute; discriminate|].
    apply not_elem_of_nil. }
  split.
  { apply Forall_cons_2; [|apply Forall_cons_2; [|apply Forall_nil_2]];
      (split; [vm_compute; reflexivity|]);
      cbv [str nl list_ascii_of_string app]; rewrite !elem_of_cons; tauto. }
  split; [vm_compute; reflexivity|].
  split; [|vm_compute; reflexivity].
  apply List.Forall_forall. intros v Hv. vm_compute in Hv. intuition lia.
Qed.


(** ** main *)

Lemma cut_extension_none (s : text) :
  "."%char ∉ s -> cut_extension s = None.
Proof.
  induction s as [|c s IH]; intros Hs; [reflexivity|].
  apply not_elem_of_cons in Hs as [Hc Hs]. cbn [cut_extension].
  rewrite (IH Hs), (proj2 (Ascii.eqb_neq c ".")) by congruence. reflexivity.
Qed.

Lemma cut_extension_last (pre ext : text) :
  "."%char ∉ ext ->
  cut_extension (pre ++ "."%char :: ext) = Some (pre ++ ["."%char]).
Proof.
  intros Hext. induction pre as [|c pre IH]; cbn [app cut_extension].
  - rewrite (cut_extension_none ext Hext). reflexivity.
  - rewrite IH. reflexivity.
Qed.

(** The derived name, in the array that [malloc] returned. *)
Lemma default_output_filename_derived (input fmt block : text) :
  NUL ∉ input -> NUL ∉ fmt ->
  length block = (length input + length fmt + 2)%nat ->
  exists name,
    default_output_filename input fmt block = Some name /\
    c_string name = Some (derived_name input fmt).
Proof.
  intros Hin Hfmt Hlen.
  destruct (default_output_filename_strings input fmt block Hin Hfmt Hlen)
    as (name & Hrun & _ & Hnone & Hcut).
  exists name. split; [exact Hrun|]. unfold derived_name.
  destruct (last_occurrence "." input) as [(pre & ext & -> & Hext)|Hdot].
  - rewrite (cut_extension_last pre ext Hext), (Hcut pre ext eq_refl Hext).
    cbn [default from_option id]. rewrite <- app_assoc. reflexivity.
  - rewrite (cut_extension_none input Hdot), (Hnone Hdot).
    cbn [default from_option id]. rewrite <- app_assoc. reflexivity.
Qed.

Lemma formats_no_NUL entry : In entry formats -> NUL ∉ format_string entry.
Proof.
  unfold formats. cbn [In].
  intros [<-|[<-|[<-|[]]]]; cbn [format_string];
    cbv [str list_ascii_of_string];
    repeat (apply not_elem_of_cons; split; [discriminate|]);
    apply not_elem_of_nil.
Qed.


